(** * CinnaOS: the recycle-bin store

    A shallow embedding of the recycle-bin persistence layer of
    [CinnaOS.py] (lines 151-228): [load_recycle_index],
    [save_recycle_index], [move_to_recycle], [restore_from_recycle] and
    [empty_recycle]; and of what stands around it: the start of the
    module (lines 94-96), the Recycle Bin and File Explorer windows, the
    handlers of the desktop for deleting, for new folders, for the icons
    and for the task bar, and the helpers [format_bytes] and
    [is_ethernet_connected].

    The Python functions are stateful (they act on the file system) and
    fallible (library calls raise), so they are embedded as functions
    [world -> world * result A]: the world is threaded explicitly, and
    a raised exception is a value.

    Library calls are primitives of the model:
    - [os.path], [pathlib] and [open]/[os.remove] follow their POSIX
      flavour over a file system without symbolic links or permission
      bits: a call fails exactly when the shape of the tree forbids it;
    - [json.loads]/[json.dumps] are an interface ([JsonCodec]) with the
      two laws the store relies on; [mini_json] is an instance that
      prints like [json.dumps] and parses that JSON fragment. *)

From Stdlib Require Import ZArith Ascii String List.
From stdpp Require Import base tactics option list gmap strings pretty.

Local Open Scope string_scope.
Local Open Scope Z_scope.

(** ** Python values and exceptions *)

(** The values [json.loads] can return (numbers with a fraction or an
    exponent are outside the model).  A [dict] keeps insertion order. *)
Unset Elimination Schemes.
Inductive pyval :=
| PNone
| PBool (b : bool)
| PInt (z : Z)
| PStr (s : string)
| PList (l : list pyval)
| PDict (d : list (string * pyval)).
Set Elimination Schemes.

Inductive errno := ENOENT | ENOTDIR | EISDIR | EEXIST.

Inductive exn :=
| OSError (e : errno)
| TypeError
| AttributeError
| KeyError (k : string)
| ValueError.

Inductive result (A : Type) :=
| Ok (a : A)
| Raise (e : exn).
Arguments Ok {A} a.
Arguments Raise {A} e.

(** ** Path strings ([posixpath]) *)

Definition slash : ascii := "/"%char.

(** [p.split('/')]: never empty. *)
Fixpoint split (p : string) : list string :=
  match p with
  | EmptyString => [""]
  | String c p' =>
      if decide (c = slash) then "" :: split p'
      else match split p' with
           | h :: t => String c h :: t
           | [] => [String c ""]
           end
  end.

(** ['/'.join(cs)] *)
Fixpoint join (cs : list string) : string :=
  match cs with
  | [] => ""
  | [c] => c
  | c :: cs' => c +:+ "/" +:+ join cs'
  end.

(** [os.path.basename]: what follows the last slash. *)
Definition basename (p : string) : string := List.last (split p) "".

Definition isabs (p : string) : bool :=
  match p with
  | String c _ => bool_decide (c = slash)
  | EmptyString => false
  end.

(** A location in the tree: the names from the node up to the root. *)
Definition loc := list string.

(** One component of a path, applied to the current location. *)
Definition step (cur : loc) (c : string) : loc :=
  if decide (c = "" ∨ c = ".") then cur
  else if decide (c = "..") then tail cur
  else c :: cur.

Definition render (l : loc) : string := "/" +:+ join (reverse l).

(** [normpath] keeps exactly two leading slashes. *)
Definition two_slashes (p : string) : bool :=
  match p with
  | String a (String b rest) =>
      bool_decide (a = slash) && bool_decide (b = slash) &&
      negb (isabs rest)
  | _ => false
  end.

Fixpoint no_slash (s : string) : bool :=
  match s with
  | EmptyString => true
  | String c s' => negb (bool_decide (c = slash)) && no_slash s'
  end.

(** A name that [normpath] and [pathlib] keep as it is. *)
Definition plain_name (c : string) : bool :=
  no_slash c && negb (bool_decide (c = "")) &&
  negb (bool_decide (c = ".")) && negb (bool_decide (c = "..")).

(** An underscore occurs in the string. *)
Fixpoint has_underscore (s : string) : bool :=
  match s with
  | EmptyString => false
  | String c s' => bool_decide (c = "_"%char) || has_underscore s'
  end.

(** ** The file system *)

Inductive node :=
| File (data : string)
| Dir.

#[global] Instance node_eq_dec : EqDecision node.
Proof. solve_decision. Defined.

Record world := World {
  nodes : gmap loc node;
  cwd : loc
}.

Definition with_nodes (w : world) (m : gmap loc node) : world :=
  World m (cwd w).

Definition node_at (m : gmap loc node) (l : loc) : option node :=
  match l with
  | [] => Some Dir
  | _ => m !! l
  end.

(** A directory, with all the directories above it. *)
Fixpoint is_dir (m : gmap loc node) (l : loc) : bool :=
  match l with
  | [] => true
  | c :: up =>
      match m !! (c :: up) with
      | Some Dir => is_dir m up
      | _ => false
      end
  end.

(** Why a location cannot be entered. *)
Definition enter_error (m : gmap loc node) (l : loc) : errno :=
  match node_at m l with
  | Some (File _) => ENOTDIR
  | _ => ENOENT
  end.

(** Path resolution by the system: every component is looked up in a
    directory. *)
Fixpoint walk (m : gmap loc node) (cur : loc) (cs : list string)
  : result loc :=
  match cs with
  | [] => Ok cur
  | c :: cs' =>
      if is_dir m cur then walk m (step cur c) cs'
      else Raise (OSError (enter_error m cur))
  end.

Definition resolve (w : world) (p : string) : result loc :=
  if decide (p = "") then Raise (OSError ENOENT)
  else walk (nodes w) (if isabs p then [] else cwd w) (split p).

(** What [os.path.abspath] returns: the path joined to the working
    directory and normalised, which is purely lexical. *)
Definition abspath (w : world) (p : string) : string :=
  let l := fold_left step (split p) (if isabs p then [] else cwd w) in
  (if two_slashes p then "/" else "") +:+ render l.

(** [os.path.isfile] *)
Definition isfile (w : world) (p : string) : bool :=
  match resolve w p with
  | Ok l => match node_at (nodes w) l with
            | Some (File _) => true
            | _ => false
            end
  | Raise _ => false
  end.

(** ** Computations: world passing with exceptions *)

Definition M (A : Type) : Type := world → world * result A.

Definition ret {A} (a : A) : M A := λ w, (w, Ok a).
Definition raise {A} (e : exn) : M A := λ w, (w, Raise e).
Definition bind {A B} (m : M A) (k : A → M B) : M B :=
  λ w, match m w with
       | (w', Ok a) => k a w'
       | (w', Raise e) => (w', Raise e)
       end.
(** [try: m  except Exception as e: h e] *)
Definition try_except {A} (m : M A) (h : exn → M A) : M A :=
  λ w, match m w with
       | (w', Ok a) => (w', Ok a)
       | (w', Raise e) => h e w'
       end.
Definition lift {A} (r : result A) : M A := λ w, (w, r).

Notation "'let*' x ':=' m 'in' k" := (bind m (λ x, k))
  (at level 10, x name, m at level 100, k at level 200).
Notation "'run' m 'then' k" := (bind m (λ _, k))
  (at level 10, m at level 100, k at level 200).

(** [open(p, "rb")] *)
Definition open_rb (p : string) : M loc := λ w,
  match resolve w p with
  | Raise e => (w, Raise e)
  | Ok l =>
      match node_at (nodes w) l with
      | Some (File _) => (w, Ok l)
      | Some Dir => (w, Raise (OSError EISDIR))
      | None => (w, Raise (OSError ENOENT))
      end
  end.

(** [f.read()] on a file opened at [l]: its content now. *)
Definition read_at (l : loc) : M string := λ w,
  match nodes w !! l with
  | Some (File d) => (w, Ok d)
  | _ => (w, Ok "")
  end.

(** [open(p, "wb")]: creates or truncates. *)
Definition open_wb (p : string) : M loc := λ w,
  match resolve w p with
  | Raise e => (w, Raise e)
  | Ok l =>
      match node_at (nodes w) l with
      | Some Dir => (w, Raise (OSError EISDIR))
      | _ => (with_nodes w (<[l := File ""]> (nodes w)), Ok l)
      end
  end.

(** [f.write(data)] on a file opened at [l]. *)
Definition write_at (l : loc) (data : string) : M unit := λ w,
  (with_nodes w (<[l := File data]> (nodes w)), Ok tt).

(** [os.remove] and [Path.unlink] *)
Definition remove (p : string) : M unit := λ w,
  match resolve w p with
  | Raise e => (w, Raise e)
  | Ok l =>
      match node_at (nodes w) l with
      | Some (File _) => (with_nodes w (delete l (nodes w)), Ok tt)
      | Some Dir => (w, Raise (OSError EISDIR))
      | None => (w, Raise (OSError ENOENT))
      end
  end.

(** [os.mkdir] *)
Definition os_mkdir (p : string) : M unit := λ w,
  match resolve w p with
  | Raise e => (w, Raise e)
  | Ok l =>
      match node_at (nodes w) l with
      | Some _ => (w, Raise (OSError EEXIST))
      | None => (with_nodes w (<[l := Dir]> (nodes w)), Ok tt)
      end
  end.

(** [Path.exists] *)
Definition path_exists (w : world) (p : string) : bool :=
  match resolve w p with
  | Ok l => bool_decide (is_Some (node_at (nodes w) l))
  | Raise _ => false
  end.

Definition path_is_dir (w : world) (p : string) : bool :=
  match resolve w p with
  | Ok l => is_dir (nodes w) l
  | Raise _ => false
  end.

(** [os.getcwd()]: raises when the working directory is gone. *)
Definition getcwd : M string := λ w,
  if is_dir (nodes w) (cwd w) then (w, Ok (render (cwd w)))
  else (w, Raise (OSError ENOENT)).

(** ** [pathlib] *)

Record path := MkPath {
  rooted : bool;
  parts : list string
}.

(** [Path(s)]: empty and [.] components are dropped, [..] is kept.  (A
    root of two slashes is kept as one: both name the same node.) *)
Definition Path (s : string) : path :=
  MkPath (isabs s)
    (filter (λ c, c ≠ "" ∧ c ≠ ".") (split s)).

(** [str(p)] *)
Definition path_str (p : path) : string :=
  match rooted p, parts p with
  | false, [] => "."
  | false, ps => join ps
  | true, ps => "/" +:+ join ps
  end.

(** [p / s] *)
Definition joinpath (p : path) (s : string) : path :=
  if isabs s then Path s
  else MkPath (rooted p) (parts p ++ parts (Path s)).

(** [p.parent] *)
Definition parent (p : path) : path :=
  MkPath (rooted p) (removelast (parts p)).

(** [p.mkdir(parents=False, exist_ok=True)] *)
Definition mkdir_exist_ok (p : path) : M unit :=
  try_except (os_mkdir (path_str p))
    (λ e w,
       match e with
       | OSError ENOENT => (w, Raise e)
       | OSError _ =>
           if path_is_dir w (path_str p) then (w, Ok tt) else (w, Raise e)
       | _ => (w, Raise e)
       end).

(** [p.mkdir(parents=True, exist_ok=True)], by recursion on the parts
    of [p] from the last one up. *)
Fixpoint mkdir_parents (r : bool) (rparts : list string) : M unit :=
  let self := MkPath r (reverse rparts) in
  try_except (os_mkdir (path_str self))
    (λ e w,
       match e with
       | OSError ENOENT =>
           match rparts with
           | [] => (w, Raise e)
           | _ :: up =>
               (run mkdir_parents r up then mkdir_exist_ok self) w
           end
       | OSError _ =>
           if path_is_dir w (path_str self) then (w, Ok tt)
           else (w, Raise e)
       | _ => (w, Raise e)
       end).

Definition mkdir_p (p : path) : M unit :=
  mkdir_parents (rooted p) (reverse (parts p)).

(** ** Operations on Python values *)

Fixpoint dict_get (d : list (string * pyval)) (k : string)
  : option pyval :=
  match d with
  | [] => None
  | (k', v) :: d' => if decide (k' = k) then Some v else dict_get d' k
  end.

(** [d[k] = v]: in place when [k] is bound, at the end otherwise. *)
Fixpoint dict_set (d : list (string * pyval)) (k : string) (v : pyval)
  : list (string * pyval) :=
  match d with
  | [] => [(k, v)]
  | (k', v') :: d' =>
      if decide (k' = k) then (k, v) :: d'
      else (k', v') :: dict_set d' k v
  end.

Fixpoint dict_del (d : list (string * pyval)) (k : string)
  : list (string * pyval) :=
  match d with
  | [] => []
  | (k', v') :: d' =>
      if decide (k' = k) then d' else (k', v') :: dict_del d' k
  end.

Fixpoint substring_of (k s : string) : bool :=
  String.prefix k s ||
  match s with
  | EmptyString => false
  | String _ s' => substring_of k s'
  end.

(** [k in v] for a string [k] *)
Definition py_contains (v : pyval) (k : string) : result bool :=
  match v with
  | PDict d => Ok (bool_decide (is_Some (dict_get d k)))
  | PList l =>
      Ok (existsb (λ x, match x with
                        | PStr s => bool_decide (s = k)
                        | _ => false
                        end) l)
  | PStr s => Ok (substring_of k s)
  | _ => Raise TypeError
  end.

(** [v[k]] for a string [k] *)
Definition py_getitem (v : pyval) (k : string) : result pyval :=
  match v with
  | PDict d =>
      match dict_get d k with
      | Some x => Ok x
      | None => Raise (KeyError k)
      end
  | _ => Raise TypeError
  end.

(** [v[k] = x] for a string [k] *)
Definition py_setitem (v : pyval) (k : string) (x : pyval)
  : result pyval :=
  match v with
  | PDict d => Ok (PDict (dict_set d k x))
  | _ => Raise TypeError
  end.

(** [v.get(k)] *)
Definition py_get (v : pyval) (k : string) : result pyval :=
  match v with
  | PDict d => Ok (default PNone (dict_get d k))
  | _ => Raise AttributeError
  end.

(** [v.pop(k, None)] *)
Definition py_pop (v : pyval) (k : string) : result pyval :=
  match v with
  | PDict d => Ok (PDict (dict_del d k))
  | PList _ => Raise TypeError
  | _ => Raise AttributeError
  end.

(** [v.items()] *)
Definition py_items (v : pyval) : result (list (string * pyval)) :=
  match v with
  | PDict d => Ok d
  | _ => Raise AttributeError
  end.

(** [bool(v)] *)
Definition py_truthy (v : pyval) : bool :=
  match v with
  | PNone => false
  | PBool b => b
  | PInt z => negb (Z.eqb z 0)
  | PStr s => negb (bool_decide (s = ""))
  | PList l => negb (bool_decide (l = []))
  | PDict d => negb (bool_decide (d = []))
  end.

(** [Path(v)] *)
Definition py_Path (v : pyval) : result path :=
  match v with
  | PStr s => Ok (Path s)
  | _ => Raise TypeError
  end.

(** A Python [dict] has one binding per key. *)
Fixpoint val_wf (v : pyval) : bool :=
  match v with
  | PList l => forallb val_wf l
  | PDict d =>
      bool_decide (NoDup (map fst d)) &&
      forallb (λ kv, val_wf (snd kv)) d
  | _ => true
  end.

(** ** The JSON library

    The library on the values the index holds: text it has read, and the
    entries of strings and [None] that the store adds.  (It refuses what
    lies outside of them, as an int of more than 4300 digits.) *)

Class JsonCodec := {
  (** [json.loads]; [None] when it raises *)
  json_loads : string → option pyval;
  (** [json.dumps] *)
  json_dumps : pyval → string;
  loads_wf : ∀ t v, json_loads t = Some v → val_wf v = true;
  loads_dumps : ∀ v, val_wf v = true → json_loads (json_dumps v) = Some v
}.

(** ** A JSON codec

    [dumps] prints like [json.dumps] with its default settings;
    [mini_loads] parses the JSON texts whose values are in [pyval]. *)

Definition dquote : ascii := "034"%char.
Definition backslash : ascii := "\"%char.

Definition hex_digit (n : N) : ascii :=
  match n with
  | 0 => "0" | 1 => "1" | 2 => "2" | 3 => "3" | 4 => "4" | 5 => "5"
  | 6 => "6" | 7 => "7" | 8 => "8" | 9 => "9" | 10 => "a" | 11 => "b"
  | 12 => "c" | 13 => "d" | 14 => "e" | _ => "f"
  end%N%char.

Definition hex_value (c : ascii) : option N :=
  let n := N_of_ascii c in
  if (48 <=? n)%N && (n <=? 57)%N then Some (n - 48)%N
  else if (97 <=? n)%N && (n <=? 102)%N then Some (n - 87)%N
  else if (65 <=? n)%N && (n <=? 70)%N then Some (n - 55)%N
  else None.

(** One character of a string, as [json.dumps] writes it
    ([ensure_ascii=True]). *)
Definition escape (c : ascii) : string :=
  let n := N_of_ascii c in
  if (n =? 34)%N then String backslash (String dquote "")
  else if (n =? 92)%N then String backslash (String backslash "")
  else if (n =? 10)%N then String backslash "n"
  else if (n =? 13)%N then String backslash "r"
  else if (n =? 9)%N then String backslash "t"
  else if (n =? 8)%N then String backslash "b"
  else if (n =? 12)%N then String backslash "f"
  else if (32 <=? n)%N && (n <=? 126)%N then String c ""
  else String backslash
         (String "u" (String "0" (String "0"
            (String (hex_digit (n / 16)) (String (hex_digit (n mod 16)) ""))))).

Fixpoint escape_all (s : string) : string :=
  match s with
  | EmptyString => ""
  | String c s' => escape c +:+ escape_all s'
  end.

Definition quote (s : string) : string :=
  String dquote (escape_all s +:+ String dquote "").

(** [', '.join(xs)] *)
Fixpoint sep_join (xs : list string) : string :=
  match xs with
  | [] => ""
  | [x] => x
  | x :: xs' => x +:+ ", " +:+ sep_join xs'
  end.

Fixpoint dumps (v : pyval) : string :=
  match v with
  | PNone => "null"
  | PBool true => "true"
  | PBool false => "false"
  | PInt z => pretty z
  | PStr s => quote s
  | PList l => "[" +:+ sep_join (map dumps l) +:+ "]"
  | PDict d =>
      "{" +:+
      sep_join (map (λ kv, quote (fst kv) +:+ ": " +:+ dumps (snd kv)) d)
      +:+ "}"
  end.

Definition is_ws (c : ascii) : bool :=
  let n := N_of_ascii c in
  (n =? 32)%N || (n =? 9)%N || (n =? 10)%N || (n =? 13)%N.

Fixpoint skip_ws (s : string) : string :=
  match s with
  | String c s' => if is_ws c then skip_ws s' else s
  | EmptyString => ""
  end.

Definition unescape (c : ascii) : option ascii :=
  let n := N_of_ascii c in
  if (n =? 34)%N then Some dquote
  else if (n =? 92)%N then Some backslash
  else if (n =? 47)%N then Some slash
  else if (n =? 110)%N then Some (ascii_of_N 10)
  else if (n =? 114)%N then Some (ascii_of_N 13)
  else if (n =? 116)%N then Some (ascii_of_N 9)
  else if (n =? 98)%N then Some (ascii_of_N 8)
  else if (n =? 102)%N then Some (ascii_of_N 12)
  else None.

Definition hex4 (a b c d : ascii) : option N :=
  match hex_value a, hex_value b, hex_value c, hex_value d with
  | Some x, Some y, Some z, Some t =>
      Some (((x * 16 + y) * 16 + z) * 16 + t)%N
  | _, _, _, _ => None
  end.

Definition cons_char (c : ascii) (r : option (string * string))
  : option (string * string) :=
  match r with
  | Some (s, rest) => Some (String c s, rest)
  | None => None
  end.

(** The body of a string, after its opening quote. *)
Fixpoint scan_string (s : string) : option (string * string) :=
  match s with
  | EmptyString => None
  | String c s' =>
      let n := N_of_ascii c in
      if (n =? 34)%N then Some ("", s')
      else if (n =? 92)%N then
        match s' with
        | String e s'' =>
            if (N_of_ascii e =? 117)%N then
              match s'' with
              | String h1 (String h2 (String h3 (String h4 r))) =>
                  match hex4 h1 h2 h3 h4 with
                  | Some code =>
                      if (code <? 256)%N
                      then cons_char (ascii_of_N code) (scan_string r)
                      else None
                  | None => None
                  end
              | _ => None
              end
            else
              match unescape e with
              | Some ch => cons_char ch (scan_string s'')
              | None => None
              end
        | EmptyString => None
        end
      else if (n <? 32)%N then None
      else cons_char c (scan_string s')
  end.

Definition is_digit (c : ascii) : bool :=
  let n := N_of_ascii c in (48 <=? n)%N && (n <=? 57)%N.

Definition digit_value (c : ascii) : N := (N_of_ascii c - 48)%N.

Fixpoint scan_digits (acc : N) (s : string) : N * string :=
  match s with
  | String c s' =>
      if is_digit c then scan_digits (acc * 10 + digit_value c)%N s'
      else (acc, s)
  | EmptyString => (acc, "")
  end.

(** [0] or a digit string without a leading zero. *)
Definition scan_nat (s : string) : option (N * string) :=
  match s with
  | String c s' =>
      if (N_of_ascii c =? 48)%N then Some (0%N, s')
      else if is_digit c then Some (scan_digits (digit_value c) s')
      else None
  | EmptyString => None
  end.

(** What cannot follow an integer: a fraction or an exponent would make
    it a float. *)
Definition float_tail (s : string) : bool :=
  match s with
  | String c _ =>
      let n := N_of_ascii c in
      (n =? 46)%N || (n =? 101)%N || (n =? 69)%N
  | EmptyString => false
  end.

Definition scan_int (s : string) : option (Z * string) :=
  match s with
  | String c s' =>
      if (N_of_ascii c =? 45)%N then
        match scan_nat s' with
        | Some (n, r) =>
            if float_tail r then None else Some (- Z.of_N n, r)
        | None => None
        end
      else
        match scan_nat s with
        | Some (n, r) => if float_tail r then None else Some (Z.of_N n, r)
        | None => None
        end
  | EmptyString => None
  end.

Fixpoint expect (word s : string) : option string :=
  match word, s with
  | EmptyString, _ => Some s
  | String a word', String b s' =>
      if Ascii.eqb a b then expect word' s' else None
  | String _ _, EmptyString => None
  end.

(** [dict(pairs)] *)
Definition dict_of_pairs (ps : list (string * pyval))
  : list (string * pyval) :=
  fold_left (λ d kv, dict_set d (fst kv) (snd kv)) ps [].

Fixpoint parse_value (fuel : nat) (s : string) {struct fuel}
  : option (pyval * string) :=
  match fuel with
  | O => None
  | S n =>
      match s with
      | EmptyString => None
      | String c r =>
          let k := N_of_ascii c in
          if (k =? 34)%N then
            match scan_string r with
            | Some (str, r') => Some (PStr str, r')
            | None => None
            end
          else if (k =? 91)%N then
            match skip_ws r with
            | String c1 r1 =>
                if (N_of_ascii c1 =? 93)%N then Some (PList [], r1)
                else match parse_elems n (String c1 r1) with
                     | Some (vs, r') => Some (PList vs, r')
                     | None => None
                     end
            | EmptyString => None
            end
          else if (k =? 123)%N then
            match skip_ws r with
            | String c1 r1 =>
                if (N_of_ascii c1 =? 125)%N then Some (PDict [], r1)
                else match parse_members n (String c1 r1) with
                     | Some (ms, r') => Some (PDict (dict_of_pairs ms), r')
                     | None => None
                     end
            | EmptyString => None
            end
          else if (k =? 110)%N then
            match expect "ull" r with
            | Some r' => Some (PNone, r')
            | None => None
            end
          else if (k =? 116)%N then
            match expect "rue" r with
            | Some r' => Some (PBool true, r')
            | None => None
            end
          else if (k =? 102)%N then
            match expect "alse" r with
            | Some r' => Some (PBool false, r')
            | None => None
            end
          else
            match scan_int s with
            | Some (z, r') => Some (PInt z, r')
            | None => None
            end
      end
  end
with parse_elems (fuel : nat) (s : string) {struct fuel}
  : option (list pyval * string) :=
  match fuel with
  | O => None
  | S n =>
      match parse_value n s with
      | Some (v, r) =>
          match skip_ws r with
          | String c r1 =>
              if (N_of_ascii c =? 44)%N then
                match parse_elems n (skip_ws r1) with
                | Some (vs, r') => Some (v :: vs, r')
                | None => None
                end
              else if (N_of_ascii c =? 93)%N then Some ([v], r1)
              else None
          | EmptyString => None
          end
      | None => None
      end
  end
with parse_members (fuel : nat) (s : string) {struct fuel}
  : option (list (string * pyval) * string) :=
  match fuel with
  | O => None
  | S n =>
      match s with
      | String q r =>
          if (N_of_ascii q =? 34)%N then
            match scan_string r with
            | Some (key, r1) =>
                match skip_ws r1 with
                | String c r2 =>
                    if (N_of_ascii c =? 58)%N then
                      match parse_value n (skip_ws r2) with
                      | Some (v, r3) =>
                          match skip_ws r3 with
                          | String c' r4 =>
                              if (N_of_ascii c' =? 44)%N then
                                match parse_members n (skip_ws r4) with
                                | Some (ms, r') => Some ((key, v) :: ms, r')
                                | None => None
                                end
                              else if (N_of_ascii c' =? 125)%N
                                   then Some ([(key, v)], r4)
                              else None
                          | EmptyString => None
                          end
                      | None => None
                      end
                    else None
                | EmptyString => None
                end
            | None => None
            end
          else None
      | EmptyString => None
      end
  end.

(** [json.loads]: one value, between optional white space. *)
Definition mini_loads (text : string) : option pyval :=
  match parse_value (S (String.length text)) (skip_ws text) with
  | Some (v, r) =>
      match skip_ws r with
      | EmptyString => Some v
      | String _ _ => None
      end
  | None => None
  end.

(** What may follow an integer. *)
Definition int_follow (s : string) : bool :=
  match s with
  | String c _ => negb (is_digit c) && negb (float_tail s)
  | EmptyString => true
  end.

(** The first character of a printed value: neither white space nor a
    closing bracket. *)
Definition value_head (s : string) : bool :=
  match s with
  | String c _ =>
      negb (is_ws c) && negb (N_of_ascii c =? 93)%N
      && negb (N_of_ascii c =? 125)%N
  | EmptyString => false
  end.

(** One binding of a printed [dict]. *)
Definition member (kv : string * pyval) : string :=
  quote (fst kv) +:+ ": " +:+ dumps (snd kv).

(** ** The store *)

Section Store.
Context `{JsonCodec}.

Definition BASE_FOLDER : path := Path "D:/CinnaOS".
Definition RECYCLE_DIR : path := joinpath BASE_FOLDER "recycle_bin".
Definition RECYCLE_INDEX : path := joinpath RECYCLE_DIR "index.json".

(** [p.read_text(encoding="utf-8")]; decoding the bytes is left to the
    codec. *)
Definition read_text (p : path) : M string :=
  let* f := open_rb (path_str p) in
  read_at f.

(** [p.write_text(data, encoding="utf-8")] *)
Definition write_text (p : path) (data : string) : M unit :=
  let* f := open_wb (path_str p) in
  write_at f data.

Definition loads (text : string) : M pyval :=
  match json_loads text with
  | Some v => ret v
  | None => raise ValueError
  end.

Definition load_recycle_index : M pyval :=
  try_except
    (let* text := read_text RECYCLE_INDEX in
     loads text)
    (λ _, ret (PDict [])).

Definition save_recycle_index (idx : pyval) : M unit :=
  try_except
    (write_text RECYCLE_INDEX (json_dumps idx))
    (λ _, ret tt).

(** [{"orig": orig, "type": kind, "saved": saved}] *)
Definition entry (orig kind : string) (saved : pyval) : pyval :=
  PDict [("orig", PStr orig); ("type", PStr kind); ("saved", saved)].

(** [now] is [int(time.time())]. *)
Definition recycle_key (now : Z) (path : string) : string :=
  let name := if decide (basename path = "") then "unknown"
              else basename path in
  let timestamp := now in
  pretty timestamp +:+ "_" +:+ name.

Definition os_isfile (p : string) : M bool := λ w, (w, Ok (isfile w p)).
(** [os.path.abspath]: a path that is not absolute is joined to
    [os.getcwd()], which raises when the working directory is gone. *)
Definition os_abspath (p : string) : M string :=
  if isabs p then λ w, (w, Ok (abspath w p))
  else run getcwd then λ w, (w, Ok (abspath w p)).

(** The [with] block that copies the bytes of [src] to [dst]. *)
Definition copy_bytes (src dst : string) : M unit :=
  let* s := open_rb src in
  let* d := open_wb dst in
  let* data := read_at s in
  write_at d data.

Definition move_to_recycle (path : string) (now : Z) : M string :=
  let* idx := load_recycle_index in
  let key := recycle_key now path in
  let target := joinpath RECYCLE_DIR key in
  let* idx :=
    try_except
      (let* isf := os_isfile path in
       if isf then
         run copy_bytes path (path_str target) then
         run try_except (remove path) (λ _, ret tt) then
         let* orig := os_abspath path in
         lift (py_setitem idx key
                 (entry orig "file" (PStr (path_str target))))
       else
         let* orig := os_abspath path in
         lift (py_setitem idx key (entry orig "unknown" PNone)))
      (λ _,
         let* orig := os_abspath path in
         lift (py_setitem idx key (entry orig "error" PNone))) in
  run save_recycle_index idx then
  ret key.

(** The second component of the pair [restore_from_recycle] returns. *)
Inductive message :=
| Literal (s : string)
| StrOf (e : exn).

(** Lines 200-205: the copy of the archived bytes to the destination. *)
Definition restore_copy (e : pyval) (target_path : option string)
  : M unit :=
  let* s := lift (py_get e "saved") in
  if py_truthy s then
    let* saved := lift (py_getitem e "saved") in
    let* saved := lift (py_Path saved) in
    let* dest :=
      match target_path with
      | Some t =>
          if bool_decide (t = "") then
            let* o := lift (py_getitem e "orig") in lift (py_Path o)
          else ret (Path t)
      | None =>
          let* o := lift (py_getitem e "orig") in lift (py_Path o)
      end in
    run mkdir_p (parent dest) then
    copy_bytes (path_str saved) (path_str dest)
  else ret tt.

(** Lines 207-211 and 222-226: the best-effort removal of the archived
    copy. *)
Definition unlink_saved (e : pyval) : M unit :=
  let* s := lift (py_get e "saved") in
  if py_truthy s then
    try_except
      (let* saved := lift (py_getitem e "saved") in
       let* saved := lift (py_Path saved) in
       remove (path_str saved))
      (λ _, ret tt)
  else ret tt.

Definition restore_from_recycle (key : string)
  (target_path : option string) : M (bool * message) :=
  let* idx := load_recycle_index in
  let* found := lift (py_contains idx key) in
  if negb found then ret (false, Literal "Not found")
  else
    let* e := lift (py_getitem idx key) in
    try_except
      (run restore_copy e target_path then
       run unlink_saved e then
       let* idx := lift (py_pop idx key) in
       run save_recycle_index idx then
       ret (true, Literal "Restored"))
      (λ err, ret (false, StrOf err)).

(** [for k, v in items: body v] *)
Fixpoint for_each (items : list (string * pyval))
  (body : pyval → M unit) : M unit :=
  match items with
  | [] => ret tt
  | (_, v) :: rest => run body v then for_each rest body
  end.

Definition empty_recycle : M bool :=
  let* idx := load_recycle_index in
  let* items := lift (py_items idx) in
  run for_each items unlink_saved then
  run save_recycle_index (PDict []) then
  ret true.

(** Lines 94-96: what the module does when it is loaded. *)
Definition module_init : M unit :=
  run mkdir_p RECYCLE_DIR then
  λ w, if path_exists w (path_str RECYCLE_INDEX) then (w, Ok tt)
       else write_text RECYCLE_INDEX (json_dumps (PDict [])) w.

(** ** Notions the claims are stated with *)

(** Where the archive directory, the index document and the archived
    copy of a key are in the tree. *)
Definition archive_loc (w : world) : loc :=
  "recycle_bin" :: "CinnaOS" :: "D:" :: cwd w.
Definition index_loc (w : world) : loc := "index.json" :: archive_loc w.
Definition slot_loc (w : world) (key : string) : loc := key :: archive_loc w.

Definition index_str : string := path_str RECYCLE_INDEX.
Definition slot_str (key : string) : string :=
  path_str (joinpath RECYCLE_DIR key).

(** The archive directory is there and the index document can be
    written. *)
Definition store_ready (w : world) : Prop :=
  is_dir (nodes w) (archive_loc w) = true ∧
  nodes w !! index_loc w ≠ Some Dir.

#[global] Instance store_ready_dec w : Decision (store_ready w).
Proof. unfold store_ready. apply _. Defined.

(** The bytes of the regular file that a path names. *)
Definition file_content (w : world) (p : string) : option string :=
  match resolve w p with
  | Ok l =>
      match node_at (nodes w) l with
      | Some (File t) => Some t
      | _ => None
      end
  | Raise _ => None
  end.

(** The text of the index document, when it can be read. *)
Definition index_text (w : world) : option string :=
  file_content w (path_str RECYCLE_INDEX).

(** A sequence of moves, each with its time stamp. *)
Fixpoint move_all (items : list (string * Z)) : M unit :=
  match items with
  | [] => ret tt
  | (path, now) :: rest =>
      run move_to_recycle path now then move_all rest
  end.

(** An entry as [move_to_recycle] writes it: without a saved path, or
    with the path of an archived copy. *)
Definition archived (v : pyval) : Prop :=
  ∃ orig kind saved,
    v = entry orig kind saved ∧
    (saved = PNone ∨
     ∃ key, plain_name key = true ∧ key ≠ "index.json"
            ∧ saved = PStr (slot_str key)).

(** ** Notions the proofs are made with *)

(** What [load_recycle_index] returns. *)
Definition index_doc (w : world) : pyval :=
  match resolve w index_str with
  | Ok l =>
      match node_at (nodes w) l with
      | Some (File t) =>
          match json_loads t with
          | Some v => v
          | None => PDict []
          end
      | _ => PDict []
      end
  | Raise _ => PDict []
  end.

(** The world after [save_recycle_index idx]. *)
Definition saved_world (w : world) (idx : pyval) : world :=
  match resolve w index_str with
  | Ok l =>
      match node_at (nodes w) l with
      | Some Dir => w
      | _ => with_nodes w (<[l := File (json_dumps idx)]> (nodes w))
      end
  | Raise _ => w
  end.

(** The [try] block of [move_to_recycle]: the world it leaves and the
    entry it records. *)
Definition archive_item (path key : string) (w : world) : world * pyval :=
  let orig := abspath w path in
  if isfile w path then
    match copy_bytes path (slot_str key) w with
    | (w1, Ok _) =>
        ((try_except (remove path) (λ _, ret tt) w1).1,
         entry orig "file" (PStr (slot_str key)))
    | (w1, Raise _) => (w1, entry orig "error" PNone)
    end
  else (w, entry orig "unknown" PNone).

(** The same working directory and the same directories. *)
Definition same_dirs (w w' : world) : Prop :=
  cwd w' = cwd w ∧
  ∀ x, nodes w' !! x = Some Dir ↔ nodes w !! x = Some Dir.

(** Nothing was removed or overwritten. *)
Definition extends (w w1 : world) : Prop :=
  nodes w ⊆ nodes w1 ∧ cwd w1 = cwd w.

(** No regular file appeared. *)
Definition files_shrink (w w1 : world) : Prop :=
  ∀ x b, nodes w1 !! x = Some (File b) → nodes w !! x = Some (File b).

End Store.

(** * More of the program

    The callers of the store in the windows of the desktop, and the
    helpers of the module. *)

(** A mapping, as opposed to any other value. *)
Definition is_mapping (v : pyval) : bool :=
  match v with
  | PDict _ => true
  | _ => false
  end.

(** ** Notions the further proofs are made with *)

(** What [module_init] does once the archive directory is there. *)
Section Init.
Context `{JsonCodec}.

Definition init_index (w : world) : world * result unit :=
  if path_exists w (path_str RECYCLE_INDEX) then (w, Ok tt)
  else write_text RECYCLE_INDEX (json_dumps (PDict [])) w.

End Init.

(** Nothing but directories was added. *)
Definition only_adds_dirs (w w1 : world) : Prop :=
  cwd w1 = cwd w ∧
  ∀ x, nodes w1 !! x = nodes w !! x ∨
       (nodes w !! x = None ∧ nodes w1 !! x = Some Dir).

(** ** Message boxes *)

(** A message box that a handler opens, with its title and its text. *)
Inductive dialog :=
| showinfo (title : string) (text : message)
| showerror (title : string) (text : message).

(** ** The Recycle Bin window (lines 659-690) *)

(** The characters between the blanks of a row, as the source file has
    them (in UTF-8). *)
Definition dash : string :=
  String "195" (String "162" (String "226" (String "130" (String "172"
    (String "226" (String "128" (String "157" ""))))))).

Definition row_sep : string := " " +:+ dash +:+ " ".

(** [s.split(sep)[0]] for a separator that is not empty: what comes
    before the first occurrence of [sep]. *)
Fixpoint split_first (sep s : string) : string :=
  if String.prefix sep s then ""
  else match s with
       | EmptyString => ""
       | String c s' => String c (split_first sep s')
       end.

(** [listbox.get(listbox.curselection())]: Tk accepts a selection of
    one index and gives the empty string for an index without a row;
    [None] when it raises. *)
Definition listbox_get (rows : list string) (cursel : list nat)
  : option string :=
  match cursel with
  | [i] => Some (default "" (rows !! i))
  | _ => None
  end.

Module RecycleBinApp.
Section App.
Context `{JsonCodec}.
(** [str(v)] for a list or a mapping *)
Variable repr : pyval → string.

(** [str(v)], as an f-string formats a value *)
Definition py_str (v : pyval) : string :=
  match v with
  | PNone => "None"
  | PBool true => "True"
  | PBool false => "False"
  | PInt z => pretty z
  | PStr s => s
  | _ => repr v
  end.

(** The window: the file system it works on, the rows of its list box
    and the message boxes it has opened. *)
Record self := Self {
  world_of : world;
  listbox : list string;
  dialogs : list dialog
}.

Definition with_world (s : self) (w : world) : self :=
  Self w (listbox s) (dialogs s).
Definition insert_end (s : self) (row : string) : self :=
  Self (world_of s) (listbox s ++ [row]) (dialogs s).
Definition delete_all (s : self) : self :=
  Self (world_of s) [] (dialogs s).
Definition show (s : self) (d : dialog) : self :=
  Self (world_of s) (listbox s) (dialogs s ++ [d]).

(** The loop of [refresh]. *)
Fixpoint insert_rows (items : list (string * pyval)) (s : self)
  : self * result unit :=
  match items with
  | [] => (s, Ok tt)
  | (k, v) :: rest =>
      match py_get v "orig" with
      | Ok o => insert_rows rest (insert_end s (k +:+ row_sep +:+ py_str o))
      | Raise e => (s, Raise e)
      end
  end.

Definition refresh (s : self) : self * result unit :=
  let s := delete_all s in
  match load_recycle_index (world_of s) with
  | (w, Raise e) => (with_world s w, Raise e)
  | (w, Ok idx) =>
      match py_items idx with
      | Raise e => (with_world s w, Raise e)
      | Ok items => insert_rows items (with_world s w)
      end
  end.

(** [yes] is the answer to the question the handler asks. *)
Definition empty_bin (yes : bool) (s : self) : self * result unit :=
  if yes then
    match empty_recycle (world_of s) with
    | (w, Raise e) => (with_world s w, Raise e)
    | (w, Ok _) =>
        match refresh (with_world s w) with
        | (s, Raise e) => (s, Raise e)
        | (s, Ok _) =>
            (show s (showinfo "Empty" (Literal "Recycle Bin emptied.")),
             Ok tt)
        end
    end
  else (s, Ok tt).

Definition restore_selected (cursel : list nat) (s : self)
  : self * result unit :=
  match listbox_get (listbox s) cursel with
  | None =>
      (show s (showinfo "Select" (Literal "Select an item first.")), Ok tt)
  | Some sel =>
      let key := split_first row_sep sel in
      match restore_from_recycle key None (world_of s) with
      | (w, Raise e) => (with_world s w, Raise e)
      | (w, Ok (ok, msg)) =>
          if ok : bool then
            refresh (show (with_world s w)
                       (showinfo "Restore" (Literal "Restored.")))
          else (show (with_world s w) (showerror "Restore" msg), Ok tt)
      end
  end.

(** The row of an entry. *)
Definition row_text (kv : string * pyval) : string :=
  fst kv +:+ row_sep +:+
  py_str (match snd kv with
          | PDict d => default PNone (dict_get d "orig")
          | _ => PNone
          end).

End App.
End RecycleBinApp.

(** ** The desktop *)

Section Desktop.
Context `{JsonCodec}.


End Desktop.

(** Lines 366-373.  [now] is [int(time.time())]. *)
Definition _create_new_folder (now : Z) : M dialog :=
  let name := "NewFolder_" +:+ pretty now in
  let* here := getcwd in
  let p := joinpath (Path here) name in
  try_except
    (run mkdir_exist_ok p then
     ret (showinfo "New Folder" (Literal ("Created " +:+ path_str p))))
    (λ e, ret (showerror "Error" (StrOf e))).

(** *** The icons (lines 322-346) *)

Definition WINDOW_H : Z := 768.

(** The loop of [_create_icons]: every frame with the place it is put
    at, and the name of its icon. *)
Fixpoint place_icons (names : list string) (x y : Z)
  : list ((Z * Z) * string) :=
  match names with
  | [] => []
  | name :: rest =>
      let y' := y + 100 in
      ((x, y), name) ::
      (if bool_decide (y' > WINDOW_H - 200) then place_icons rest (x + 110) 20
       else place_icons rest x y')
  end.

Definition icon_names : list string :=
  ["My Computer"; "File Explorer"; "Notepad"; "Paint"; "Calculator";
   "Control Panel"; "Task Manager"; "Recycle Bin"].

(** The value of [desktop_icons] after [_create_icons]. *)
Definition _create_icons : list ((Z * Z) * string) :=
  place_icons icon_names 20 20.

(** The side of the frame of an icon. *)
Definition icon_side : Z := 96.

(** *** The task bar (lines 405-421) *)

Module CinnaDesktop.
Section Taskbar.
(** The windows a task button can raise. *)
Variable window : Type.

(** [task_buttons], and the buttons in [taskframe] with their text and
    the window they raise. *)
Record self := Self {
  task_buttons : list (string * window);
  taskframe : list (string * window)
}.

Definition add_task_button (title : string) (winref : window) (s : self)
  : self :=
  if existsb (λ tr, bool_decide (tr.1 = title)) (task_buttons s) then s
  else Self (task_buttons s ++ [(title, winref)])
            (taskframe s ++ [(title, winref)]).

(** The first loop of [remove_task_button]. *)
Fixpoint pop_title (title : string) (l : list (string * window))
  : list (string * window) :=
  match l with
  | [] => []
  | (t, ref) :: l' =>
      if decide (t = title) then l' else (t, ref) :: pop_title title l'
  end.

Definition remove_task_button (title : string) (s : self) : self :=
  let buttons := pop_title title (task_buttons s) in
  Self buttons buttons.

(** The window that the button of a title raises. *)
Definition button_of (title : string) (s : self) : option window :=
  snd <$> List.find (λ tr, bool_decide (tr.1 = title)) (taskframe s).

(** List and frame agree, with one button for a title. *)
Definition consistent (s : self) : Prop :=
  taskframe s = task_buttons s ∧ NoDup (map fst (task_buttons s)).

End Taskbar.
End CinnaDesktop.

(** ** The network status (lines 128-148) *)

(** What [psutil.net_if_stats] tells of an interface, as far as it is
    used. *)
Record snicstats := Snicstats {
  isup : bool;
  speed : Z
}.

Section Ethernet.
(** [str.lower] *)
Variable lower : string → string.

(** The first loop. *)
Fixpoint wired (stats : list (string * snicstats)) : option string :=
  match stats with
  | [] => None
  | (name, st) :: rest =>
      if negb (isup st) then wired rest
      else
        let lname := lower name in
        if String.prefix "lo" lname || substring_of "loop" lname
        then wired rest
        else if existsb (λ x, substring_of x lname) ["eth"; "ethernet"; "en"]
        then Some name
        else if negb (speed st =? 0) && (speed st >? 0) then Some name
        else wired rest
  end.

(** The second loop. *)
Fixpoint fallback (stats : list (string * snicstats)) : option string :=
  match stats with
  | [] => None
  | (name, st) :: rest =>
      if isup st && negb (String.prefix "lo" (lower name)) then Some name
      else fallback rest
  end.

(** [stats] is what [psutil.net_if_stats()] gives: a mapping, in its
    order, or an exception. *)
Definition is_ethernet_connected (stats : result (list (string * snicstats)))
  : bool * option string :=
  match stats with
  | Raise _ => (false, None)
  | Ok stats =>
      match wired stats with
      | Some name => (true, Some name)
      | None =>
          match fallback stats with
          | Some name => (true, Some name)
          | None => (false, None)
          end
      end
  end.

(** The text that [_update_status] gives the label (line 425). *)
Definition eth_label (stats : result (list (string * snicstats))) : string :=
  let '(eth, name) := is_ethernet_connected stats in
  "Ethernet: " +:+ (if eth then "Yes (" +:+ default "" name +:+ ")"
                    else "No").

End Ethernet.

(** [str.lower] on text in ASCII, where the examples are run. *)
Definition lower_char (c : ascii) : ascii :=
  let n := nat_of_ascii c in
  if (65 <=? n)%nat && (n <=? 90)%nat then ascii_of_nat (n + 32) else c.

Fixpoint lower_ascii (s : string) : string :=
  match s with
  | EmptyString => ""
  | String c s' => String (lower_char c) (lower_ascii s')
  end.

(** ** The File Explorer window (lines 600-626) *)

(** [p[:p.rfind('/') + 1]] *)
Fixpoint upto_last_slash (p : string) : string :=
  match p with
  | EmptyString => ""
  | String c p' =>
      let r := upto_last_slash p' in
      if bool_decide (c = slash) then String c r
      else if bool_decide (r = "") then "" else String c r
  end.

Fixpoint all_slashes (s : string) : bool :=
  match s with
  | EmptyString => true
  | String c s' => bool_decide (c = slash) && all_slashes s'
  end.

(** [s.rstrip('/')] *)
Fixpoint rstrip_slashes (s : string) : string :=
  match s with
  | EmptyString => ""
  | String c s' =>
      let r := rstrip_slashes s' in
      if bool_decide (c = slash) && bool_decide (r = "") then ""
      else String c r
  end.

(** [os.path.dirname] *)
Definition dirname (p : string) : string :=
  let head := upto_last_slash p in
  if negb (bool_decide (head = "")) && negb (all_slashes head)
  then rstrip_slashes head
  else head.

(** [s.endswith('/')] *)
Fixpoint ends_with_slash (s : string) : bool :=
  match s with
  | EmptyString => false
  | String c EmptyString => bool_decide (c = slash)
  | String _ s' => ends_with_slash s'
  end.

(** [os.path.join(a, b)] *)
Definition path_join (a b : string) : string :=
  if isabs b then b
  else if bool_decide (a = "") || ends_with_slash a then a +:+ b
  else a +:+ "/" +:+ b.

(** The names in a directory. *)
Definition children (m : gmap loc node) (l : loc) : list string :=
  omap (λ kn : loc * node,
          match kn.1 with
          | c :: up => if decide (up = l) then Some c else None
          | [] => None
          end) (map_to_list m).

(** [os.listdir]; the order of the names is that of the file system,
    here that of the map. *)
Definition listdir (p : string) : M (list string) := λ w,
  match resolve w p with
  | Raise e => (w, Raise e)
  | Ok l =>
      if is_dir (nodes w) l then (w, Ok (children (nodes w) l))
      else (w, Raise (OSError (enter_error (nodes w) l)))
  end.

Module FileExplorerApp.

(** The window: the path in its entry, the rows of its list box, the
    message boxes it has opened and the files it has handed to the
    system to open. *)
Record self := Self {
  path_var : string;
  listbox : list string;
  dialogs : list dialog;
  started : list string
}.

Definition refresh (w : world) (s : self) : self :=
  let p := path_var s in
  match listdir p w with
  | (_, Ok items) => Self p (".." :: items) (dialogs s) (started s)
  | (_, Raise e) =>
      Self p (listbox s) (dialogs s ++ [showerror "Error" (StrOf e)])
        (started s)
  end.

(** [sel] is the row that is selected.  A file is handed to the system;
    what the system makes of it is not part of the model. *)
Definition open_item (w : world) (sel : string) (s : self) : self :=
  let p := path_var s in
  if bool_decide (sel = "..") then
    let parent := dirname p in
    refresh w
      (Self (if bool_decide (parent = "") then "/" else parent)
         (listbox s) (dialogs s) (started s))
  else
    let new := path_join p sel in
    if path_is_dir w new then
      refresh w (Self new (listbox s) (dialogs s) (started s))
    else Self p (listbox s) (dialogs s) (started s ++ [new]).

End FileExplorerApp.

(** The path after the row [..] was opened. *)
Definition go_up (p : string) : string :=
  let parent := dirname p in
  if bool_decide (parent = "") then "/" else parent.

(** ** Sizes in words (lines 120-125) *)

(** [a / b] to the nearest integer, a tie to the even one ([0 < b]). *)
Definition round_half_even (a b : Z) : Z :=
  let q := a / b in
  let r := a `mod` b in
  if 2 * r <? b then q
  else if b <? 2 * r then q + 1
  else if Z.even q then q else q + 1.

(** [float(n)] for an [int]: the nearest number with 53 significant
    bits, a tie to the even one; [None] when it raises [OverflowError].
    The float of an [int] is a whole number. *)
Definition float_of_int (n : Z) : option Z :=
  let a := Z.abs n in
  let e := Z.log2 a - 52 in
  let r := if e <=? 0 then a else round_half_even a (2 ^ e) * 2 ^ e in
  if 2 ^ 1024 <=? r then None else Some (Z.sgn n * r).

(** [f"{x:.1f}"] for the float [x = m / d], where [d] is a power of
    two: the decimal expansion of a float is exact, and the digit is
    rounded to the nearest, a tie to the even one.  (A width of 3 is
    always reached.) *)
Definition fixed1 (m d : Z) : string :=
  let t := round_half_even (10 * Z.abs m) d in
  (if m <? 0 then "-" else "") +:+
  pretty (t / 10) +:+ "." +:+ pretty (t `mod` 10).

(** The loop from the second unit on: the value is the float [m / d]. *)
Fixpoint format_loop (units : list string) (m d : Z) : string :=
  match units with
  | [] => fixed1 m d +:+ "PB"
  | unit :: rest =>
      if m <? 1024 * d then fixed1 m d +:+ unit
      else format_loop rest m (1024 * d)
  end.

(** [n] is an [int], as the callers pass; [None] stands for
    [OverflowError]. *)
Definition format_bytes (n : Z) : option string :=
  if n <? 1024 then
    f ← float_of_int n; Some (fixed1 f 1 +:+ "B")
  else
    f ← float_of_int n; Some (format_loop ["KB"; "MB"; "GB"; "TB"] f 1024).

(** * Concrete stores

    Explicit worlds at which the claims are run.  The working directory
    is the root, so that the archive directory is
    [/D:/CinnaOS/recycle_bin]. *)

Definition archive_dirs : list (loc * node) :=
  [(["D:"], Dir); (["CinnaOS"; "D:"], Dir);
   (["recycle_bin"; "CinnaOS"; "D:"], Dir); (["tmp"], Dir)].

Definition index_at : loc := ["index.json"; "recycle_bin"; "CinnaOS"; "D:"].

(** A store with the index text [text] and a file [/tmp/a.txt]. *)
Definition store_with (text : string) : world :=
  World (list_to_map
           ((index_at, File text) :: ([ "a.txt"; "tmp"], File "hi")
            :: archive_dirs)) [].

(** The store as the module leaves it when it is first loaded. *)
Definition fresh_store : world := store_with "{}".

(** A store whose index holds an entry, the archived copy of which is
    gone. *)
Definition lost_entry : pyval :=
  entry "/tmp/b.txt" "file" (PStr "D:/CinnaOS/recycle_bin/5_b.txt").
Definition lost_store : world :=
  store_with (dumps (PDict [("5_b.txt", lost_entry)])).

(** A store where a directory stands where the archived copy of
    [/tmp/a.txt] at time 1700 goes. *)
Definition blocked_store : world :=
  World (list_to_map
           ((index_at, File "{}") :: ([ "a.txt"; "tmp"], File "hi")
            :: (["1700_a.txt"; "recycle_bin"; "CinnaOS"; "D:"], Dir)
            :: archive_dirs)) [].

(** The store after [/tmp/a.txt] was moved at time 1700. *)
Definition moved_entry : pyval :=
  entry "/tmp/a.txt" "file" (PStr "D:/CinnaOS/recycle_bin/1700_a.txt").
Definition moved_store : world :=
  World (list_to_map
           ((index_at, File (dumps (PDict [("1700_a.txt", moved_entry)])))
            :: (["1700_a.txt"; "recycle_bin"; "CinnaOS"; "D:"], File "hi")
            :: archive_dirs)) [].

(** The store after the directory [/tmp] was moved at time 1699, the
    file [/tmp/a.txt] at time 1700 and the directory again at time
    1701. *)
Definition listed_index : list (string * pyval) :=
  [("1699_tmp", entry "/tmp" "unknown" PNone);
   ("1700_a.txt", moved_entry);
   ("1701_tmp", entry "/tmp" "unknown" PNone)].
Definition listed_store : world :=
  World (list_to_map
           ((index_at, File (dumps (PDict listed_index)))
            :: (["1700_a.txt"; "recycle_bin"; "CinnaOS"; "D:"], File "hi")
            :: archive_dirs)) [].

(** A world without a store. *)
Definition bare_world : world :=
  World (list_to_map [(["tmp"], Dir); (["a.txt"; "tmp"], File "hi")]) [].

(** A world whose working directory has been removed. *)
Definition adrift_world : world :=
  World (list_to_map [(["tmp"], Dir); (["a.txt"; "tmp"], File "hi")])
        ["gone"].

(** * Proofs *)

(** ** Strings *)

Lemma sapp_cons c s t : String c s +:+ t = String c (s +:+ t).
Proof. reflexivity. Qed.

Lemma sapp_nil_l t : "" +:+ t = t.
Proof. reflexivity. Qed.

Lemma sapp_nil_r s : s +:+ "" = s.
Proof. induction s as [|c s IH]; [done|]. by rewrite sapp_cons, IH. Qed.

Lemma sapp_assoc s t u : (s +:+ t) +:+ u = s +:+ t +:+ u.
Proof.
  induction s as [|c s IH]; [done|]. by rewrite !sapp_cons, IH.
Qed.

Lemma sapp_length s t :
  String.length (s +:+ t) = (String.length s + String.length t)%nat.
Proof.
  induction s as [|c s IH]; [done|]. rewrite sapp_cons. simpl. by rewrite IH.
Qed.

Ltac snorm :=
  repeat (rewrite sapp_assoc || rewrite sapp_cons || rewrite sapp_nil_l).

(** ** The codec: what is printed is read back *)

Lemma scan_escape c r :
  scan_string (escape c +:+ r) = cons_char c (scan_string r).
Proof. destruct c as [[] [] [] [] [] [] [] []]; reflexivity. Qed.

Lemma scan_escape_all s rest :
  scan_string (escape_all s +:+ String dquote rest) = Some (s, rest).
Proof.
  induction s as [|c s IH]; [done|].
  simpl escape_all. rewrite sapp_assoc, scan_escape, IH. done.
Qed.

Lemma pretty_char_digit d :
  (d < 10)%N →
  is_digit (pretty_N_char d) = true ∧ digit_value (pretty_N_char d) = d.
Proof.
  intros Hd.
  assert (d = 0 ∨ d = 1 ∨ d = 2 ∨ d = 3 ∨ d = 4 ∨ d = 5 ∨ d = 6 ∨ d = 7
          ∨ d = 8 ∨ d = 9)%N as Hc by lia.
  destruct_or!; subst d; done.
Qed.

Lemma pretty_char_nonzero d :
  (0 < d < 10)%N → (N_of_ascii (pretty_N_char d) =? 48)%N = false.
Proof.
  intros Hd.
  assert (d = 1 ∨ d = 2 ∨ d = 3 ∨ d = 4 ∨ d = 5 ∨ d = 6 ∨ d = 7
          ∨ d = 8 ∨ d = 9)%N as Hc by lia.
  destruct_or!; subst d; done.
Qed.

Lemma scan_nat_pretty x :
  (0 < x)%N → ∀ t, scan_nat (pretty_N_go x t) = Some (scan_digits x t).
Proof.
  induction (N.lt_wf_0 x) as [x _ IH]; intros Hx t.
  rewrite pretty_N_go_step by done.
  assert (x `mod` 10 < 10)%N as Hm by (apply N.mod_lt; lia).
  destruct (pretty_char_digit _ Hm) as [Hdig Hval].
  destruct (decide (x `div` 10 = 0)%N) as [Hz|Hnz].
  - rewrite Hz, pretty_N_go_0.
    assert (x `mod` 10 = x)%N as Hx' by (apply N.mod_small, N.div_small_iff; lia).
    unfold scan_nat. rewrite pretty_char_nonzero by lia.
    rewrite Hdig, Hval, Hx'. done.
  - rewrite IH by first [by apply N.neq_0_lt_0 | apply N.div_lt; lia].
    simpl scan_digits. rewrite Hdig, Hval. do 2 f_equal.
    rewrite (N.div_mod x 10) at 3 by done. lia.
Qed.

Lemma pretty_go_app x s t :
  pretty_N_go x s +:+ t = pretty_N_go x (s +:+ t).
Proof.
  revert s. induction (N.lt_wf_0 x) as [x _ IH]; intros s.
  destruct (decide (x = 0)%N) as [->|Hx]; [done|].
  rewrite (pretty_N_go_step x s), (pretty_N_go_step x (s +:+ t)) by lia.
  rewrite IH by (apply N.div_lt; lia). reflexivity.
Qed.

Lemma scan_digits_stop x rest :
  int_follow rest = true → scan_digits x rest = (x, rest).
Proof.
  destruct rest as [|c r]; [done|]. simpl.
  intros [Hd _]%andb_prop. apply negb_true_iff in Hd. by rewrite Hd.
Qed.

Lemma int_follow_float rest : int_follow rest = true → float_tail rest = false.
Proof.
  destruct rest as [|c r]; [done|]. simpl.
  intros [_ Hd]%andb_prop. by apply negb_true_iff in Hd.
Qed.

Lemma scan_nat_pos p rest :
  int_follow rest = true →
  scan_nat (pretty p +:+ rest) = Some (Npos p, rest).
Proof.
  intros Hr. unfold pretty, pretty_positive, pretty, pretty_N.
  rewrite decide_False by done.
  rewrite pretty_go_app, sapp_nil_l, scan_nat_pretty by lia.
  by rewrite scan_digits_stop.
Qed.

Lemma scan_nat_head s n r :
  scan_nat s = Some (n, r) →
  ∃ c s', s = String c s' ∧ is_digit c = true.
Proof.
  destruct s as [|c s']; [done|]. simpl. intros Hs. exists c, s'. split; [done|].
  destruct (N_of_ascii c =? 48)%N eqn:E.
  - apply N.eqb_eq in E. unfold is_digit. rewrite E. done.
  - by destruct (is_digit c).
Qed.

Lemma scan_int_pretty z rest :
  int_follow rest = true →
  scan_int (pretty z +:+ rest) = Some (z, rest).
Proof.
  intros Hr. pose proof (int_follow_float _ Hr) as Hf.
  destruct z as [|p|p]; unfold pretty at 1, pretty_Z.
  - change ("0" +:+ rest) with (String "0" rest). unfold scan_int, scan_nat.
    change (N_of_ascii "0" =? 45)%N with false.
    change (N_of_ascii "0" =? 48)%N with true. cbv iota. by rewrite Hf.
  - pose proof (scan_nat_pos p rest Hr) as Hs.
    destruct (scan_nat_head _ _ _ Hs) as (c & s' & Hcs & Hd).
    rewrite Hcs in *. unfold scan_int.
    destruct (N_of_ascii c =? 45)%N eqn:E.
    { apply N.eqb_eq in E. unfold is_digit in Hd. rewrite E in Hd. done. }
    rewrite Hs, Hf. done.
  - snorm. unfold scan_int.
    change (N_of_ascii "-" =? 45)%N with true. cbv iota.
    rewrite scan_nat_pos, Hf by done. done.
Qed.

Lemma value_head_inv s :
  value_head s = true →
  ∃ c r, s = String c r ∧ is_ws c = false
         ∧ (N_of_ascii c =? 93)%N = false ∧ (N_of_ascii c =? 125)%N = false.
Proof.
  destruct s as [|c r]; [done|]. simpl.
  intros [[H1 H2]%andb_prop H3]%andb_prop.
  exists c, r. by rewrite <- !negb_true_iff.
Qed.

Lemma skip_ws_head s : value_head s = true → skip_ws s = s.
Proof.
  intros (c & r & -> & Hws & _)%value_head_inv. simpl. by rewrite Hws.
Qed.

Lemma digit_head c r : is_digit c = true → value_head (String c r) = true.
Proof.
  unfold is_digit, value_head, is_ws.
  intros [H1%N.leb_le H2%N.leb_le]%andb_prop.
  repeat match goal with
         | |- context [(?a =? ?b)%N] =>
             destruct (N.eqb_spec a b); [lia|]
         end.
  done.
Qed.

Lemma pretty_head (z : Z) rest : value_head (pretty z +:+ rest) = true.
Proof.
  destruct z as [|p|p]; unfold pretty, pretty_Z; [done| |done].
  unfold pretty, pretty_positive, pretty, pretty_N.
  rewrite decide_False by done. rewrite pretty_go_app.
  pose proof (scan_nat_pretty (Npos p) eq_refl ("" +:+ rest)) as Hs.
  destruct (scan_digits _ _) as [n r] in Hs.
  apply scan_nat_head in Hs as (c & s' & -> & Hd). by apply digit_head.
Qed.

Lemma dumps_head v rest : value_head (dumps v +:+ rest) = true.
Proof.
  destruct v as [|[]|z|s|l|d]; try done. apply pretty_head.
Qed.

Lemma sep_join_cons x l :
  l ≠ [] → sep_join (x :: l) = x +:+ ", " +:+ sep_join l.
Proof. by destruct l. Qed.

Lemma sep_join_head f (l : list pyval) rest :
  (∀ v r, value_head (f v +:+ r) = true) →
  l ≠ [] → value_head (sep_join (map f l) +:+ rest) = true.
Proof.
  intros Hf Hl. destruct l as [|x l]; [done|].
  destruct l as [|y l]; [apply Hf|].
  change (map f (x :: y :: l)) with (f x :: map f (y :: l)).
  rewrite sep_join_cons by done. rewrite sapp_assoc. apply Hf.
Qed.

Lemma members_head (d : list (string * pyval)) rest :
  d ≠ [] → value_head (sep_join (map member d) +:+ rest) = true.
Proof.
  intros Hd. destruct d as [|x d]; [done|].
  destruct d as [|y d]; [done|].
  change (map member (x :: y :: d)) with (member x :: map member (y :: d)).
  rewrite sep_join_cons by done. done.
Qed.

Lemma scan_int_head s z r :
  scan_int s = Some (z, r) →
  ∃ c s', s = String c s' ∧ (is_digit c = true ∨ N_of_ascii c = 45%N).
Proof.
  destruct s as [|c s']; [done|]. unfold scan_int.
  destruct (N.eqb_spec (N_of_ascii c) 45) as [E|E]; [by eauto|].
  destruct (scan_nat (String c s')) as [[n r']|] eqn:Hs; [|done].
  apply scan_nat_head in Hs as (c' & s'' & [= <- <-] & Hd). eauto.
Qed.

Lemma parse_value_int n s z r :
  scan_int s = Some (z, r) → parse_value (S n) s = Some (PInt z, r).
Proof.
  intros Hs. destruct (scan_int_head _ _ _ Hs) as (c & s' & -> & Hc).
  cbn [parse_value]. rewrite Hs.
  assert (N_of_ascii c = 45 ∨ 48 ≤ N_of_ascii c ≤ 57)%N as Hr.
  { destruct Hc as [Hc| ->]; [|lia]. right. unfold is_digit in Hc.
    apply andb_prop in Hc as [H1%N.leb_le H2%N.leb_le]. lia. }
  repeat match goal with
         | |- context [(?a =? ?b)%N] =>
             destruct (N.eqb_spec a b); [lia|]
         end.
  done.
Qed.

Lemma dict_set_fresh d k v :
  k ∉ map fst d → dict_set d k v = (d ++ [(k, v)])%list.
Proof.
  induction d as [|[k' v'] d IH]; [done|]. simpl. intros Hk.
  apply not_elem_of_cons in Hk as [Hne Hk].
  rewrite decide_False by done. by rewrite IH.
Qed.

Lemma dict_of_pairs_nodup d :
  NoDup (map fst d) → dict_of_pairs d = d.
Proof.
  unfold dict_of_pairs.
  enough (∀ acc, NoDup (map fst (acc ++ d)%list) →
    fold_left (λ d kv, dict_set d (fst kv) (snd kv)) d acc = (acc ++ d)%list)
    as Hgen by (intros; by apply (Hgen [])).
  induction d as [|[k v] d IH]; intros acc Hnd; simpl.
  { by rewrite app_nil_r. }
  rewrite dict_set_fresh.
  - rewrite IH; rewrite <- app_assoc; done.
  - rewrite map_app in Hnd. apply NoDup_app in Hnd as (_ & Hd & _).
    intros Hin. apply (Hd k Hin). simpl. left.
Qed.

Lemma parse_value_str n r :
  parse_value (S n) (String dquote r) =
  match scan_string r with
  | Some (str, r') => Some (PStr str, r')
  | None => None
  end.
Proof. reflexivity. Qed.

Lemma parse_value_list n r :
  parse_value (S n) (String "[" r) =
  match skip_ws r with
  | String c1 r1 =>
      if (N_of_ascii c1 =? 93)%N then Some (PList [], r1)
      else match parse_elems n (String c1 r1) with
           | Some (vs, r') => Some (PList vs, r')
           | None => None
           end
  | EmptyString => None
  end.
Proof. reflexivity. Qed.

Lemma parse_value_dict n r :
  parse_value (S n) (String "{" r) =
  match skip_ws r with
  | String c1 r1 =>
      if (N_of_ascii c1 =? 125)%N then Some (PDict [], r1)
      else match parse_members n (String c1 r1) with
           | Some (ms, r') => Some (PDict (dict_of_pairs ms), r')
           | None => None
           end
  | EmptyString => None
  end.
Proof. reflexivity. Qed.

Lemma parse_elems_S n s :
  parse_elems (S n) s =
  match parse_value n s with
  | Some (v, r) =>
      match skip_ws r with
      | String c r1 =>
          if (N_of_ascii c =? 44)%N then
            match parse_elems n (skip_ws r1) with
            | Some (vs, r') => Some (v :: vs, r')
            | None => None
            end
          else if (N_of_ascii c =? 93)%N then Some ([v], r1)
          else None
      | EmptyString => None
      end
  | None => None
  end.
Proof. reflexivity. Qed.

Lemma parse_members_S n r :
  parse_members (S n) (String dquote r) =
  match scan_string r with
  | Some (key, r1) =>
      match skip_ws r1 with
      | String c r2 =>
          if (N_of_ascii c =? 58)%N then
            match parse_value n (skip_ws r2) with
            | Some (v, r3) =>
                match skip_ws r3 with
                | String c' r4 =>
                    if (N_of_ascii c' =? 44)%N then
                      match parse_members n (skip_ws r4) with
                      | Some (ms, r') => Some ((key, v) :: ms, r')
                      | None => None
                      end
                    else if (N_of_ascii c' =? 125)%N
                         then Some ([(key, v)], r4)
                    else None
                | EmptyString => None
                end
            | None => None
            end
          else None
      | EmptyString => None
      end
  | None => None
  end.
Proof. reflexivity. Qed.

Lemma dumps_list l :
  dumps (PList l) = "[" +:+ sep_join (map dumps l) +:+ "]".
Proof. reflexivity. Qed.

Lemma dumps_dict d :
  dumps (PDict d) = "{" +:+ sep_join (map member d) +:+ "}".
Proof. reflexivity. Qed.

Lemma skip_space s : skip_ws (String " " s) = skip_ws s.
Proof. reflexivity. Qed.

Lemma parse_dumps n :
  (∀ v rest,
     val_wf v = true → (String.length (dumps v) < n)%nat →
     int_follow rest = true →
     parse_value n (dumps v +:+ rest) = Some (v, rest)) ∧
  (∀ l rest,
     l ≠ [] → forallb val_wf l = true →
     (String.length (sep_join (map dumps l)) + 1 < n)%nat →
     parse_elems n (sep_join (map dumps l) +:+ String "]" rest)
     = Some (l, rest)) ∧
  (∀ d rest,
     d ≠ [] → forallb (λ kv, val_wf (snd kv)) d = true →
     (String.length (sep_join (map member d)) + 1 < n)%nat →
     parse_members n (sep_join (map member d) +:+ String "}" rest)
     = Some (d, rest)).
Proof.
  induction n as [|n (IHv & IHe & IHm)].
  { repeat split; intros; lia. }
  split; [|split].
  - intros v rest Hwf Hlen Hrest.
    destruct v as [|[]|z|s|l|d]; try reflexivity.
    + apply parse_value_int. by apply scan_int_pretty.
    + unfold dumps, quote. snorm.
      by rewrite parse_value_str, scan_escape_all.
    + rewrite dumps_list in *. snorm. rewrite parse_value_list.
      destruct (decide (l = [])) as [->|Hl]; [done|].
      rewrite !sapp_length in Hlen. simpl in Hlen.
      pose proof (IHe l rest Hl Hwf ltac:(lia)) as Hp.
      pose proof (sep_join_head dumps l (String "]" rest) dumps_head Hl)
        as Hh.
      rewrite skip_ws_head by done.
      destruct (value_head_inv _ Hh) as (c & r & Hs & _ & H93 & _).
      rewrite Hs in *. by rewrite H93, Hp.
    + rewrite dumps_dict in *. snorm. rewrite parse_value_dict.
      destruct (decide (d = [])) as [->|Hd]; [done|].
      rewrite !sapp_length in Hlen. simpl in Hlen.
      simpl in Hwf. apply andb_prop in Hwf as [Hnd%bool_decide_eq_true Hwf].
      pose proof (IHm d rest Hd Hwf ltac:(lia)) as Hp.
      pose proof (members_head d (String "}" rest) Hd) as Hh.
      rewrite skip_ws_head by done.
      destruct (value_head_inv _ Hh) as (c & r & Hs & _ & _ & H125).
      rewrite Hs in *. rewrite H125, Hp. by rewrite dict_of_pairs_nodup.
  - intros l rest Hl Hwf Hlen. destruct l as [|x l]; [done|].
    simpl in Hwf. apply andb_prop in Hwf as [Hx Hwf].
    rewrite parse_elems_S.
    destruct (decide (l = [])) as [->|Hl'].
    + simpl in *. rewrite IHv by (done || lia). reflexivity.
    + change (map dumps (x :: l)) with (dumps x :: map dumps l) in *.
      rewrite sep_join_cons in * by by destruct l.
      rewrite !sapp_length in Hlen. simpl in Hlen. snorm.
      rewrite IHv by (done || lia).
      change (skip_ws (String "," ?s)) with (String "," s).
      change (N_of_ascii "," =? 44)%N with true. cbv iota.
      rewrite skip_space, skip_ws_head
        by (apply sep_join_head; [apply dumps_head|done]).
      by rewrite IHe by (done || lia).
  - intros d rest Hd Hwf Hlen. destruct d as [|[k v] d]; [done|].
    simpl in Hwf. apply andb_prop in Hwf as [Hx Hwf].
    assert (∀ tail, int_follow tail = true →
      (String.length (dumps v) < n)%nat →
      parse_members (S n) (member (k, v) +:+ tail) =
      match skip_ws tail with
      | String c' r4 =>
          if (N_of_ascii c' =? 44)%N then
            match parse_members n (skip_ws r4) with
            | Some (ms, r') => Some ((k, v) :: ms, r')
            | None => None
            end
          else if (N_of_ascii c' =? 125)%N then Some ([(k, v)], r4)
          else None
      | EmptyString => None
      end) as Hone.
    { intros tail Ht Hl. unfold member, quote. simpl fst. simpl snd. snorm.
      rewrite parse_members_S, scan_escape_all.
      change (skip_ws (String ":" ?s)) with (String ":" s).
      change (N_of_ascii ":" =? 58)%N with true. cbv iota.
      rewrite skip_space, skip_ws_head by apply dumps_head.
      by rewrite IHv. }
    destruct (decide (d = [])) as [->|Hd'].
    + simpl map in *. simpl sep_join in *.
      unfold member in Hlen. rewrite !sapp_length in Hlen. simpl in Hlen.
      rewrite Hone by (done || lia). reflexivity.
    + change (map member ((k, v) :: d)) with (member (k, v) :: map member d)
        in *.
      rewrite sep_join_cons in * by by destruct d.
      unfold member at 1 in Hlen. rewrite !sapp_length in Hlen.
      simpl in Hlen. rewrite sapp_assoc.
      rewrite Hone by (done || lia).
      rewrite !sapp_cons, sapp_nil_l.
      change (skip_ws (String "," ?s)) with (String "," s).
      change (N_of_ascii "," =? 44)%N with true. cbv iota.
      rewrite skip_space, skip_ws_head by by apply members_head.
      by rewrite IHm by (done || lia).
Qed.

Lemma mini_loads_dumps v : val_wf v = true → mini_loads (dumps v) = Some v.
Proof.
  intros Hwf. unfold mini_loads.
  pose proof (dumps_head v "") as Hh. rewrite sapp_nil_r in Hh.
  rewrite skip_ws_head by done.
  destruct (parse_dumps (S (String.length (dumps v)))) as (Hv & _ & _).
  specialize (Hv v "" Hwf ltac:(lia) eq_refl). rewrite sapp_nil_r in Hv.
  by rewrite Hv.
Qed.

(** ** The codec: what is read is a well-formed value *)

Lemma dict_set_keys d k v :
  map fst (dict_set d k v) = map fst d ∨
  ((k ∉ map fst d) ∧ map fst (dict_set d k v) = (map fst d ++ [k])%list).
Proof.
  induction d as [|[k' v'] d IH]; simpl.
  { right. split; [apply not_elem_of_nil|done]. }
  destruct (decide (k' = k)) as [->|Hne]; [by left|].
  simpl. destruct IH as [->|[Hk ->]]; [by left|].
  right. split; [|done]. by apply not_elem_of_cons.
Qed.

Lemma dict_set_nodup d k v :
  NoDup (map fst d) → NoDup (map fst (dict_set d k v)).
Proof.
  intros Hnd. destruct (dict_set_keys d k v) as [->|[Hk ->]]; [done|].
  apply NoDup_app. split_and!; [done| |apply NoDup_singleton].
  intros x Hx ->%list_elem_of_singleton. done.
Qed.

Lemma dict_set_forallb (P : string * pyval → bool) d k v :
  forallb P d = true → P (k, v) = true →
  forallb P (dict_set d k v) = true.
Proof.
  intros Hd Hkv. induction d as [|[k' v'] d IH]; simpl in *.
  { by rewrite Hkv. }
  apply andb_prop in Hd as [H1 H2].
  destruct (decide (k' = k)); simpl; [by rewrite Hkv|].
  by rewrite H1, IH.
Qed.

Lemma dict_of_pairs_wf ms :
  forallb (λ kv, val_wf (snd kv)) ms = true →
  val_wf (PDict (dict_of_pairs ms)) = true.
Proof.
  unfold dict_of_pairs. intros Hms.
  enough (∀ acc, val_wf (PDict acc) = true →
    val_wf (PDict (fold_left (λ d kv, dict_set d (fst kv) (snd kv)) ms acc))
    = true) as Hgen by by apply Hgen.
  induction ms as [|[k v] ms IH]; intros acc Hacc; [done|].
  simpl in Hms. apply andb_prop in Hms as [Hv Hms].
  simpl fold_left. apply IH; [done|].
  simpl in Hacc |- *.
  apply andb_prop in Hacc as [Hnd%bool_decide_eq_true Hall].
  apply andb_true_intro. split.
  - apply bool_decide_eq_true. by apply dict_set_nodup.
  - by apply dict_set_forallb.
Qed.

Lemma parse_wf n :
  (∀ s v r, parse_value n s = Some (v, r) → val_wf v = true) ∧
  (∀ s l r, parse_elems n s = Some (l, r) → forallb val_wf l = true) ∧
  (∀ s d r, parse_members n s = Some (d, r) →
            forallb (λ kv, val_wf (snd kv)) d = true).
Proof.
  induction n as [|n (IHv & IHe & IHm)]; [done|].
  split; [|split].
  - intros s v r Hp. cbn [parse_value] in Hp.
    repeat case_match; simplify_eq; try done.
    + simpl. eauto.
    + apply dict_of_pairs_wf. eauto.
  - intros s l r Hp. rewrite parse_elems_S in Hp.
    repeat case_match; simplify_eq; simpl.
    + apply andb_true_intro. eauto.
    + rewrite andb_true_r. eauto.
  - intros s d r Hp. cbn [parse_members] in Hp.
    repeat case_match; simplify_eq; simpl.
    + apply andb_true_intro. eauto.
    + rewrite andb_true_r. eauto.
Qed.

Lemma mini_loads_wf t v : mini_loads t = Some v → val_wf v = true.
Proof.
  unfold mini_loads. intros Hl. repeat case_match; simplify_eq.
  by eapply parse_wf.
Qed.

(** [json.dumps] and the parser of the fragment, as a codec. *)
#[export] Instance mini_json : JsonCodec := {|
  json_loads := mini_loads;
  json_dumps := dumps;
  loads_wf := mini_loads_wf;
  loads_dumps := mini_loads_dumps
|}.

(** ** Path strings *)

Lemma split_nonempty p : split p ≠ [].
Proof. destruct p as [|c p]; simpl; [done|]. by repeat case_match. Qed.

Lemma split_no_slash s : no_slash s = true → split s = [s].
Proof.
  induction s as [|c s IH]; [done|]. simpl.
  intros [Hc Hs]%andb_prop. apply negb_true_iff, bool_decide_eq_false in Hc.
  rewrite decide_False by done. by rewrite IH.
Qed.

Lemma split_app_slash c s :
  no_slash c = true → split (c +:+ String slash s) = c :: split s.
Proof.
  induction c as [|a c IH]; [done|]. rewrite sapp_cons. simpl.
  intros [Ha Hc]%andb_prop. apply negb_true_iff, bool_decide_eq_false in Ha.
  rewrite decide_False by done. by rewrite IH.
Qed.

Lemma split_join cs :
  cs ≠ [] → forallb no_slash cs = true → split (join cs) = cs.
Proof.
  induction cs as [|c cs IH]; [done|]. intros _ [Hc Hcs]%andb_prop.
  destruct cs as [|c' cs].
  - simpl. by apply split_no_slash.
  - change (join (c :: c' :: cs)) with (c +:+ String slash (join (c' :: cs))).
    rewrite split_app_slash by done. by rewrite IH.
Qed.

Lemma split_all_no_slash p : forallb no_slash (split p) = true.
Proof.
  induction p as [|c p IH]; [done|]. simpl.
  destruct (decide (c = slash)) as [->|Hc]; [done|].
  destruct (split p) as [|h t] eqn:Hs; [by destruct (split_nonempty p)|].
  simpl in *. rewrite bool_decide_eq_false_2 by done. done.
Qed.

Lemma basename_no_slash p : no_slash (basename p) = true.
Proof.
  unfold basename. pose proof (split_all_no_slash p) as Hall.
  pose proof (split_nonempty p) as Hne.
  induction (split p) as [|c cs IH]; [done|].
  simpl in Hall. apply andb_prop in Hall as [Hc Hcs].
  destruct cs as [|c' cs]; [done|]. by apply IH.
Qed.

Lemma no_slash_app s t :
  no_slash (s +:+ t) = no_slash s && no_slash t.
Proof.
  induction s as [|c s IH]; [done|]. rewrite sapp_cons. simpl.
  by rewrite IH, andb_assoc.
Qed.

Lemma no_slash_pretty_go x s :
  no_slash (pretty_N_go x s) = no_slash s.
Proof.
  revert s. induction (N.lt_wf_0 x) as [x _ IH]; intros s.
  destruct (decide (x = 0)%N) as [->|Hx]; [done|].
  rewrite pretty_N_go_step by lia. rewrite IH by (apply N.div_lt; lia).
  simpl. assert (x `mod` 10 < 10)%N as Hm by (apply N.mod_lt; lia).
  generalize dependent (x `mod` 10)%N. intros m Hm.
  assert (m = 0 ∨ m = 1 ∨ m = 2 ∨ m = 3 ∨ m = 4 ∨ m = 5 ∨ m = 6 ∨ m = 7
          ∨ m = 8 ∨ m = 9)%N as Hc by lia.
  destruct_or!; subst m; done.
Qed.

Lemma no_slash_pretty (z : Z) : no_slash (pretty z) = true.
Proof.
  destruct z as [|p|p]; unfold pretty, pretty_Z; [done| |];
    unfold pretty, pretty_positive, pretty, pretty_N;
    rewrite decide_False by done; [|rewrite sapp_cons, sapp_nil_l; simpl];
    by rewrite no_slash_pretty_go.
Qed.

Lemma has_underscore_app s t :
  has_underscore (s +:+ String "_" t) = true.
Proof.
  induction s as [|c s IH]; [done|]. rewrite sapp_cons. simpl.
  by rewrite IH, orb_true_r.
Qed.

Lemma recycle_key_no_slash now path : no_slash (recycle_key now path) = true.
Proof.
  unfold recycle_key. rewrite !no_slash_app, no_slash_pretty. simpl.
  case_decide; [done|]. apply basename_no_slash.
Qed.

Lemma recycle_key_underscore now path :
  has_underscore (recycle_key now path) = true.
Proof. apply has_underscore_app. Qed.

Lemma recycle_key_plain now path : plain_name (recycle_key now path) = true.
Proof.
  unfold plain_name. rewrite recycle_key_no_slash.
  pose proof (recycle_key_underscore now path) as Hu.
  repeat (rewrite bool_decide_eq_false_2; [|intros E; by rewrite E in Hu]).
  done.
Qed.

Lemma recycle_key_not_index now path : recycle_key now path ≠ "index.json".
Proof.
  pose proof (recycle_key_underscore now path) as Hu.
  intros E. by rewrite E in Hu.
Qed.

(** ** The file system *)

Lemma is_dir_tail m l : is_dir m l = true → is_dir m (tail l) = true.
Proof. destruct l as [|c up]; [done|]. simpl. by repeat case_match. Qed.

Lemma is_dir_node m l : is_dir m l = true → node_at m l = Some Dir.
Proof. destruct l as [|c up]; [done|]. simpl. by repeat case_match. Qed.

Lemma is_dir_cons m c up :
  is_dir m (c :: up) = true ↔ m !! (c :: up) = Some Dir ∧ is_dir m up = true.
Proof.
  simpl. split.
  - by repeat case_match.
  - by intros [-> ->].
Qed.

Lemma is_dir_app m l1 l2 :
  is_dir m (l1 ++ l2)%list = true → is_dir m l2 = true.
Proof.
  induction l1 as [|c l1 IH]; [done|].
  rewrite <- app_comm_cons, is_dir_cons. intros [_ ?]. by apply IH.
Qed.

Lemma is_dir_insert_file m l d x :
  m !! l ≠ Some Dir → is_dir (<[l := File d]> m) x = is_dir m x.
Proof.
  intros Hl. induction x as [|c up IH]; [done|]. simpl.
  destruct (decide (l = c :: up)) as [->|Hne].
  - rewrite lookup_insert_eq. by repeat case_match.
  - rewrite lookup_insert_ne by done. by rewrite IH.
Qed.

Lemma is_dir_delete_file m l x :
  m !! l ≠ Some Dir → is_dir (delete l m) x = is_dir m x.
Proof.
  intros Hl. induction x as [|c up IH]; [done|]. simpl.
  destruct (decide (l = c :: up)) as [->|Hne].
  - rewrite lookup_delete_eq. by repeat case_match.
  - rewrite lookup_delete_ne by done. by rewrite IH.
Qed.

Lemma is_dir_mono m m' x :
  m ⊆ m' → is_dir m x = true → is_dir m' x = true.
Proof.
  intros Hsub. induction x as [|c up IH]; [done|].
  rewrite !is_dir_cons. intros [Hc Hup]. split; [|by apply IH].
  by eapply lookup_weaken.
Qed.

Lemma walk_transfer m m' cur cs l :
  (∀ x, is_dir m x = true → is_dir m' x = true) →
  walk m cur cs = Ok l → walk m' cur cs = Ok l.
Proof.
  intros Hd. revert cur. induction cs as [|c cs IH]; intros cur; [done|].
  simpl. destruct (is_dir m cur) eqn:E; [|done].
  rewrite (Hd _ E). apply IH.
Qed.

Lemma walk_lexical m cur cs l :
  walk m cur cs = Ok l → l = fold_left step cs cur.
Proof.
  revert cur. induction cs as [|c cs IH]; intros cur; simpl.
  - by intros [= ->].
  - destruct (is_dir m cur); [apply IH|done].
Qed.

Lemma walk_app m cur cs1 cs2 :
  walk m cur (cs1 ++ cs2) =
  match walk m cur cs1 with
  | Ok c => walk m c cs2
  | Raise e => Raise e
  end.
Proof.
  revert cur. induction cs1 as [|c cs1 IH]; intros cur; [done|].
  simpl. destruct (is_dir m cur); [apply IH|done].
Qed.

(** A path that leads to a regular file ends with the name of the file,
    in a directory. *)
Lemma walk_file m cur cs l b :
  cs ≠ [] → walk m cur cs = Ok l → node_at m l = Some (File b) →
  ∃ up, l = List.last cs "" :: up ∧ is_dir m up = true
        ∧ List.last cs "" ≠ "" ∧ List.last cs "" ≠ "."
        ∧ List.last cs "" ≠ "..".
Proof.
  intros Hne Hw Hn.
  destruct (exists_last Hne) as (init & c & ->).
  rewrite last_last. rewrite walk_app in Hw.
  destruct (walk m cur init) as [cur'|] eqn:Hi; [|done].
  simpl in Hw. destruct (is_dir m cur') eqn:Hd; [|done].
  injection Hw as <-. unfold step in *.
  destruct (decide (c = "" ∨ c = ".")) as [Hc|Hc].
  { apply is_dir_node in Hd. congruence. }
  destruct (decide (c = "..")) as [Hc'|Hc'].
  { apply is_dir_tail, is_dir_node in Hd. congruence. }
  exists cur'. split_and!; [done|done|..]; naive_solver.
Qed.

Lemma resolve_file w p l b :
  resolve w p = Ok l → node_at (nodes w) l = Some (File b) →
  l = basename p :: tail l ∧ is_dir (nodes w) (tail l) = true
  ∧ basename p ≠ "" ∧ basename p ≠ "." ∧ basename p ≠ "..".
Proof.
  unfold resolve. case_decide; [done|]. intros Hw Hn.
  destruct (walk_file _ _ _ _ _ (split_nonempty p) Hw Hn)
    as (up & -> & Hup & H1 & H2 & H3).
  unfold basename. by split_and!.
Qed.

Lemma step_plain cur c :
  forallb plain_name cur = true → no_slash c = true →
  forallb plain_name (step cur c) = true.
Proof.
  intros Hcur Hc. unfold step. repeat case_decide; [done| |].
  - destruct cur; [done|]. simpl in Hcur. by apply andb_prop in Hcur as [_ ?].
  - simpl. rewrite Hcur, andb_true_r. unfold plain_name. rewrite Hc.
    rewrite !bool_decide_eq_false_2 by naive_solver. done.
Qed.

Lemma fold_step_plain cs cur :
  forallb plain_name cur = true → forallb no_slash cs = true →
  forallb plain_name (fold_left step cs cur) = true.
Proof.
  revert cur. induction cs as [|c cs IH]; intros cur Hcur Hcs; [done|].
  simpl in *. apply andb_prop in Hcs as [Hc Hcs].
  apply IH; [|done]. by apply step_plain.
Qed.

Lemma step_plain_name cur c : plain_name c = true → step cur c = c :: cur.
Proof.
  unfold plain_name, step.
  intros [[[_ H1]%andb_prop H2]%andb_prop H3]%andb_prop.
  apply negb_true_iff, bool_decide_eq_false in H1, H2, H3.
  rewrite decide_False by (by intros [?|?]). by rewrite decide_False.
Qed.

(** Walking down plain names, when the directories are there. *)
Lemma walk_names m names cur :
  forallb plain_name names = true →
  is_dir m (tail (reverse names ++ cur)%list) = true →
  names ≠ [] →
  walk m cur names = Ok (reverse names ++ cur)%list.
Proof.
  revert cur. induction names as [|c names IH]; intros cur Hp Hd Hne; [done|].
  simpl in Hp. apply andb_prop in Hp as [Hc Hp].
  rewrite reverse_cons, <- app_assoc in *.
  change ([c] ++ cur)%list with (c :: cur) in *.
  assert (is_dir m cur = true) as Hcur.
  { destruct (reverse names) as [|x xs]; [done|].
    simpl in Hd. by apply is_dir_app, is_dir_tail in Hd. }
  simpl walk. rewrite Hcur, step_plain_name by done.
  destruct names as [|c' names]; [done|].
  by apply IH.
Qed.

(** ** The store *)

Section StoreProofs.
Context `{JsonCodec}.

Lemma node_at_lookup m l n :
  node_at m l = Some (File n) → m !! l = Some (File n).
Proof. by destruct l. Qed.

Lemma node_at_ne m l : l ≠ [] → node_at m l = m !! l.
Proof. by destruct l. Qed.

Lemma node_at_insert m l n x :
  l ≠ [] → node_at (<[l := n]> m) x =
           if decide (l = x) then Some n else node_at m x.
Proof.
  intros Hl. destruct x as [|c up]; simpl.
  - by rewrite decide_False.
  - case_decide as E; [by rewrite E, lookup_insert_eq|].
    by rewrite lookup_insert_ne.
Qed.

Lemma load_spec w : load_recycle_index w = (w, Ok (index_doc w)).
Proof.
  unfold load_recycle_index, index_doc, read_text, try_except, bind,
    open_rb, read_at, loads, ret, raise. fold index_str.
  destruct (resolve w index_str) as [l|e]; [|done].
  destruct (node_at (nodes w) l) as [[t|]|] eqn:Hn; [|done..].
  rewrite (node_at_lookup _ _ _ Hn).
  by destruct (json_loads t).
Qed.

Lemma with_nodes_twice w m1 m2 :
  with_nodes (with_nodes w m1) m2 = with_nodes w m2.
Proof. reflexivity. Qed.

Lemma with_nodes_same w : with_nodes w (nodes w) = w.
Proof. by destruct w. Qed.

Lemma save_spec idx w :
  save_recycle_index idx w = (saved_world w idx, Ok tt).
Proof.
  unfold save_recycle_index, saved_world, write_text, try_except, bind,
    open_wb, write_at, ret. fold index_str.
  destruct (resolve w index_str) as [l|e]; [|done].
  destruct (node_at (nodes w) l) as [[t|]|] eqn:Hn; [|done|];
    simpl; by rewrite with_nodes_twice, insert_insert_eq.
Qed.

Lemma resolve_with_nodes w m p l :
  (∀ x, is_dir (nodes w) x = true → is_dir m x = true) →
  resolve w p = Ok l → resolve (with_nodes w m) p = Ok l.
Proof.
  unfold resolve. intros Hd. case_decide; [done|]. simpl.
  by apply walk_transfer.
Qed.

Lemma resolve_index w :
  resolve w index_str =
  if is_dir (nodes w) (archive_loc w) then Ok (index_loc w)
  else match resolve w index_str with
       | Ok l => Raise (OSError ENOENT)
       | Raise e => Raise e
       end.
Proof.
  unfold resolve, index_str, archive_loc, index_loc.
  change (path_str RECYCLE_INDEX) with "D:/CinnaOS/recycle_bin/index.json".
  rewrite decide_False by done.
  change (isabs _) with false. cbv iota.
  change (split _) with ["D:"; "CinnaOS"; "recycle_bin"; "index.json"].
  cbn [walk]. change (step ?c "D:") with ("D:" :: c).
  change (step ?c "CinnaOS") with ("CinnaOS" :: c).
  change (step ?c "recycle_bin") with ("recycle_bin" :: c).
  change (step ?c "index.json") with ("index.json" :: c).
  destruct (is_dir (nodes w) ("recycle_bin" :: "CinnaOS" :: "D:" :: cwd w))
    eqn:Hd.
  - pose proof (is_dir_tail _ _ Hd) as Hd1. simpl tail in Hd1.
    pose proof (is_dir_tail _ _ Hd1) as Hd2. simpl tail in Hd2.
    pose proof (is_dir_tail _ _ Hd2) as Hd3. simpl tail in Hd3.
    by rewrite Hd3, Hd2, Hd1.
  - by repeat case_match.
Qed.

Lemma resolve_index_ready w :
  is_dir (nodes w) (archive_loc w) = true →
  resolve w index_str = Ok (index_loc w).
Proof. intros Hd. by rewrite resolve_index, Hd. Qed.

Lemma resolve_index_inv w l :
  resolve w index_str = Ok l →
  l = index_loc w ∧ is_dir (nodes w) (archive_loc w) = true.
Proof.
  rewrite resolve_index.
  destruct (is_dir (nodes w) (archive_loc w)); [by intros [= <-]|].
  by repeat case_match.
Qed.

Lemma index_doc_ready w :
  is_dir (nodes w) (archive_loc w) = true →
  index_doc w =
  match nodes w !! index_loc w with
  | Some (File t) =>
      match json_loads t with
      | Some v => v
      | None => PDict []
      end
  | _ => PDict []
  end.
Proof. intros Hd. unfold index_doc. by rewrite resolve_index_ready. Qed.

Lemma saved_world_ready w idx :
  store_ready w →
  saved_world w idx =
  with_nodes w (<[index_loc w := File (json_dumps idx)]> (nodes w)).
Proof.
  intros [Hd Hi]. unfold saved_world. rewrite resolve_index_ready by done.
  simpl. by repeat case_match.
Qed.

Lemma index_doc_wf w : val_wf (index_doc w) = true.
Proof.
  unfold index_doc. repeat case_match; try done. by eapply loads_wf.
Qed.

(** The primitives keep the working directory. *)
Lemma abspath_cwd w w' p : cwd w = cwd w' → abspath w p = abspath w' p.
Proof. unfold abspath. by intros ->. Qed.

Lemma copy_bytes_cwd src dst w : cwd (copy_bytes src dst w).1 = cwd w.
Proof.
  unfold copy_bytes, bind, open_rb, open_wb, read_at, write_at.
  repeat case_match; simplify_eq; done.
Qed.

Lemma remove_cwd p w : cwd (remove p w).1 = cwd w.
Proof. unfold remove. repeat case_match; simplify_eq; done. Qed.

(** The world of a computation that only reads. *)
Lemma restore_missing key tp w d :
  index_doc w = PDict d → dict_get d key = None →
  restore_from_recycle key tp w = (w, Ok (false, Literal "Not found")).
Proof.
  intros Hd Hk. unfold restore_from_recycle, bind at 1.
  rewrite load_spec, Hd. unfold bind, lift, ret. simpl.
  rewrite Hk. by rewrite bool_decide_eq_false_2 by by intros [].
Qed.

Lemma restore_spec key tp w d e :
  index_doc w = PDict d → dict_get d key = Some e →
  restore_from_recycle key tp w =
  match restore_copy e tp w with
  | (w1, Raise err) => (w1, Ok (false, StrOf err))
  | (w1, Ok _) =>
      match unlink_saved e w1 with
      | (w2, Raise err) => (w2, Ok (false, StrOf err))
      | (w2, Ok _) =>
          (saved_world w2 (PDict (dict_del d key)),
           Ok (true, Literal "Restored"))
      end
  end.
Proof.
  intros Hd Hk. unfold restore_from_recycle, bind at 1.
  rewrite load_spec, Hd. unfold bind at 1, lift at 1. simpl.
  rewrite Hk. rewrite bool_decide_eq_true_2 by done. simpl.
  unfold bind at 1, lift at 1.
  unfold try_except, bind at 1.
  destruct (restore_copy e tp w) as [w1 [[]|err]]; [|done].
  unfold bind at 1.
  destruct (unlink_saved e w1) as [w2 [[]|err]]; [|done].
  unfold bind, lift, ret. simpl. by rewrite save_spec.
Qed.

Lemma empty_spec w d :
  index_doc w = PDict d →
  empty_recycle w =
  match for_each d unlink_saved w with
  | (w1, Ok _) => (saved_world w1 (PDict []), Ok true)
  | (w1, Raise err) => (w1, Raise err)
  end.
Proof.
  intros Hd. unfold empty_recycle, bind at 1. rewrite load_spec, Hd.
  unfold bind at 1, lift at 1. simpl. unfold bind at 1.
  destruct (for_each d unlink_saved w) as [w1 [[]|err]]; [|done].
  unfold bind, ret. by rewrite save_spec.
Qed.

Lemma saved_world_written w idx l :
  resolve w index_str = Ok l → node_at (nodes w) l ≠ Some Dir →
  saved_world w idx =
  with_nodes w (<[l := File (json_dumps idx)]> (nodes w)).
Proof. intros Hr Hn. unfold saved_world. rewrite Hr. by repeat case_match. Qed.

Lemma saved_world_blocked w idx :
  (∀ l, resolve w index_str = Ok l → node_at (nodes w) l = Some Dir) →
  saved_world w idx = w ∧ index_doc w = PDict [].
Proof.
  intros Hb. unfold saved_world, index_doc.
  destruct (resolve w index_str) as [l|err]; [|done].
  by rewrite (Hb l eq_refl).
Qed.

Lemma resolve_written w l t p l' :
  node_at (nodes w) l ≠ Some Dir → resolve w p = Ok l' →
  resolve (with_nodes w (<[l := File t]> (nodes w))) p = Ok l'.
Proof.
  intros Hn Hr. apply resolve_with_nodes; [|done].
  intros x. rewrite is_dir_insert_file; [done|]. by destruct l.
Qed.

Lemma saved_world_cases w idx :
  (∃ l, resolve w index_str = Ok l ∧ node_at (nodes w) l ≠ Some Dir ∧ l ≠ []
        ∧ saved_world w idx
          = with_nodes w (<[l := File (json_dumps idx)]> (nodes w))) ∨
  (saved_world w idx = w ∧ index_doc w = PDict []).
Proof.
  destruct (resolve w index_str) as [l|err] eqn:Hr.
  - destruct (decide (node_at (nodes w) l = Some Dir)) as [Hn|Hn].
    + right. apply saved_world_blocked. intros l'. rewrite Hr. by intros [= <-].
    + left. exists l. split_and!; [done|done| |by apply saved_world_written].
      by intros ->.
  - right. apply saved_world_blocked. intros l'. by rewrite Hr.
Qed.

Lemma index_doc_saved w idx :
  val_wf idx = true →
  index_doc (saved_world w idx) = idx ∨
  (saved_world w idx = w ∧ index_doc w = PDict []).
Proof.
  intros Hwf.
  destruct (saved_world_cases w idx) as [(l & Hr & Hn & Hl & ->)|?];
    [left|by right].
  unfold index_doc. rewrite (resolve_written _ _ _ _ _ Hn Hr). simpl.
  rewrite node_at_insert, decide_True by done. by rewrite loads_dumps.
Qed.

Lemma saved_world_idem w idx :
  saved_world (saved_world w idx) idx = saved_world w idx.
Proof.
  destruct (saved_world_cases w idx) as [(l & Hr & Hn & Hl & ->)|[Hs _]].
  - rewrite (saved_world_written _ _ l).
    + simpl. by rewrite with_nodes_twice, insert_insert_eq.
    + by apply resolve_written.
    + simpl. by rewrite node_at_insert, decide_True.
  - by rewrite !Hs.
Qed.

Lemma empty_inv w w1 r :
  empty_recycle w = (w1, Ok r) →
  ∃ d w', index_doc w = PDict d ∧ for_each d unlink_saved w = (w', Ok tt)
          ∧ w1 = saved_world w' (PDict []) ∧ r = true.
Proof.
  destruct (index_doc w) as [|b|z|s|l|d] eqn:Hd;
    try (unfold empty_recycle, bind at 1; rewrite load_spec, Hd;
         unfold bind, lift; simpl; discriminate).
  rewrite (empty_spec _ _ Hd).
  destruct (for_each d unlink_saved w) as [w' [[]|err]] eqn:Hf; [|done].
  intros [= <- <-]. by exists d, w'.
Qed.

Lemma split_trailing_slash p : split (p +:+ "/") = (split p ++ [""])%list.
Proof.
  induction p as [|c p IH]; [done|].
  rewrite sapp_cons. simpl. rewrite IH.
  pose proof (split_nonempty p) as Hne.
  destruct (split p) as [|h t]; [done|]. by case_decide.
Qed.

Lemma basename_trailing_slash p : basename (p +:+ "/") = "".
Proof. unfold basename. by rewrite split_trailing_slash, last_last. Qed.

(** *** Archive paths *)

Lemma plain_name_inv c :
  plain_name c = true →
  no_slash c = true ∧ c ≠ "" ∧ c ≠ "." ∧ c ≠ "..".
Proof.
  unfold plain_name.
  intros [[[? H1]%andb_prop H2]%andb_prop H3]%andb_prop.
  apply negb_true_iff, bool_decide_eq_false in H1, H2, H3. done.
Qed.

Lemma plain_not_abs c : plain_name c = true → isabs c = false.
Proof.
  intros (Hs & Hne & _)%plain_name_inv. destruct c as [|a c]; [done|].
  simpl in *. apply andb_prop in Hs as [Ha _].
  by apply negb_true_iff in Ha.
Qed.

Lemma Path_plain c : plain_name c = true → Path c = MkPath false [c].
Proof.
  intros Hp. unfold Path. rewrite plain_not_abs by done.
  destruct (plain_name_inv _ Hp) as (Hs & Hne & Hdot & _).
  rewrite split_no_slash by done. f_equal.
  rewrite filter_cons, decide_True by done. done.
Qed.

Lemma slot_path key :
  plain_name key = true →
  joinpath RECYCLE_DIR key
  = MkPath false ["D:"; "CinnaOS"; "recycle_bin"; key].
Proof.
  intros Hp. unfold joinpath. by rewrite plain_not_abs, Path_plain.
Qed.

Lemma slot_str_eq key :
  plain_name key = true →
  slot_str key
  = "D:" +:+ String slash ("CinnaOS" +:+ String slash
      ("recycle_bin" +:+ String slash key)).
Proof. intros Hp. unfold slot_str. by rewrite slot_path. Qed.

Lemma slot_str_nonempty key : plain_name key = true → slot_str key ≠ "".
Proof. intros Hp. by rewrite slot_str_eq. Qed.

Lemma split_slot key :
  plain_name key = true →
  split (slot_str key) = ["D:"; "CinnaOS"; "recycle_bin"; key].
Proof.
  intros Hp. rewrite slot_str_eq by done.
  destruct (plain_name_inv _ Hp) as (Hs & _).
  rewrite !split_app_slash by done. by rewrite split_no_slash.
Qed.

Lemma Path_slot key :
  plain_name key = true → Path (slot_str key) = joinpath RECYCLE_DIR key.
Proof.
  intros Hp. rewrite slot_path by done. unfold Path.
  rewrite split_slot by done. f_equal.
  - by rewrite slot_str_eq.
  - destruct (plain_name_inv _ Hp) as (Hs & Hne & Hdot & _).
    rewrite !filter_cons. rewrite !decide_True by done. done.
Qed.

Lemma resolve_slot w key :
  plain_name key = true → is_dir (nodes w) (archive_loc w) = true →
  resolve w (slot_str key) = Ok (slot_loc w key).
Proof.
  intros Hp Hd. unfold resolve.
  rewrite decide_False by by apply slot_str_nonempty.
  rewrite split_slot by done.
  replace (isabs (slot_str key)) with false by by rewrite slot_str_eq.
  apply (walk_names _ ["D:"; "CinnaOS"; "recycle_bin"; key]); [|done|done].
  simpl. by rewrite Hp.
Qed.

Lemma resolve_slot_inv w key l :
  plain_name key = true → resolve w (slot_str key) = Ok l →
  l = slot_loc w key ∧ is_dir (nodes w) (archive_loc w) = true.
Proof.
  intros Hp. unfold resolve.
  rewrite decide_False by by apply slot_str_nonempty.
  rewrite split_slot by done.
  replace (isabs (slot_str key)) with false by by rewrite slot_str_eq.
  cbn [walk]. change (step ?c "D:") with ("D:" :: c).
  change (step ?c "CinnaOS") with ("CinnaOS" :: c).
  change (step ?c "recycle_bin") with ("recycle_bin" :: c).
  rewrite step_plain_name by done.
  repeat case_match; try done. by intros [= <-].
Qed.

(** *** Dictionaries *)

Lemma dict_get_set_eq d k v : dict_get (dict_set d k v) k = Some v.
Proof.
  induction d as [|[k' v'] d IH]; simpl.
  - by rewrite decide_True.
  - destruct (decide (k' = k)) as [->|Hne]; simpl.
    + by rewrite decide_True.
    + by rewrite decide_False.
Qed.

Lemma dict_get_set_ne d k k' v :
  k ≠ k' → dict_get (dict_set d k v) k' = dict_get d k'.
Proof.
  intros Hne. induction d as [|[k0 v0] d IH]; simpl.
  - by rewrite decide_False.
  - destruct (decide (k0 = k)) as [->|Hk]; simpl.
    + by rewrite !decide_False.
    + by rewrite IH.
Qed.

Lemma dict_set_set d k v v' :
  dict_set (dict_set d k v) k v' = dict_set d k v'.
Proof.
  induction d as [|[k0 v0] d IH]; simpl.
  - by rewrite decide_True.
  - destruct (decide (k0 = k)) as [->|Hk]; simpl.
    + by rewrite decide_True.
    + by rewrite decide_False, IH.
Qed.

Lemma dict_get_none d k : k ∉ map fst d → dict_get d k = None.
Proof.
  induction d as [|[k0 v0] d IH]; [done|]. simpl.
  intros [Hne Hk]%not_elem_of_cons. by rewrite decide_False, IH.
Qed.

Lemma dict_get_del_eq d k :
  NoDup (map fst d) → dict_get (dict_del d k) k = None.
Proof.
  induction d as [|[k0 v0] d IH]; [done|]. simpl.
  intros [Hk Hnd]%NoDup_cons.
  destruct (decide (k0 = k)) as [->|Hne]; simpl.
  - by apply dict_get_none.
  - by rewrite decide_False, IH.
Qed.

Lemma dict_get_del_ne d k k' :
  k ≠ k' → dict_get (dict_del d k) k' = dict_get d k'.
Proof.
  intros Hne. induction d as [|[k0 v0] d IH]; [done|]. simpl.
  destruct (decide (k0 = k)) as [->|Hk]; simpl.
  - by rewrite decide_False.
  - by rewrite IH.
Qed.

Lemma dict_set_wf d k v :
  val_wf (PDict d) = true → val_wf v = true →
  val_wf (PDict (dict_set d k v)) = true.
Proof.
  simpl. intros [Hnd%bool_decide_eq_true Hall]%andb_prop Hv.
  apply andb_true_intro. split.
  - apply bool_decide_eq_true. by apply dict_set_nodup.
  - by apply dict_set_forallb.
Qed.

Lemma dict_wf_nodup d : val_wf (PDict d) = true → NoDup (map fst d).
Proof. simpl. by intros [Hnd%bool_decide_eq_true _]%andb_prop. Qed.

Lemma dict_del_keys d k x :
  x ∈ map fst (dict_del d k) → x ∈ map fst d.
Proof.
  induction d as [|[k1 v1] d IH]; [done|]. simpl.
  destruct (decide (k1 = k)); simpl.
  - intros Hin. by right.
  - intros [->|Hin]%elem_of_cons; [left|right; by apply IH].
Qed.

Lemma dict_del_wf d k :
  val_wf (PDict d) = true → val_wf (PDict (dict_del d k)) = true.
Proof.
  induction d as [|[k0 v0] d IH]; [done|]. simpl.
  intros [[Hk Hnd]%bool_decide_eq_true%NoDup_cons [Hv Hall]%andb_prop]%andb_prop.
  destruct (decide (k0 = k)) as [->|Hne]; simpl.
  - apply andb_true_intro. split; [by apply bool_decide_eq_true|done].
  - assert (val_wf (PDict (dict_del d k)) = true) as Hd.
    { apply IH. simpl. apply andb_true_intro.
      split; [by apply bool_decide_eq_true|done]. }
    simpl in Hd. apply andb_prop in Hd as [Hnd'%bool_decide_eq_true Hall'].
    rewrite Hv, Hall'. rewrite bool_decide_eq_true_2; [done|].
    apply NoDup_cons. split; [|done].
    intros Hin. apply Hk. by eapply dict_del_keys.
Qed.

Lemma entry_wf o k s : val_wf s = true → val_wf (entry o k s) = true.
Proof.
  intros Hs. unfold entry. simpl. by rewrite Hs.
Qed.

(** *** Worlds with the same directories *)

Lemma same_dirs_refl w : same_dirs w w.
Proof. by split. Qed.

Lemma same_dirs_trans w1 w2 w3 :
  same_dirs w1 w2 → same_dirs w2 w3 → same_dirs w1 w3.
Proof.
  intros [Hc1 Hd1] [Hc2 Hd2]. split; [by rewrite Hc2|].
  intros x. by rewrite Hd2, Hd1.
Qed.

Lemma same_dirs_is_dir w w' x :
  same_dirs w w' → is_dir (nodes w') x = is_dir (nodes w) x.
Proof.
  intros [_ Hd]. induction x as [|c up IH]; [done|].
  apply Bool.eq_iff_eq_true. by rewrite !is_dir_cons, IH, Hd.
Qed.

Lemma same_dirs_resolve w w' p l :
  same_dirs w w' → resolve w p = Ok l → resolve w' p = Ok l.
Proof.
  intros Hs. unfold resolve. case_decide; [done|].
  rewrite (proj1 Hs). apply walk_transfer. intros x.
  by rewrite (same_dirs_is_dir w w').
Qed.

Lemma same_dirs_sym w w' : same_dirs w w' → same_dirs w' w.
Proof. intros [Hc Hd]. split; [done|]. intros x. by rewrite Hd. Qed.

Lemma same_dirs_ready w w' : same_dirs w w' → store_ready w → store_ready w'.
Proof.
  intros Hs [Hd Hi]. pose proof Hs as [Hc Hn].
  unfold store_ready, index_loc, archive_loc in *. rewrite Hc. split.
  - by rewrite (same_dirs_is_dir w w').
  - by rewrite Hn.
Qed.

Lemma same_dirs_insert_file w l t :
  nodes w !! l ≠ Some Dir →
  same_dirs w (with_nodes w (<[l := File t]> (nodes w))).
Proof.
  intros Hl. split; [done|]. intros x. simpl.
  destruct (decide (l = x)) as [->|Hne].
  - rewrite lookup_insert_eq. naive_solver.
  - by rewrite lookup_insert_ne.
Qed.

Lemma same_dirs_delete_file w l :
  nodes w !! l ≠ Some Dir →
  same_dirs w (with_nodes w (delete l (nodes w))).
Proof.
  intros Hl. split; [done|]. intros x. simpl.
  destruct (decide (l = x)) as [->|Hne].
  - rewrite lookup_delete_eq. naive_solver.
  - by rewrite lookup_delete_ne.
Qed.

Lemma same_dirs_saved w idx : same_dirs w (saved_world w idx).
Proof.
  destruct (saved_world_cases w idx) as [(l & Hr & Hn & Hl & ->)|[-> _]];
    [|apply same_dirs_refl].
  apply same_dirs_insert_file. by destruct l.
Qed.

(** *** What the primitives do to the world *)

Lemma node_at_not_dir m l :
  node_at m l ≠ Some Dir → l ≠ [] ∧ m !! l ≠ Some Dir.
Proof. by destruct l. Qed.

Lemma copy_bytes_cases src dst w w1 r :
  copy_bytes src dst w = (w1, r) →
  (w1 = w ∧ ∃ e, r = Raise e) ∨
  (∃ s l b,
     resolve w src = Ok s ∧ nodes w !! s = Some (File b) ∧
     resolve w dst = Ok l ∧ nodes w !! l ≠ Some Dir ∧ l ≠ [] ∧
     w1 = with_nodes w
            (<[l := File (if decide (s = l) then "" else b)]> (nodes w)) ∧
     r = Ok tt).
Proof.
  unfold copy_bytes, bind, open_rb, open_wb, read_at, write_at.
  destruct (resolve w src) as [s|e] eqn:Hs; [|intros [= <- <-]; eauto].
  destruct (node_at (nodes w) s) as [[b|]|] eqn:Hb;
    [|intros [= <- <-]; eauto..].
  apply node_at_lookup in Hb.
  destruct (resolve w dst) as [l|e] eqn:Hl; [|intros [= <- <-]; eauto].
  destruct (node_at (nodes w) l) as [[t|]|] eqn:Hn;
    [|intros [= <- <-]; eauto|].
  all: assert (l ≠ [] ∧ nodes w !! l ≠ Some Dir) as [Hne Hn']
    by (apply node_at_not_dir; by rewrite Hn).
  all: simpl; intros Heq; right; exists s, l, b.
  all: destruct (decide (s = l)) as [->|E];
    [rewrite lookup_insert_eq in Heq
    |rewrite lookup_insert_ne, Hb in Heq by done].
  all: simpl in Heq; rewrite insert_insert_eq in Heq.
  all: by injection Heq as <- <-.
Qed.

Lemma remove_cases p w w1 r :
  remove p w = (w1, r) →
  (w1 = w ∧ ∃ e, r = Raise e) ∨
  (∃ l b, resolve w p = Ok l ∧ nodes w !! l = Some (File b) ∧
          w1 = with_nodes w (delete l (nodes w)) ∧ r = Ok tt).
Proof.
  unfold remove.
  destruct (resolve w p) as [l|e] eqn:Hl; [|intros [= <- <-]; eauto].
  destruct (node_at (nodes w) l) as [[b|]|] eqn:Hb;
    intros [= <- <-]; eauto.
  right. exists l, b. by apply node_at_lookup in Hb.
Qed.

Lemma copy_bytes_same_dirs src dst w :
  same_dirs w (copy_bytes src dst w).1.
Proof.
  destruct (copy_bytes src dst w) as [w1 r] eqn:Hc.
  apply copy_bytes_cases in Hc as [[-> _]|(s & l & b & _ & _ & _ & Hn & _ & -> & _)].
  - apply same_dirs_refl.
  - by apply same_dirs_insert_file.
Qed.

Lemma remove_same_dirs p w : same_dirs w (remove p w).1.
Proof.
  destruct (remove p w) as [w1 r] eqn:Hc.
  apply remove_cases in Hc as [[-> _]|(l & b & _ & Hn & -> & _)].
  - apply same_dirs_refl.
  - apply same_dirs_delete_file. by rewrite Hn.
Qed.

Lemma archive_item_same_dirs path key w :
  same_dirs w (archive_item path key w).1.
Proof.
  unfold archive_item. destruct (isfile w path); [|apply same_dirs_refl].
  pose proof (copy_bytes_same_dirs path (slot_str key) w) as Hc.
  destruct (copy_bytes path (slot_str key) w) as [w1 [[]|e]]; simpl in *;
    [|done].
  eapply same_dirs_trans; [done|].
  unfold try_except, ret. pose proof (remove_same_dirs path w1) as Hr.
  by destruct (remove path w1) as [w2 [[]|e]].
Qed.

(** A ready store has its working directory. *)
Lemma ready_cwd w : store_ready w → is_dir (nodes w) (cwd w) = true.
Proof.
  intros [Hd _]. by apply (is_dir_app _ ["recycle_bin"; "CinnaOS"; "D:"]).
Qed.

(** [os.path.abspath] returns for an absolute path, and for any path
    while the working directory exists. *)
Lemma os_abspath_ok p w :
  isabs p = true ∨ is_dir (nodes w) (cwd w) = true →
  os_abspath p w = (w, Ok (abspath w p)).
Proof.
  unfold os_abspath, bind, getcwd. destruct (isabs p); [done|].
  intros [?| ->]; done.
Qed.

Lemma os_abspath_gone p w :
  isabs p = false → is_dir (nodes w) (cwd w) = false →
  os_abspath p w = (w, Raise (OSError ENOENT)).
Proof. unfold os_abspath, bind, getcwd. by intros -> ->. Qed.

Lemma os_abspath_same_dirs p w w' :
  same_dirs w w' →
  isabs p = true ∨ is_dir (nodes w) (cwd w) = true →
  os_abspath p w' = (w', Ok (abspath w p)).
Proof.
  intros Hs Hp. rewrite os_abspath_ok.
  - by rewrite (abspath_cwd w' w) by apply Hs.
  - destruct Hp as [|Hp]; [by left|right].
    by rewrite (proj1 Hs), (same_dirs_is_dir _ _ _ Hs).
Qed.

Lemma move_spec path now w d :
  index_doc w = PDict d →
  isabs path = true ∨ is_dir (nodes w) (cwd w) = true →
  move_to_recycle path now w =
  let key := recycle_key now path in
  let '(w1, e) := archive_item path key w in
  (saved_world w1 (PDict (dict_set d key e)), Ok key).
Proof.
  intros Hd Hp. unfold move_to_recycle, archive_item, bind at 1.
  rewrite load_spec, Hd. fold (slot_str (recycle_key now path)).
  unfold bind at 1. unfold try_except at 1. unfold bind at 1, os_isfile.
  destruct (isfile w path).
  - unfold bind at 1.
    pose proof (copy_bytes_same_dirs path (slot_str (recycle_key now path)) w)
      as Hc.
    destruct (copy_bytes path (slot_str (recycle_key now path)) w)
      as [w1 [[]|e]]; simpl in Hc.
    + unfold bind at 1. pose proof (remove_same_dirs path w1) as Hr.
      unfold try_except at 1 2.
      destruct (remove path w1) as [w2 [[]|e]]; simpl in Hr;
        unfold ret at 1; unfold bind at 1;
        rewrite (os_abspath_same_dirs path w w2)
          by (try done; by eapply same_dirs_trans);
        unfold bind, lift, ret; simpl; by rewrite save_spec.
    + unfold bind at 1.
      rewrite (os_abspath_same_dirs path w w1) by done.
      unfold bind, lift, ret; simpl. by rewrite save_spec.
  - unfold bind at 1.
    rewrite (os_abspath_ok path w) by done.
    unfold bind, lift, ret; simpl. by rewrite save_spec.
Qed.

(** With the working directory gone a path that is not absolute cannot be
    made absolute: the deletion raises and nothing is written. *)
Lemma move_without_cwd path now w d :
  index_doc w = PDict d →
  isabs path = false → is_dir (nodes w) (cwd w) = false →
  move_to_recycle path now w = (w, Raise (OSError ENOENT)).
Proof.
  intros Hd Ha Hc. unfold move_to_recycle, bind at 1.
  rewrite load_spec, Hd. unfold bind at 1. unfold try_except at 1.
  unfold bind at 1, os_isfile.
  assert (isfile w path = false) as ->.
  { unfold isfile, resolve. case_decide; [done|]. rewrite Ha.
    destruct (split path) as [|c cs] eqn:Hs; [by destruct (split_nonempty path)|].
    simpl. by rewrite Hc. }
  unfold bind at 1. rewrite (os_abspath_gone path w) by done.
  unfold bind at 1. by rewrite (os_abspath_gone path w) by done.
Qed.

(** After a move the store is ready again and the index holds what the
    move recorded. *)
Lemma move_ready path now w d :
  store_ready w → index_doc w = PDict d →
  ∃ w1 e,
    move_to_recycle path now w = (w1, Ok (recycle_key now path)) ∧
    e = (archive_item path (recycle_key now path) w).2 ∧
    store_ready w1 ∧ same_dirs w w1 ∧
    index_doc w1 = PDict (dict_set d (recycle_key now path) e) ∧
    nodes w1 =
      <[index_loc w := File (json_dumps
          (PDict (dict_set d (recycle_key now path) e)))]>
        (nodes (archive_item path (recycle_key now path) w).1).
Proof.
  intros Hready Hd. rewrite (move_spec _ _ _ _ Hd) by (right; by apply ready_cwd).
  simpl.
  pose proof (archive_item_same_dirs path (recycle_key now path) w) as Hs.
  destruct (archive_item path (recycle_key now path) w) as [w' e] eqn:Ha.
  simpl in *. eexists _, e. split; [done|]. split; [done|].
  pose proof (same_dirs_ready _ _ Hs Hready) as Hready'.
  assert (val_wf (PDict (dict_set d (recycle_key now path) e)) = true) as Hwf.
  { apply dict_set_wf; [rewrite <- Hd; apply index_doc_wf|].
    unfold archive_item in Ha. repeat case_match; simplify_eq; done. }
  split_and!.
  - eapply same_dirs_ready; [apply same_dirs_saved|done].
  - eapply same_dirs_trans; [done|apply same_dirs_saved].
  - destruct (index_doc_saved w' _ Hwf) as [?|[Hsame Hnil]]; [done|].
    exfalso. rewrite saved_world_ready in Hsame by done.
    pose proof Hready' as [Hdir Hi]. apply Hi.
    apply (f_equal (λ x, nodes x !! index_loc w')) in Hsame.
    simpl in Hsame. rewrite lookup_insert_eq in Hsame.
    unfold index_doc in Hnil.
    rewrite resolve_index_ready in Hnil by done.
    simpl in Hnil. rewrite <- Hsame in Hnil.
    rewrite loads_dumps in Hnil by done. injection Hnil as Hnil.
    by destruct d as [|[] ?]; simpl in Hnil; repeat case_decide.
  - rewrite saved_world_ready by done. simpl.
    unfold index_loc, archive_loc. by rewrite (proj1 Hs).
Qed.

Lemma restore_copy_unsaved o k tp w :
  restore_copy (entry o k PNone) tp w = (w, Ok tt).
Proof. reflexivity. Qed.

Lemma unlink_unsaved o k w : unlink_saved (entry o k PNone) w = (w, Ok tt).
Proof. reflexivity. Qed.

(** *** Worlds that only gained nodes *)

Lemma extends_refl w : extends w w.
Proof. by split. Qed.

Lemma extends_trans w1 w2 w3 : extends w1 w2 → extends w2 w3 → extends w1 w3.
Proof.
  intros [Hn1 Hc1] [Hn2 Hc2]. split; [by etrans|by rewrite Hc2].
Qed.

Lemma os_mkdir_extends p w : extends w (os_mkdir p w).1.
Proof.
  unfold os_mkdir. destruct (resolve w p) as [l|e]; [|apply extends_refl].
  destruct (node_at (nodes w) l) as [n|] eqn:Hn; [apply extends_refl|].
  split; [|done]. simpl. apply insert_subseteq. by destruct l.
Qed.

Lemma mkdir_exist_ok_extends p w : extends w (mkdir_exist_ok p w).1.
Proof.
  unfold mkdir_exist_ok, try_except.
  pose proof (os_mkdir_extends (path_str p) w) as He.
  destruct (os_mkdir (path_str p) w) as [w1 [[]|e]]; [done|].
  simpl in He. by repeat case_match.
Qed.

Lemma mkdir_parents_extends r rparts w :
  extends w (mkdir_parents r rparts w).1.
Proof.
  revert w. induction rparts as [|c up IH]; intros w; simpl;
    unfold try_except.
  - pose proof (os_mkdir_extends (path_str (MkPath r (reverse []))) w) as H0.
    destruct (os_mkdir _ w) as [w1 [[]|e]]; [done|]. simpl in *.
    by repeat case_match.
  - pose proof (os_mkdir_extends (path_str (MkPath r (reverse (c :: up)))) w)
      as H1.
    destruct (os_mkdir _ w) as [w1 [[]|e]]; [done|]. simpl in H1.
    destruct e as [[]| | | |]; try done.
    + unfold bind. pose proof (IH w1) as H2.
      destruct (mkdir_parents r up w1) as [w2 [[]|e]]; simpl in H2.
      * pose proof (mkdir_exist_ok_extends (MkPath r (reverse (c :: up))) w2)
          as H3.
        destruct (mkdir_exist_ok _ w2) as [w3 r3]. simpl in *.
        eapply extends_trans; [done|]. by eapply extends_trans.
      * simpl. by eapply extends_trans.
    + by destruct (path_is_dir w1 _).
    + by destruct (path_is_dir w1 _).
    + by destruct (path_is_dir w1 _).
Qed.

Lemma copy_bytes_raise src dst w w1 err :
  copy_bytes src dst w = (w1, Raise err) → w1 = w.
Proof.
  intros [[-> _]|(s & l & b & _ & _ & _ & _ & _ & _ & ?)]%copy_bytes_cases;
    done.
Qed.

Lemma orig_path_world e w w0 r0 :
  (let* o := lift (py_getitem e "orig") in lift (py_Path o)) w = (w0, r0) →
  w0 = w.
Proof. unfold bind, lift. by repeat case_match; intros [= <- _]. Qed.

Lemma restore_copy_raise e tp w w1 err :
  restore_copy e tp w = (w1, Raise err) → extends w w1.
Proof.
  unfold restore_copy, bind at 1, lift at 1.
  destruct (py_get e "saved") as [s|x]; [|intros [= <- _]; apply extends_refl].
  destruct (py_truthy s); [|done].
  unfold bind at 1, lift at 1.
  destruct (py_getitem e "saved") as [s1|x];
    [|intros [= <- _]; apply extends_refl].
  unfold bind at 1, lift at 1.
  destruct (py_Path s1) as [saved|x]; [|intros [= <- _]; apply extends_refl].
  unfold bind at 1.
  assert (∀ dest : path,
    (let* _ := mkdir_p (parent dest) in
     copy_bytes (path_str saved) (path_str dest)) w = (w1, Raise err) →
    extends w w1) as Hcopy.
  { intros dest. unfold bind, mkdir_p.
    pose proof (mkdir_parents_extends (rooted (parent dest))
                  (reverse (parts (parent dest))) w) as He.
    destruct (mkdir_parents _ _ w) as [w2 [[]|x]]; simpl in He.
    - destruct (copy_bytes _ _ w2) as [w3 r3] eqn:Hc. intros [= <- ->].
      by apply copy_bytes_raise in Hc as ->.
    - by intros [= <- _]. }
  destruct tp as [t|]; [destruct (bool_decide (t = ""))|].
  - destruct ((let* o := lift (py_getitem e "orig") in lift (py_Path o)) w)
      as [w0 [dest|x]] eqn:Ho; apply orig_path_world in Ho as ->.
    + apply Hcopy.
    + intros [= <- _]. apply extends_refl.
  - unfold ret. apply Hcopy.
  - destruct ((let* o := lift (py_getitem e "orig") in lift (py_Path o)) w)
      as [w0 [dest|x]] eqn:Ho; apply orig_path_world in Ho as ->.
    + apply Hcopy.
    + intros [= <- _]. apply extends_refl.
Qed.

Lemma index_doc_extends w w1 :
  extends w w1 → index_doc w ≠ PDict [] → index_doc w1 = index_doc w.
Proof.
  intros [Hn Hc] Hd. unfold index_doc in *.
  destruct (resolve w index_str) as [l|x] eqn:Hr; [|done].
  destruct (node_at (nodes w) l) as [[t|]|] eqn:Hl; [|done..].
  assert (resolve w1 index_str = Ok l) as ->.
  { revert Hr. unfold resolve. case_decide; [done|]. rewrite Hc.
    apply walk_transfer. intros x. by apply is_dir_mono. }
  assert (node_at (nodes w1) l = Some (File t)) as ->; [|done].
  destruct l; [done|]. simpl in *. by eapply lookup_weaken.
Qed.

(** *** Emptying the bin *)

Lemma isfile_shrink w w1 p :
  same_dirs w w1 → files_shrink w w1 →
  isfile w p = false → isfile w1 p = false.
Proof.
  intros Hs Hf Hw. unfold isfile in *.
  destruct (resolve w1 p) as [l|e] eqn:Hr; [|done].
  rewrite (same_dirs_resolve _ _ _ _ (same_dirs_sym _ _ Hs) Hr) in Hw.
  destruct (node_at (nodes w1) l) as [[b|]|] eqn:Hn; [|done..].
  destruct l; [done|]. simpl in *. apply Hf in Hn. by rewrite Hn in Hw.
Qed.

Lemma remove_not_file p w : isfile (remove p w).1 p = false.
Proof.
  pose proof (remove_same_dirs p w) as Hs. unfold remove in *.
  destruct (resolve w p) as [l|x] eqn:Hr; simpl; [|unfold isfile; by rewrite Hr].
  destruct (node_at (nodes w) l) as [[b|]|] eqn:Hn; simpl in *;
    [|unfold isfile; by rewrite Hr, Hn..].
  unfold isfile. rewrite (same_dirs_resolve _ _ _ _ Hs Hr).
  destruct l; [done|]. simpl. by rewrite lookup_delete_eq.
Qed.

Lemma remove_shrink p w : files_shrink w (remove p w).1.
Proof.
  destruct (remove p w) as [w1 r] eqn:Hc. simpl.
  apply remove_cases in Hc as [[-> He]|(l & b & Hr & Hn & -> & _)];
    [by intros ???|].
  intros x b'. simpl. intros Hx.
  destruct (decide (l = x)) as [->|Hne].
  - by rewrite lookup_delete_eq in Hx.
  - by rewrite lookup_delete_ne in Hx.
Qed.

Lemma unlink_saved_eq ed w :
  unlink_saved (PDict ed) w =
  match dict_get ed "saved" with
  | Some (PStr s) =>
      if bool_decide (s = "") then (w, Ok tt)
      else ((remove (path_str (Path s)) w).1, Ok tt)
  | _ => (w, Ok tt)
  end.
Proof.
  unfold unlink_saved, bind at 1, lift at 1. simpl py_get.
  destruct (dict_get ed "saved") as [[|b|z|s|l|d]|] eqn:Hg; simpl;
    try done.
  - destruct b; [|done].
    unfold try_except, bind, lift, py_getitem. by rewrite Hg.
  - destruct (negb (z =? 0)); [|done].
    unfold try_except, bind, lift, py_getitem. by rewrite Hg.
  - destruct (bool_decide (s = "")); [done|]. simpl.
    unfold try_except, bind, lift, py_getitem. rewrite Hg. simpl.
    by destruct (remove _ w) as [w1 [[]|e]].
  - destruct (negb (bool_decide (l = []))); [|done].
    unfold try_except, bind, lift, py_getitem. by rewrite Hg.
  - destruct (negb (bool_decide (d = []))); [|done].
    unfold try_except, bind, lift, py_getitem. by rewrite Hg.
Qed.

Lemma unlink_saved_dict ed w :
  ∃ w1,
    unlink_saved (PDict ed) w = (w1, Ok tt) ∧ same_dirs w w1 ∧
    files_shrink w w1 ∧
    ∀ p, py_get (PDict ed) "saved" = Ok (PStr p) → p ≠ "" →
         isfile w1 (path_str (Path p)) = false.
Proof.
  rewrite unlink_saved_eq. simpl py_get.
  destruct (dict_get ed "saved") as [[|b|z|s|l|d]|] eqn:Hg; simpl.
  all: try (exists w; split_and!;
            [done|apply same_dirs_refl|by intros ???|by intros p [=]]).
  destruct (bool_decide_reflect (s = "")) as [->|Hs].
  - exists w. split_and!;
      [done|apply same_dirs_refl|by intros ???|by intros p [= <-]].
  - exists (remove (path_str (Path s)) w).1.
    split_and!; [done|apply remove_same_dirs|apply remove_shrink|].
    intros p [= <-] _. apply remove_not_file.
Qed.

Lemma files_shrink_trans w1 w2 w3 :
  files_shrink w1 w2 → files_shrink w2 w3 → files_shrink w1 w3.
Proof. intros H12 H23 x b Hx. by apply H12, H23. Qed.

Lemma for_each_unlink d w :
  Forall (λ kv, ∃ ed, snd kv = PDict ed) d →
  ∃ w1,
    for_each d unlink_saved w = (w1, Ok tt) ∧ same_dirs w w1 ∧
    files_shrink w w1 ∧
    ∀ k e p, (k, e) ∈ d → py_get e "saved" = Ok (PStr p) → p ≠ "" →
             isfile w1 (path_str (Path p)) = false.
Proof.
  intros Hd. revert w. induction Hd as [|[k e] d [ed He] Hd IH]; intros w.
  { exists w. split_and!; [done|apply same_dirs_refl|by intros ???|].
    by intros k e p ?%elem_of_nil. }
  simpl in He. subst e. simpl. unfold bind.
  destruct (unlink_saved_dict ed w) as (w1 & -> & Hs1 & Hf1 & Hp1).
  destruct (IH w1) as (w2 & -> & Hs2 & Hf2 & Hp2).
  exists w2. split_and!; [done|by eapply same_dirs_trans
                        |by eapply files_shrink_trans|].
  intros k' e' p [[= -> ->]|Hin]%elem_of_cons Hg Hne.
  - apply (isfile_shrink w1); auto.
  - by eapply Hp2.
Qed.

Lemma archive_item_archived path now w :
  archived (archive_item path (recycle_key now path) w).2.
Proof.
  unfold archive_item, archived.
  repeat case_match; simpl; eexists _, _, _; split; try done; eauto.
  right. eexists. split_and!; [apply recycle_key_plain| |done].
  apply recycle_key_not_index.
Qed.

Lemma dict_set_Forall (P : string * pyval → Prop) d k v :
  Forall P d → P (k, v) → Forall P (dict_set d k v).
Proof.
  intros Hd Hv. induction Hd as [|[k' v'] d Hx Hd IH]; simpl.
  - by constructor.
  - case_decide; constructor; auto.
Qed.

Lemma move_all_ready items w d :
  store_ready w → index_doc w = PDict d →
  Forall (λ kv, archived (snd kv)) d →
  ∃ w1 d1,
    move_all items w = (w1, Ok tt) ∧ store_ready w1 ∧
    index_doc w1 = PDict d1 ∧ Forall (λ kv, archived (snd kv)) d1.
Proof.
  revert w d. induction items as [|[path now] items IH]; intros w d Hr Hd Ha.
  { by exists w, d. }
  destruct (move_ready path now w d Hr Hd)
    as (w1 & e & Hm & He & Hr1 & _ & Hd1 & _).
  destruct (IH w1 _ Hr1 Hd1) as (w2 & d2 & Hm2 & ?).
  { apply dict_set_Forall; [done|]. simpl. rewrite He.
    apply archive_item_archived. }
  exists w2, d2. split; [|done]. simpl. unfold bind. by rewrite Hm.
Qed.

Lemma dict_get_elem d k v : dict_get d k = Some v → (k, v) ∈ d.
Proof.
  induction d as [|[k' v'] d IH]; [done|]. simpl.
  case_decide as E; [intros [= ->]; subst; left|right; auto].
Qed.

Lemma isfile_slot_saved w idx key :
  store_ready w → plain_name key = true → key ≠ "index.json" →
  isfile w (slot_str key) = false →
  isfile (saved_world w idx) (slot_str key) = false.
Proof.
  intros Hr Hp Hk Hf. rewrite saved_world_ready by done.
  unfold isfile in *.
  destruct (resolve (with_nodes w _) (slot_str key)) as [l|e] eqn:Hl;
    [|done].
  apply resolve_slot_inv in Hl as [-> _]; [|done].
  rewrite resolve_slot in Hf by (done || apply Hr). simpl in *.
  unfold slot_loc, index_loc in *. simpl.
  rewrite lookup_insert_ne by congruence. done.
Qed.

(** *** Moving a file in and out *)

Lemma copy_bytes_ok src dst w s l b :
  resolve w src = Ok s → node_at (nodes w) s = Some (File b) →
  resolve w dst = Ok l → node_at (nodes w) l ≠ Some Dir → s ≠ l →
  copy_bytes src dst w = (with_nodes w (<[l := File b]> (nodes w)), Ok tt).
Proof.
  intros Hs Hb Hl Hn Hne.
  unfold copy_bytes, bind, open_rb, open_wb, read_at, write_at.
  rewrite Hs, Hb, Hl. apply node_at_lookup in Hb.
  destruct (node_at (nodes w) l) as [[t|]|]; [|done|]; simpl.
  all: rewrite lookup_insert_ne, Hb by done.
  all: rewrite with_nodes_twice; cbn [nodes with_nodes].
  all: by rewrite insert_insert_eq.
Qed.

Lemma remove_ok p w l b :
  resolve w p = Ok l → node_at (nodes w) l = Some (File b) →
  remove p w = (with_nodes w (delete l (nodes w)), Ok tt).
Proof. intros Hl Hb. unfold remove. by rewrite Hl, Hb. Qed.

Lemma mkdir_p_existing p w l :
  resolve w (path_str p) = Ok l → is_dir (nodes w) l = true →
  mkdir_p p w = (w, Ok tt).
Proof.
  intros Hl Hd. unfold mkdir_p.
  assert (MkPath (rooted p) (reverse (reverse (parts p))) = p) as Hp.
  { rewrite reverse_involutive. by destruct p. }
  assert (os_mkdir (path_str p) w = (w, Raise (OSError EEXIST))) as Hm.
  { unfold os_mkdir. by rewrite Hl, (is_dir_node _ _ Hd). }
  assert (path_is_dir w (path_str p) = true) as Hi.
  { unfold path_is_dir. by rewrite Hl. }
  destruct (reverse (parts p)) as [|c up]; simpl;
    unfold try_except; rewrite Hp, Hm, Hi; done.
Qed.

Lemma split_slash s : split (String slash s) = "" :: split s.
Proof. reflexivity. Qed.

Lemma plain_all_no_slash l :
  forallb plain_name l = true → forallb no_slash l = true.
Proof.
  induction l as [|c l IH]; [done|]. simpl.
  intros [Hc Hl]%andb_prop. destruct (plain_name_inv _ Hc) as [-> _].
  by rewrite IH.
Qed.

Lemma forallb_reverse {A} (P : A → bool) l :
  forallb P (reverse l) = forallb P l.
Proof.
  induction l as [|x l IH]; [done|].
  rewrite reverse_cons, forallb_app, IH. simpl.
  by rewrite andb_true_r, andb_comm.
Qed.

Lemma split_render l :
  forallb plain_name l = true → l ≠ [] →
  split (render l) = "" :: reverse l.
Proof.
  intros Hp Hl. unfold render. change ("/" +:+ ?s) with (String slash s).
  rewrite split_slash, split_join; [done| |].
  - intros Hr. apply Hl. by rewrite <- (reverse_involutive l), Hr.
  - rewrite forallb_reverse. by apply plain_all_no_slash.
Qed.

Lemma resolve_render w l :
  forallb plain_name l = true → is_dir (nodes w) (tail l) = true →
  resolve w (render l) = Ok l.
Proof.
  intros Hp Hd. unfold resolve. rewrite decide_False by done.
  change (isabs (render l)) with true. cbv iota.
  destruct (decide (l = [])) as [->|Hl]; [done|].
  rewrite split_render by done. simpl. unfold step at 1.
  rewrite decide_True by by left.
  rewrite (walk_names _ (reverse l) []).
  - by rewrite reverse_involutive, app_nil_r.
  - by rewrite forallb_reverse.
  - by rewrite reverse_involutive, app_nil_r.
  - intros Hr. apply Hl. by rewrite <- (reverse_involutive l), Hr.
Qed.

Lemma filter_plain l :
  forallb plain_name l = true →
  filter (λ c : string, c ≠ "" ∧ c ≠ ".") l = l.
Proof.
  induction l as [|c l IH]; [done|]. simpl.
  intros [Hc Hl]%andb_prop. destruct (plain_name_inv _ Hc) as (_ & ? & ? & _).
  rewrite filter_cons, decide_True by done. by rewrite IH.
Qed.

Lemma Path_render b l :
  forallb plain_name l = true →
  Path ((if b : bool then "/" else "") +:+ render l) = MkPath true (reverse l).
Proof.
  intros Hp. unfold Path. f_equal; [by destruct b|].
  assert (filter (λ c : string, c ≠ "" ∧ c ≠ ".") (split (render l))
          = reverse l) as Hf.
  { destruct (decide (l = [])) as [->|Hl]; [done|].
    rewrite split_render by done. rewrite filter_cons, decide_False by (by intros [? _]).
    apply filter_plain. by rewrite forallb_reverse. }
  destruct b; [|done].
  change ("/" +:+ ?s) with (String slash s). rewrite split_slash.
  rewrite filter_cons, decide_False by (by intros [? _]). done.
Qed.

Lemma resolve_lexical w p l :
  resolve w p = Ok l →
  l = fold_left step (split p) (if isabs p then [] else cwd w).
Proof. unfold resolve. case_decide; [done|]. apply walk_lexical. Qed.

Lemma resolve_plain w p l :
  forallb plain_name (cwd w) = true → resolve w p = Ok l →
  forallb plain_name l = true.
Proof.
  intros Hc ->%resolve_lexical. apply fold_step_plain.
  - by destruct (isabs p).
  - apply split_all_no_slash.
Qed.

Lemma abspath_resolved w p l :
  resolve w p = Ok l →
  abspath w p = (if two_slashes p then "/" else "") +:+ render l.
Proof. intros ->%resolve_lexical. done. Qed.

Lemma recycle_key_not_basename now path :
  recycle_key now path ≠ basename path.
Proof.
  unfold recycle_key. case_decide as E.
  - rewrite E. intros Hk. apply (f_equal String.length) in Hk.
    rewrite !sapp_length in Hk. simpl in Hk. lia.
  - intros Hk. apply (f_equal String.length) in Hk.
    rewrite !sapp_length in Hk. simpl in Hk. lia.
Qed.

Lemma entry_get_saved o k s : py_get (entry o k s) "saved" = Ok s.
Proof. reflexivity. Qed.

Lemma entry_getitem_saved o k s : py_getitem (entry o k s) "saved" = Ok s.
Proof. reflexivity. Qed.

Lemma entry_getitem_orig o k s : py_getitem (entry o k s) "orig" = Ok (PStr o).
Proof. reflexivity. Qed.

Lemma removelast_reverse {A} (l : list A) :
  removelast (reverse l) = reverse (tail l).
Proof.
  destruct l as [|x l]; [done|]. rewrite reverse_cons. simpl.
  by rewrite removelast_last.
Qed.

Lemma forallb_tail {A} (P : A → bool) l :
  forallb P l = true → forallb P (tail l) = true.
Proof. destruct l; [done|]. simpl. by intros [_ ?]%andb_prop. Qed.

(** The copy of [restore_from_recycle], for an entry that
    [move_to_recycle] wrote for a regular file. *)
Lemma restore_copy_file w key two l b :
  plain_name key = true → forallb plain_name l = true →
  is_dir (nodes w) (archive_loc w) = true →
  nodes w !! slot_loc w key = Some (File b) →
  is_dir (nodes w) (tail l) = true → nodes w !! l = None →
  l ≠ slot_loc w key → l ≠ [] →
  restore_copy
    (entry ((if two : bool then "/" else "") +:+ render l) "file"
       (PStr (slot_str key))) None w
  = (with_nodes w (<[l := File b]> (nodes w)), Ok tt).
Proof.
  intros Hk Hl Hd Hs Hup Hnone Hne Hnil.
  unfold restore_copy, bind at 1, lift at 1. rewrite entry_get_saved.
  assert (py_truthy (PStr (slot_str key)) = true) as ->.
  { unfold py_truthy.
    by rewrite bool_decide_eq_false_2 by by apply slot_str_nonempty. }
  unfold bind at 1, lift at 1. rewrite entry_getitem_saved.
  unfold bind at 1, lift at 1. simpl py_Path.
  unfold bind at 1. unfold bind at 1, lift at 1. rewrite entry_getitem_orig.
  unfold lift at 1. simpl py_Path.
  rewrite Path_slot, Path_render by done. fold (slot_str key).
  unfold bind at 1.
  assert (parent (MkPath true (reverse l)) = MkPath true (reverse (tail l)))
    as ->.
  { unfold parent. simpl. by rewrite removelast_reverse. }
  rewrite (mkdir_p_existing _ _ (tail l)); [|apply resolve_render|done].
  - apply copy_bytes_ok with (s := slot_loc w key).
    + by apply resolve_slot.
    + done.
    + apply (resolve_render w l); done.
    + by rewrite node_at_ne, Hnone.
    + done.
  - by apply forallb_tail.
  - by apply is_dir_tail.
Qed.

(** ** The claims *)

(** Claim C1, as amended: for a path that names a regular file with the
    bytes [b], other than the index document of the store,
    [move_to_recycle] followed by [restore_from_recycle] of the key it
    returned, without a target, leaves a regular file with the bytes [b]
    at the path, nothing where the archived copy was, and an index that
    does not hold the key.  (The store is ready, the working directory
    is made of plain names, and no directory stands where the archived
    copy goes.) *)
Theorem C1_move_then_restore w d path now b :
  store_ready w →
  forallb plain_name (cwd w) = true →
  load_recycle_index w = (w, Ok (PDict d)) →
  file_content w path = Some b →
  resolve w path ≠ resolve w (path_str RECYCLE_INDEX) →
  path_is_dir w (path_str (joinpath RECYCLE_DIR (recycle_key now path)))
  = false →
  ∃ w1 w2 key d2,
    move_to_recycle path now w = (w1, Ok key) ∧
    restore_from_recycle key None w1
    = (w2, Ok (true, Literal "Restored")) ∧
    file_content w2 path = Some b ∧
    path_exists w2 (path_str (joinpath RECYCLE_DIR key)) = false ∧
    load_recycle_index w2 = (w2, Ok (PDict d2)) ∧
    dict_get d2 key = None.
Proof.
  intros Hready Hcwd. rewrite load_spec. intros [= Hd] Hfc Hnidx Hslot.
  set (key := recycle_key now path) in *.
  fold (slot_str key) in Hslot |- *. fold index_str in Hnidx.
  pose proof (recycle_key_plain now path) as Hplain. fold key in Hplain.
  pose proof Hready as [Harch Hidx].
  unfold file_content in Hfc.
  destruct (resolve w path) as [l|x] eqn:Hres; [|done].
  destruct (node_at (nodes w) l) as [[t|]|] eqn:Hb; [|done..].
  injection Hfc as ->.
  destruct (resolve_file _ _ _ _ Hres Hb) as (HL & Hup & Hb1 & _).
  pose proof (resolve_plain _ _ _ Hcwd Hres) as Hlp.
  assert (l ≠ []) as Hlnil by (by intros ->).
  assert (l ≠ slot_loc w key) as HlS.
  { rewrite HL. intros [= Hk _].
    by apply (recycle_key_not_basename now path). }
  assert (l ≠ index_loc w) as HlI.
  { intros ->. apply Hnidx. by rewrite resolve_index_ready. }
  assert (slot_loc w key ≠ index_loc w) as HSI.
  { intros [= Hk]. by apply (recycle_key_not_index now path). }
  assert (nodes w !! slot_loc w key ≠ Some Dir) as HS.
  { intros HS. unfold path_is_dir in Hslot.
    rewrite resolve_slot in Hslot by done.
    assert (is_dir (nodes w) (slot_loc w key) = true); [|congruence].
    by apply is_dir_cons. }
  (* the move *)
  set (m1 := <[slot_loc w key := File b]> (nodes w)).
  assert (archive_item path key w
          = (with_nodes w (delete l m1),
             entry (abspath w path) "file" (PStr (slot_str key)))) as Ha.
  { unfold archive_item.
    assert (isfile w path = true) as -> by (unfold isfile; by rewrite Hres, Hb).
    rewrite (copy_bytes_ok _ _ _ l (slot_loc w key) b);
      [|done|done|by apply resolve_slot|by rewrite node_at_ne|done].
    unfold try_except.
    rewrite (remove_ok _ _ l b); [done|by apply resolve_written|].
    simpl. rewrite node_at_insert by done. by rewrite decide_False. }
  destruct (move_ready path now w d Hready Hd)
    as (w1 & e & Hm & He & Hready1 & Hs1 & Hd1 & Hn1).
  fold key in Hm, He, Hd1, Hn1. rewrite Ha in He, Hn1. simpl in He, Hn1.
  pose proof Hs1 as [Hcwd1 _]. pose proof Hready1 as [Harch1 _].
  assert (slot_loc w1 key = slot_loc w key) as HS1
    by (unfold slot_loc, archive_loc; by rewrite Hcwd1).
  assert (index_loc w1 = index_loc w) as HI1
    by (unfold index_loc, archive_loc; by rewrite Hcwd1).
  rewrite (abspath_resolved _ _ _ Hres) in He.
  assert (val_wf (PDict (dict_set d key e)) = true) as Hwf.
  { rewrite <- Hd1. apply index_doc_wf. }
  (* the restore *)
  set (m2 := <[l := File b]> (nodes w1)).
  assert (restore_copy e None w1 = (with_nodes w1 m2, Ok tt)) as Hcopy.
  { rewrite He. apply restore_copy_file; try done.
    - rewrite HS1, Hn1, lookup_insert_ne, lookup_delete_ne by done.
      apply lookup_insert_eq.
    - by rewrite (same_dirs_is_dir w w1).
    - rewrite Hn1, lookup_insert_ne by done. apply lookup_delete_eq.
    - by rewrite HS1. }
  assert (nodes w1 !! l ≠ Some Dir) as Hl1.
  { rewrite Hn1, lookup_insert_ne by done. by rewrite lookup_delete_eq. }
  assert (same_dirs w1 (with_nodes w1 m2)) as Hs2
    by by apply same_dirs_insert_file.
  assert (unlink_saved e (with_nodes w1 m2)
          = (with_nodes w1 (delete (slot_loc w key) m2), Ok tt)) as Hun.
  { rewrite He. unfold entry. rewrite unlink_saved_eq.
    change (dict_get _ "saved") with (Some (PStr (slot_str key))). cbv iota.
    rewrite bool_decide_eq_false_2 by by apply slot_str_nonempty.
    rewrite Path_slot by done. fold (slot_str key).
    rewrite (remove_ok _ _ (slot_loc w key) b); [done| |].
    - rewrite <- HS1. apply (same_dirs_resolve w1); [done|].
      by apply resolve_slot.
    - rewrite node_at_ne by done. cbn [nodes with_nodes]. unfold m2.
      rewrite lookup_insert_ne, Hn1, lookup_insert_ne, lookup_delete_ne
        by done.
      apply lookup_insert_eq. }
  set (m3 := delete (slot_loc w key) m2) in *.
  assert (same_dirs w1 (with_nodes w1 m3)) as Hs3.
  { eapply same_dirs_trans; [exact Hs2|].
    apply (same_dirs_delete_file (with_nodes w1 m2)). simpl. unfold m2.
    rewrite lookup_insert_ne, Hn1, lookup_insert_ne, lookup_delete_ne
      by done.
    unfold m1. by rewrite lookup_insert_eq. }
  pose proof (same_dirs_ready _ _ Hs3 Hready1) as Hready3.
  set (d2 := dict_del (dict_set d key e) key).
  set (w2 := saved_world (with_nodes w1 m3) (PDict d2)).
  assert (same_dirs w w2) as Hs.
  { eapply same_dirs_trans; [exact Hs1|].
    eapply same_dirs_trans; [exact Hs3|]. apply same_dirs_saved. }
  assert (nodes w2 = <[index_loc w := File (json_dumps (PDict d2))]> m3)
    as Hn2.
  { unfold w2. rewrite saved_world_ready by done. simpl.
    by rewrite <- HI1. }
  exists w1, w2, key, d2. split_and!.
  - done.
  - rewrite (restore_spec _ _ _ _ e Hd1) by apply dict_get_set_eq.
    by rewrite Hcopy, Hun.
  - unfold file_content. rewrite (same_dirs_resolve _ _ _ _ Hs Hres).
    rewrite node_at_ne, Hn2, lookup_insert_ne by done.
    unfold m3, m2. rewrite lookup_delete_ne by done.
    by rewrite lookup_insert_eq.
  - unfold path_exists.
    rewrite (same_dirs_resolve w w2 _ (slot_loc w key));
      [|done|by apply resolve_slot].
    rewrite node_at_ne, Hn2, lookup_insert_ne by done.
    unfold m3. rewrite lookup_delete_eq.
    by rewrite bool_decide_eq_false_2 by by intros [].
  - rewrite load_spec. do 2 f_equal. unfold w2.
    destruct (index_doc_saved (with_nodes w1 m3) (PDict d2))
      as [?|[Hsame Hnil]]; [by apply dict_del_wf|done|].
    exfalso. rewrite saved_world_ready in Hsame by done.
    change (index_loc (with_nodes w1 m3)) with (index_loc w1) in Hsame.
    apply (f_equal (λ x, nodes x !! index_loc w1)) in Hsame.
    cbn [nodes with_nodes] in Hsame. rewrite lookup_insert_eq in Hsame.
    unfold m3, m2 in Hsame.
    rewrite HI1, lookup_delete_ne, lookup_insert_ne, Hn1, lookup_insert_eq
      in Hsame by done.
    injection Hsame as Hsame.
    assert (json_loads (json_dumps (PDict d2))
            = json_loads (json_dumps (PDict (dict_set d key e)))) as Hj
      by by rewrite Hsame.
    rewrite !loads_dumps in Hj by (done || by apply dict_del_wf).
    injection Hj as Hj. pose proof (dict_get_set_eq d key e) as Hg.
    rewrite <- Hj in Hg. unfold d2 in Hg.
    rewrite dict_get_del_eq in Hg; [done|by apply dict_wf_nodup].
  - by apply dict_get_del_eq, dict_wf_nodup.
Qed.

(** Claim C2, as amended: loading the index returns the empty mapping
    when the index document cannot be read or its text is not JSON;
    a text that is JSON is returned as [json.loads] reads it, whatever
    its shape. *)
Theorem C2_load_returns_parsed_or_empty w :
  load_recycle_index w =
  (w, Ok match index_text w with
         | Some t =>
             match json_loads t with
             | Some v => v
             | None => PDict []
             end
         | None => PDict []
         end).
Proof.
  rewrite load_spec. unfold index_doc, index_text, file_content.
  fold index_str. by repeat case_match.
Qed.

(** Claim C3: for a key that the index holds, when the copy of the
    archived bytes to the destination raises, [restore_from_recycle]
    returns [False] with the message of the exception, and the index
    document still holds what it held, the entry of the key included. *)
Theorem C3_restore_failure_keeps_index w d key e target_path w1 err :
  load_recycle_index w = (w, Ok (PDict d)) →
  dict_get d key = Some e →
  restore_copy e target_path w = (w1, Raise err) →
  restore_from_recycle key target_path w = (w1, Ok (false, StrOf err)) ∧
  load_recycle_index w1 = (w1, Ok (PDict d)).
Proof.
  rewrite load_spec. intros [= Hd] Hk Hc. split.
  - by rewrite (restore_spec _ _ _ _ _ Hd Hk), Hc.
  - rewrite load_spec. do 2 f_equal. rewrite <- Hd.
    apply index_doc_extends; [by eapply restore_copy_raise|].
    rewrite Hd. intros [= ->]. done.
Qed.

(** Claim C4: for a key that the index does not hold,
    [restore_from_recycle] returns [(False, "Not found")] whatever the
    target path, and the world (the file system, the index document in
    it) is the one it started from. *)
Theorem C4_restore_unknown_key w d key target_path :
  load_recycle_index w = (w, Ok (PDict d)) →
  dict_get d key = None →
  restore_from_recycle key target_path w
  = (w, Ok (false, Literal "Not found")).
Proof.
  rewrite load_spec. intros [= Hd] Hk. by eapply restore_missing.
Qed.

(** Claim C5: starting from a store whose index holds entries as
    [move_to_recycle] writes them (an empty index among them), after any
    sequence of moves [empty_recycle] returns [True], no saved path of
    the index names a regular file any more, and the index is the empty
    mapping. *)
Theorem C5_empty_after_moves w0 d0 items :
  store_ready w0 →
  load_recycle_index w0 = (w0, Ok (PDict d0)) →
  Forall (λ kv, archived (snd kv)) d0 →
  ∃ w d w',
    move_all items w0 = (w, Ok tt) ∧
    load_recycle_index w = (w, Ok (PDict d)) ∧
    empty_recycle w = (w', Ok true) ∧
    load_recycle_index w' = (w', Ok (PDict [])) ∧
    ∀ k e p, dict_get d k = Some e → py_get e "saved" = Ok (PStr p) →
             isfile w' p = false.
Proof.
  intros Hr0. rewrite load_spec. intros [= Hd0] Ha0.
  destruct (move_all_ready items w0 d0 Hr0 Hd0 Ha0)
    as (w & d & Hm & Hr & Hd & Ha).
  destruct (for_each_unlink d w) as (w1 & Hfe & Hs & Hf & Hp).
  { eapply Forall_impl; [done|]. intros [k e] (o & kd & s & -> & _).
    by eexists. }
  pose proof (same_dirs_ready _ _ Hs Hr) as Hr1.
  exists w, d, (saved_world w1 (PDict [])).
  split_and!; [done|by rewrite load_spec, Hd|..].
  - by rewrite (empty_spec _ _ Hd), Hfe.
  - rewrite load_spec.
    by destruct (index_doc_saved w1 (PDict []) eq_refl) as [->|[-> ->]].
  - intros k e p Hk Hg. apply dict_get_elem in Hk as Hin.
    rewrite Forall_forall in Ha. specialize (Ha _ Hin). simpl in Ha.
    destruct Ha as (o & kd & s & -> & Hs').
    injection Hg as Hg. subst s.
    destruct Hs' as [?|(key & Hplain & Hkey & [= ->])]; [done|].
    apply isfile_slot_saved; [done..|].
    pose proof (Hp k _ (slot_str key) Hin eq_refl
                  (slot_str_nonempty _ Hplain)) as Hq.
    by rewrite Path_slot in Hq.
Qed.

(** Claim C6: when [empty_recycle] has returned, calling it again
    returns [True] without raising, leaves every file as it is, and the
    index is still empty. *)
Theorem C6_empty_recycle_twice w w1 r :
  empty_recycle w = (w1, Ok r) →
  empty_recycle w1 = (w1, Ok true) ∧
  load_recycle_index w1 = (w1, Ok (PDict [])).
Proof.
  intros (d & w' & _ & _ & -> & _)%empty_inv.
  assert (index_doc (saved_world w' (PDict [])) = PDict []) as Hdoc.
  { destruct (index_doc_saved w' (PDict []) eq_refl) as [?|[-> ?]]; done. }
  split; [|by rewrite load_spec, Hdoc].
  rewrite (empty_spec _ _ Hdoc). simpl. unfold ret.
  by rewrite saved_world_idem.
Qed.


(** Claim C8: for a path that is not a regular file, [move_to_recycle]
    records an entry whose type is [unknown], whose saved path is [None]
    and whose origin is the absolute path, and changes nothing in the
    file system but the index document;
    [restore_from_recycle] of that key then returns [(True, "Restored")]
    and, again, changes nothing but the index document, which no longer
    holds the key. *)
Theorem C8_not_a_file_is_only_logged w d path now target_path :
  store_ready w →
  load_recycle_index w = (w, Ok (PDict d)) →
  isfile w path = false →
  let key := recycle_key now path in
  let e := entry (abspath w path) "unknown" PNone in
  py_getitem e "orig" = Ok (PStr (abspath w path)) ∧
  py_getitem e "type" = Ok (PStr "unknown") ∧
  py_getitem e "saved" = Ok PNone ∧
  ∃ w1 w2,
    move_to_recycle path now w = (w1, Ok key) ∧
    load_recycle_index w1 = (w1, Ok (PDict (dict_set d key e))) ∧
    nodes w1 =
      <[index_loc w := File (json_dumps (PDict (dict_set d key e)))]>
        (nodes w) ∧
    restore_from_recycle key target_path w1
    = (w2, Ok (true, Literal "Restored")) ∧
    load_recycle_index w2
    = (w2, Ok (PDict (dict_del (dict_set d key e) key))) ∧
    dict_get (dict_del (dict_set d key e) key) key = None ∧
    nodes w2 =
      <[index_loc w :=
          File (json_dumps (PDict (dict_del (dict_set d key e) key)))]>
        (nodes w).
Proof.
  intros Hready. rewrite load_spec. intros [= Hd] Hf key e.
  destruct (move_ready path now w d Hready Hd)
    as (w1 & e' & Hm & He & Hready1 & [Hcwd _] & Hd1 & Hn1).
  assert (archive_item path key w = (w, e)) as Ha.
  { unfold archive_item. by rewrite Hf. }
  fold key in Hm, He, Hd1, Hn1. rewrite Ha in He, Hn1. simpl in He, Hn1.
  subst e'.
  assert (val_wf (PDict (dict_set d key e)) = true) as Hwf.
  { rewrite <- Hd1. apply index_doc_wf. }
  do 3 (split; [done|]).
  exists w1, (saved_world w1 (PDict (dict_del (dict_set d key e) key))).
  split_and!; [done|by rewrite load_spec, Hd1|done|..].
  - rewrite (restore_spec _ _ _ _ e Hd1) by apply dict_get_set_eq.
    unfold e. by rewrite restore_copy_unsaved, unlink_unsaved.
  - rewrite load_spec. do 2 f_equal.
    destruct (index_doc_saved w1 (PDict (dict_del (dict_set d key e) key)))
      as [?|[Hsame Hnil]]; [by apply dict_del_wf|done|].
    exfalso. rewrite Hd1 in Hnil. injection Hnil as Hnil.
    pose proof (dict_get_set_eq d key e) as Hg. by rewrite Hnil in Hg.
  - by apply dict_get_del_eq, dict_wf_nodup.
  - rewrite saved_world_ready by done. simpl.
    replace (index_loc w1) with (index_loc w)
      by (unfold index_loc, archive_loc; by rewrite Hcwd).
    by rewrite Hn1, insert_insert_eq.
Qed.

(** Claim C9: two paths with the same base name, moved within the same
    second, get the same key, and the index then holds for that key the
    entry of the second path alone: it is what it would be had the first
    entry never been written. *)
Theorem C9_same_second_same_name w d p1 p2 now :
  store_ready w →
  load_recycle_index w = (w, Ok (PDict d)) →
  basename p1 = basename p2 →
  ∃ w1 w2 key e1 e2,
    move_to_recycle p1 now w = (w1, Ok key) ∧
    move_to_recycle p2 now w1 = (w2, Ok key) ∧
    load_recycle_index w1 = (w1, Ok (PDict (dict_set d key e1))) ∧
    load_recycle_index w2 = (w2, Ok (PDict (dict_set d key e2))) ∧
    py_getitem e2 "orig" = Ok (PStr (abspath w p2)).
Proof.
  intros Hready. rewrite load_spec. intros [= Hd] Hb.
  destruct (move_ready p1 now w d Hready Hd)
    as (w1 & e1 & Hm1 & He1 & Hready1 & [Hcwd1 _] & Hd1 & _).
  destruct (move_ready p2 now w1 _ Hready1 Hd1)
    as (w2 & e2 & Hm2 & He2 & Hready2 & [Hcwd2 _] & Hd2 & _).
  assert (recycle_key now p2 = recycle_key now p1) as Hk.
  { unfold recycle_key. by rewrite Hb. }
  rewrite Hk in *. rewrite dict_set_set in Hd2.
  exists w1, w2, (recycle_key now p1), e1, e2.
  split_and!; [done|done|by rewrite load_spec, Hd1
              |by rewrite load_spec, Hd2|].
  rewrite He2. unfold archive_item.
  rewrite (abspath_cwd w1 w) by done.
  by repeat case_match.
Qed.


End StoreProofs.

(** * The claims in the concrete stores

    With [mini_json] as the codec, every function computes. *)

Example fresh_store_init :
  (module_init (World (list_to_map [(["tmp"], Dir);
                                    (["a.txt"; "tmp"], File "hi")]) [])).1
  = fresh_store.
Proof. by vm_compute. Qed.

Lemma C1_witness :
  ∃ w1 w2 key d2,
    move_to_recycle "/tmp/a.txt" 1700 fresh_store = (w1, Ok key) ∧
    restore_from_recycle key None w1
    = (w2, Ok (true, Literal "Restored")) ∧
    file_content w2 "/tmp/a.txt" = Some "hi" ∧
    path_exists w2 (path_str (joinpath RECYCLE_DIR key)) = false ∧
    load_recycle_index w2 = (w2, Ok (PDict d2)) ∧
    dict_get d2 key = None.
Proof.
  apply (C1_move_then_restore fresh_store [] "/tmp/a.txt" 1700 "hi");
    by vm_compute.
Defined.

(** Claim C1 fails when the path is the index document itself: an empty
    index document, moved and restored, is left with the text of an
    empty mapping. *)
Lemma C1_counterexample :
  let p := "D:/CinnaOS/recycle_bin/index.json" in
  let w := store_with "" in
  let w1 := (move_to_recycle p 1700 w).1 in
  let r := restore_from_recycle "1700_index.json" None w1 in
  file_content w p = Some "" ∧
  move_to_recycle p 1700 w = (w1, Ok "1700_index.json") ∧
  r.2 = Ok (true, Literal "Restored") ∧
  file_content r.1 p = Some "{}" ∧
  file_content r.1 p ≠ Some "".
Proof. by vm_compute. Qed.

(** The same happens in a store that only its own operations have
    touched: the index document of a fresh store, moved twice within one
    second and then restored, comes back as the text of an empty
    mapping, not as the bytes it had before the second move. *)
Example index_moved_twice :
  let p := "D:/CinnaOS/recycle_bin/index.json" in
  let w := (move_to_recycle p 1700 fresh_store).1 in
  let w1 := (move_to_recycle p 1700 w).1 in
  let r := restore_from_recycle "1700_index.json" None w1 in
  move_to_recycle p 1700 w = (w1, Ok "1700_index.json") ∧
  r.2 = Ok (true, Literal "Restored") ∧
  file_content r.1 p = Some "{}" ∧
  file_content r.1 p ≠ file_content w p.
Proof. by vm_compute. Qed.

(** Claim C2 fails for a text that is JSON but not a mapping: the list
    [[]] is returned as it is. *)
Lemma C2_counterexample :
  let w := store_with "[]" in
  index_text w = Some "[]" ∧
  json_loads "[]" = Some (PList []) ∧
  load_recycle_index w = (w, Ok (PList [])) ∧
  (load_recycle_index w).2 ≠ Ok (PDict []).
Proof. by vm_compute. Qed.

(** What a list in the index document does to the callers of
    [load_recycle_index]: they raise. *)
Example non_mapping_index_raises :
  let w := store_with "[]" in
  (move_to_recycle "/tmp/a.txt" 1700 w).2 = Raise TypeError ∧
  (empty_recycle w).2 = Raise AttributeError.
Proof. by vm_compute. Qed.

Lemma C3_witness :
  restore_from_recycle "5_b.txt" None lost_store
  = (lost_store, Ok (false, StrOf (OSError ENOENT))) ∧
  load_recycle_index lost_store
  = (lost_store, Ok (PDict [("5_b.txt", lost_entry)])).
Proof.
  apply (C3_restore_failure_keeps_index lost_store
           [("5_b.txt", lost_entry)] "5_b.txt" lost_entry None);
    by vm_compute.
Defined.

Lemma C4_witness :
  restore_from_recycle "1700_a.txt" (Some "/tmp/c.txt") fresh_store
  = (fresh_store, Ok (false, Literal "Not found")).
Proof.
  apply (C4_restore_unknown_key fresh_store []); by vm_compute.
Defined.

Lemma C5_witness :
  ∃ w d w',
    move_all [("/tmp/a.txt", 1700); ("/tmp", 1701)] fresh_store
    = (w, Ok tt) ∧
    load_recycle_index w = (w, Ok (PDict d)) ∧
    empty_recycle w = (w', Ok true) ∧
    load_recycle_index w' = (w', Ok (PDict [])) ∧
    ∀ k e p, dict_get d k = Some e → py_get e "saved" = Ok (PStr p) →
             isfile w' p = false.
Proof.
  apply (C5_empty_after_moves fresh_store []);
    [by vm_compute|by vm_compute|constructor].
Defined.

Lemma C6_witness :
  let w1 := (empty_recycle lost_store).1 in
  empty_recycle w1 = (w1, Ok true) ∧
  load_recycle_index w1 = (w1, Ok (PDict [])).
Proof.
  apply (C6_empty_recycle_twice lost_store _ true). by vm_compute.
Defined.


(** In the blocked store the copy does raise, and the entry that is
    recorded says so. *)
Example C7_copy_fails :
  isfile blocked_store "/tmp/a.txt" = true ∧
  copy_bytes "/tmp/a.txt" "D:/CinnaOS/recycle_bin/1700_a.txt" blocked_store
  = (blocked_store, Raise (OSError EISDIR)) ∧
  (let* _ := move_to_recycle "/tmp/a.txt" 1700 in load_recycle_index)
    blocked_store
  = ((move_to_recycle "/tmp/a.txt" 1700 blocked_store).1,
     Ok (PDict [("1700_a.txt", entry "/tmp/a.txt" "error" PNone)])).
Proof. by vm_compute. Qed.

(** Without the archive directory the copy raises as well and the same
    key is returned, but the index cannot be written. *)
Example move_without_archive :
  ¬ store_ready bare_world ∧
  move_to_recycle "/tmp/a.txt" 1700 bare_world
  = (bare_world, Ok "1700_a.txt") ∧
  load_recycle_index bare_world = (bare_world, Ok (PDict [])).
Proof.
  split; [|by vm_compute]. intros [Hd _]. by vm_compute in Hd.
Qed.

Lemma C8_witness :
  let key := recycle_key 1700 "/tmp" in
  let e := entry (abspath fresh_store "/tmp") "unknown" PNone in
  py_getitem e "orig" = Ok (PStr (abspath fresh_store "/tmp")) ∧
  py_getitem e "type" = Ok (PStr "unknown") ∧
  py_getitem e "saved" = Ok PNone ∧
  ∃ w1 w2,
    move_to_recycle "/tmp" 1700 fresh_store = (w1, Ok key) ∧
    load_recycle_index w1 = (w1, Ok (PDict (dict_set [] key e))) ∧
    nodes w1 =
      <[index_loc fresh_store :=
          File (json_dumps (PDict (dict_set [] key e)))]>
        (nodes fresh_store) ∧
    restore_from_recycle key None w1
    = (w2, Ok (true, Literal "Restored")) ∧
    load_recycle_index w2
    = (w2, Ok (PDict (dict_del (dict_set [] key e) key))) ∧
    dict_get (dict_del (dict_set [] key e) key) key = None ∧
    nodes w2 =
      <[index_loc fresh_store :=
          File (json_dumps (PDict (dict_del (dict_set [] key e) key)))]>
        (nodes fresh_store).
Proof.
  apply (C8_not_a_file_is_only_logged fresh_store [] "/tmp" 1700 None);
    by vm_compute.
Defined.

Lemma C9_witness :
  ∃ w1 w2 key e1 e2,
    move_to_recycle "/tmp/a.txt" 1700 fresh_store = (w1, Ok key) ∧
    move_to_recycle "/home/a.txt" 1700 w1 = (w2, Ok key) ∧
    load_recycle_index w1 = (w1, Ok (PDict (dict_set [] key e1))) ∧
    load_recycle_index w2 = (w2, Ok (PDict (dict_set [] key e2))) ∧
    py_getitem e2 "orig" = Ok (PStr (abspath fresh_store "/home/a.txt")).
Proof.
  apply (C9_same_second_same_name fresh_store [] "/tmp/a.txt" "/home/a.txt"
           1700); by vm_compute.
Defined.


(** With the working directory gone a path that is not absolute cannot be
    made absolute, and the deletion raises; an absolute path still gets
    its key. *)
Example move_without_working_directory :
  load_recycle_index adrift_world = (adrift_world, Ok (PDict [])) ∧
  move_to_recycle "x/" 1700 adrift_world
  = (adrift_world, Raise (OSError ENOENT)) ∧
  (move_to_recycle "/tmp/" 1700 adrift_world).2 = Ok "1700_unknown".
Proof. by vm_compute. Qed.

(** * Further properties of the store *)

Section MoreStoreProofs.
Context `{JsonCodec}.

Lemma index_doc_saved_ready w idx :
  store_ready w → val_wf idx = true → index_doc (saved_world w idx) = idx.
Proof.
  intros Hr Hwf. pose proof Hr as [Hd Hi].
  rewrite saved_world_ready by done.
  rewrite index_doc_ready.
  - change (index_loc (with_nodes w _)) with (index_loc w).
    cbn [nodes with_nodes]. rewrite lookup_insert_eq. by rewrite loads_dumps.
  - change (archive_loc (with_nodes w _)) with (archive_loc w).
    cbn [nodes with_nodes]. rewrite is_dir_insert_file; done.
Qed.

Lemma archived_wf v : archived v → val_wf v = true.
Proof.
  intros (o & k & s & -> & [->|(key & _ & _ & ->)]); by apply entry_wf.
Qed.

Lemma archived_dict_wf d :
  NoDup (map fst d) → Forall (λ kv, archived kv.2) d →
  val_wf (PDict d) = true.
Proof.
  intros Hnd Ha. simpl. apply andb_true_intro. split.
  - by apply bool_decide_eq_true.
  - apply forallb_forall. intros kv Hin.
    apply archived_wf. rewrite Forall_forall in Ha. apply Ha.
    by apply list_elem_of_In.
Qed.

(** In a ready store, an index as the store builds it (a mapping with
    one binding per key, whose values are entries as [move_to_recycle]
    writes them) is what [load_recycle_index] returns after
    [save_recycle_index] has written it. *)
Theorem save_then_load w d :
  store_ready w →
  NoDup (map fst d) →
  Forall (λ kv, archived kv.2) d →
  (run save_recycle_index (PDict d) then load_recycle_index) w
  = ((save_recycle_index (PDict d) w).1, Ok (PDict d)).
Proof.
  intros Hr Hnd Ha. unfold bind. rewrite save_spec. simpl fst.
  cbn match. rewrite load_spec, index_doc_saved_ready; [done..|].
  by apply archived_dict_wf.
Qed.

(** [save_recycle_index] never raises, keeps every directory and changes
    no node but the index document. *)
Theorem save_touches_index_only idx w :
  ∃ w1,
    save_recycle_index idx w = (w1, Ok tt) ∧ same_dirs w w1 ∧
    ∀ l, l ≠ index_loc w → nodes w1 !! l = nodes w !! l.
Proof.
  rewrite save_spec. eexists. split; [done|]. split; [apply same_dirs_saved|].
  intros l Hl.
  destruct (saved_world_cases w idx) as [(l' & Hres & _ & _ & ->)|[-> _]];
    [|done].
  apply resolve_index_inv in Hres as [-> _]. simpl.
  by rewrite lookup_insert_ne.
Qed.

Lemma archive_item_file w path key l b :
  plain_name key = true → key ≠ basename path →
  is_dir (nodes w) (archive_loc w) = true →
  resolve w path = Ok l → node_at (nodes w) l = Some (File b) →
  nodes w !! slot_loc w key ≠ Some Dir →
  archive_item path key w
  = (with_nodes w (delete l (<[slot_loc w key := File b]> (nodes w))),
     entry (abspath w path) "file" (PStr (slot_str key))).
Proof.
  intros Hplain Hkey Harch Hres Hb HS.
  destruct (resolve_file _ _ _ _ Hres Hb) as (HL & _).
  assert (l ≠ slot_loc w key) as HlS.
  { rewrite HL. intros [= Hk _]. by apply Hkey. }
  unfold archive_item.
  assert (isfile w path = true) as -> by (unfold isfile; by rewrite Hres, Hb).
  rewrite (copy_bytes_ok _ _ _ l (slot_loc w key) b);
    [|done|done|by apply resolve_slot|by rewrite node_at_ne|done].
  unfold try_except.
  rewrite (remove_ok _ _ l b); [done|by apply resolve_written|].
  simpl. rewrite node_at_insert by done. by rewrite decide_False.
Qed.

(** Moving a regular file other than the index document: the archived
    copy holds its bytes, nothing is left at the path, and the index
    holds under the key an entry whose type is [file], whose origin is
    the absolute path and whose saved path is the path of the copy. *)
Theorem move_file_archived w d path now b :
  store_ready w →
  load_recycle_index w = (w, Ok (PDict d)) →
  file_content w path = Some b →
  resolve w path ≠ resolve w (path_str RECYCLE_INDEX) →
  path_is_dir w (path_str (joinpath RECYCLE_DIR (recycle_key now path)))
  = false →
  let key := recycle_key now path in
  let saved := path_str (joinpath RECYCLE_DIR key) in
  ∃ w1,
    move_to_recycle path now w = (w1, Ok key) ∧
    file_content w1 saved = Some b ∧
    path_exists w1 path = false ∧
    load_recycle_index w1
    = (w1, Ok (PDict (dict_set d key
                        (entry (abspath w path) "file" (PStr saved))))) ∧
    ∃ e,
      dict_get (dict_set d key (entry (abspath w path) "file" (PStr saved)))
        key = Some e ∧
      py_getitem e "orig" = Ok (PStr (abspath w path)) ∧
      py_getitem e "type" = Ok (PStr "file") ∧
      py_getitem e "saved" = Ok (PStr saved).
Proof.
  intros Hready. rewrite load_spec. intros [= Hd] Hfc Hnidx Hslot. cbv zeta.
  set (key := recycle_key now path) in *.
  fold (slot_str key) in Hslot |- *. fold index_str in Hnidx.
  pose proof (recycle_key_plain now path) as Hplain. fold key in Hplain.
  pose proof Hready as [Harch Hidx].
  unfold file_content in Hfc.
  destruct (resolve w path) as [l|x] eqn:Hres; [|done].
  destruct (node_at (nodes w) l) as [[t|]|] eqn:Hb; [|done..].
  injection Hfc as ->.
  destruct (resolve_file _ _ _ _ Hres Hb) as (HL & _).
  assert (l ≠ []) as Hlnil by (by intros ->).
  assert (l ≠ slot_loc w key) as HlS.
  { rewrite HL. intros [= Hk _].
    by apply (recycle_key_not_basename now path). }
  assert (l ≠ index_loc w) as HlI.
  { intros ->. apply Hnidx. by rewrite resolve_index_ready. }
  assert (slot_loc w key ≠ index_loc w) as HSI.
  { intros [= Hk]. by apply (recycle_key_not_index now path). }
  assert (nodes w !! slot_loc w key ≠ Some Dir) as HS.
  { intros HS. unfold path_is_dir in Hslot.
    rewrite resolve_slot in Hslot by done.
    assert (is_dir (nodes w) (slot_loc w key) = true); [|congruence].
    by apply is_dir_cons. }
  destruct (move_ready path now w d Hready Hd)
    as (w1 & e & Hm & He & Hready1 & Hs1 & Hd1 & Hn1).
  fold key in Hm, He, Hd1, Hn1.
  pose proof (archive_item_file w path key l b Hplain
                (recycle_key_not_basename now path) Harch Hres Hb HS) as Ha.
  rewrite Ha in He, Hn1. simpl in He, Hn1. subst e.
  exists w1. split_and!; [done|..].
  - unfold file_content.
    rewrite (same_dirs_resolve w w1 _ (slot_loc w key));
      [|done|by apply resolve_slot].
    rewrite node_at_ne, Hn1, lookup_insert_ne, lookup_delete_ne by done.
    by rewrite lookup_insert_eq.
  - unfold path_exists. rewrite (same_dirs_resolve _ _ _ _ Hs1 Hres).
    rewrite node_at_ne, Hn1, lookup_insert_ne, lookup_delete_eq by done.
    by rewrite bool_decide_eq_false_2 by by intros [].
  - by rewrite load_spec, Hd1.
  - eexists. split; [apply dict_get_set_eq|done].
Qed.

(** A move keeps the store ready, records its key and leaves the entry
    of every other key as it was. *)
Theorem move_keeps_other_entries w d path now k :
  store_ready w →
  load_recycle_index w = (w, Ok (PDict d)) →
  k ≠ recycle_key now path →
  ∃ w1 d1,
    move_to_recycle path now w = (w1, Ok (recycle_key now path)) ∧
    store_ready w1 ∧
    load_recycle_index w1 = (w1, Ok (PDict d1)) ∧
    is_Some (dict_get d1 (recycle_key now path)) ∧
    dict_get d1 k = dict_get d k.
Proof.
  intros Hready. rewrite load_spec. intros [= Hd] Hk.
  destruct (move_ready path now w d Hready Hd)
    as (w1 & e & Hm & _ & Hready1 & _ & Hd1 & _).
  exists w1, (dict_set d (recycle_key now path) e). split_and!; [done|done|..].
  - by rewrite load_spec, Hd1.
  - by rewrite dict_get_set_eq.
  - by apply dict_get_set_ne.
Qed.

(** Whatever the path, the archived copy goes directly into the archive
    directory and is never the index document. *)
Theorem archived_copy_inside_archive now path :
  parent (joinpath RECYCLE_DIR (recycle_key now path)) = RECYCLE_DIR ∧
  joinpath RECYCLE_DIR (recycle_key now path) ≠ RECYCLE_INDEX.
Proof.
  rewrite slot_path by apply recycle_key_plain. split; [done|].
  intros [= E]. by apply (recycle_key_not_index now path).
Qed.

Lemma saved_world_other w idx l :
  l ≠ index_loc w → nodes (saved_world w idx) !! l = nodes w !! l.
Proof.
  intros Hl.
  destruct (saved_world_cases w idx) as [(l' & Hres & _ & _ & ->)|[-> _]];
    [|done].
  apply resolve_index_inv in Hres as [-> _]. simpl.
  by rewrite lookup_insert_ne.
Qed.

(** The index document of a store whose index is not empty. *)
Lemma index_file_of_entry w d key e :
  store_ready w → index_doc w = PDict d → dict_get d key = Some e →
  ∃ t, nodes w !! index_loc w = Some (File t).
Proof.
  intros [Hd _] Hi Hk. rewrite index_doc_ready in Hi by done.
  destruct (nodes w !! index_loc w) as [[t|]|]; [by exists t|..];
    injection Hi as <-; done.
Qed.

Lemma extends_ready w w1 t :
  extends w w1 → store_ready w → nodes w !! index_loc w = Some (File t) →
  store_ready w1 ∧ nodes w1 !! index_loc w1 = Some (File t).
Proof.
  intros [Hn Hc] [Hd Hi] Ht.
  assert (index_loc w1 = index_loc w) as HI
    by (unfold index_loc, archive_loc; by rewrite Hc).
  assert (nodes w1 !! index_loc w1 = Some (File t)) as Ht1.
  { rewrite HI. by eapply lookup_weaken. }
  split; [|done]. split.
  - unfold archive_loc. rewrite Hc. by eapply is_dir_mono.
  - by rewrite Ht1.
Qed.

Lemma mkdir_p_extends p w : extends w (mkdir_p p w).1.
Proof. apply mkdir_parents_extends. Qed.

(** [restore_copy] makes directories, then writes one file. *)
Lemma restore_copy_world e tp w :
  ∃ w', extends w w' ∧ same_dirs w' (restore_copy e tp w).1.
Proof.
  assert (∀ saved dest : path,
    ∃ w', extends w w' ∧
          same_dirs w'
            ((let* _ := mkdir_p (parent dest) in
              copy_bytes (path_str saved) (path_str dest)) w).1) as Hcopy.
  { intros saved dest. unfold bind.
    pose proof (mkdir_p_extends (parent dest) w) as He.
    destruct (mkdir_p (parent dest) w) as [w2 [[]|x]]; simpl in He.
    - exists w2. split; [done|]. apply copy_bytes_same_dirs.
    - exists w2. split; [done|]. apply same_dirs_refl. }
  assert (∃ w', extends w w' ∧ same_dirs w' w) as Hsame.
  { exists w. split; [apply extends_refl|apply same_dirs_refl]. }
  unfold restore_copy, bind at 1, lift at 1.
  destruct (py_get e "saved") as [s|x]; [|done].
  destruct (py_truthy s); [|done].
  unfold bind at 1, lift at 1.
  destruct (py_getitem e "saved") as [s1|x]; [|done].
  unfold bind at 1, lift at 1.
  destruct (py_Path s1) as [saved|x]; [|done].
  unfold bind at 1.
  destruct tp as [t|]; [destruct (bool_decide (t = ""))|].
  - destruct ((let* o := lift (py_getitem e "orig") in lift (py_Path o)) w)
      as [w0 [dest|x]] eqn:Ho; apply orig_path_world in Ho as ->;
      [apply Hcopy|done].
  - unfold ret. apply Hcopy.
  - destruct ((let* o := lift (py_getitem e "orig") in lift (py_Path o)) w)
      as [w0 [dest|x]] eqn:Ho; apply orig_path_world in Ho as ->;
      [apply Hcopy|done].
Qed.

Lemma unlink_saved_world e w :
  same_dirs w (unlink_saved e w).1 ∧ files_shrink w (unlink_saved e w).1.
Proof.
  destruct e as [|b|z|s|l|ed];
    try (split; [apply same_dirs_refl|by intros ???]).
  by destruct (unlink_saved_dict ed w) as (w1 & -> & ? & ? & _).
Qed.

Lemma unlink_saved_result e w :
  (unlink_saved e w).2 = if is_mapping e then Ok tt else Raise AttributeError.
Proof.
  destruct e as [|b|z|s|l|ed]; try done.
  by destruct (unlink_saved_dict ed w) as (w1 & -> & _).
Qed.

Lemma for_each_unlink_world d w :
  same_dirs w (for_each d unlink_saved w).1 ∧
  files_shrink w (for_each d unlink_saved w).1.
Proof.
  revert w. induction d as [|[k e] d IH]; intros w.
  { split; [apply same_dirs_refl|by intros ???]. }
  simpl. unfold bind.
  destruct (unlink_saved_world e w) as [Hs Hf].
  destruct (unlink_saved e w) as [w1 [[]|x]]; [|done].
  destruct (IH w1) as [Hs1 Hf1]. simpl in *. split.
  - by eapply same_dirs_trans.
  - by eapply files_shrink_trans.
Qed.

Lemma for_each_unlink_result d w :
  (for_each d unlink_saved w).2 =
  if forallb (λ kv, is_mapping kv.2) d then Ok tt else Raise AttributeError.
Proof.
  revert w. induction d as [|[k e] d IH]; intros w; [done|].
  simpl. unfold bind. pose proof (unlink_saved_result e w) as Hr.
  destruct (unlink_saved e w) as [w1 [[]|x]]; simpl in Hr.
  - destruct (is_mapping e); [|done]. simpl. apply IH.
  - destruct (is_mapping e); [done|]. simpl. done.
Qed.

(** ** Restoring *)

Lemma restore_ok_index w d key tp w1 msg :
  store_ready w → index_doc w = PDict d →
  restore_from_recycle key tp w = (w1, Ok (true, msg)) →
  store_ready w1 ∧ index_doc w1 = PDict (dict_del d key).
Proof.
  intros Hready Hd Hres.
  assert (val_wf (PDict d) = true) as Hwf by (rewrite <- Hd; apply index_doc_wf).
  destruct (dict_get d key) as [e|] eqn:Hk;
    [|by rewrite (restore_missing _ _ _ _ Hd Hk) in Hres].
  rewrite (restore_spec _ _ _ _ _ Hd Hk) in Hres.
  destruct (index_file_of_entry _ _ _ _ Hready Hd Hk) as [t Ht].
  destruct (restore_copy_world e tp w) as (w' & Hext & Hs1).
  destruct (restore_copy e tp w) as [w2 [[]|x]]; [|done].
  destruct (unlink_saved_world e w2) as [Hs2 _].
  destruct (unlink_saved e w2) as [w3 [[]|x]]; [|done].
  injection Hres as <- _. simpl in *.
  destruct (extends_ready _ _ _ Hext Hready Ht) as [Hready' _].
  assert (store_ready w3) as Hready3.
  { eapply same_dirs_ready; [|exact Hready'].
    by eapply same_dirs_trans. }
  split.
  - eapply same_dirs_ready; [apply same_dirs_saved|done].
  - apply index_doc_saved_ready; [done|by apply dict_del_wf].
Qed.

(** When [restore_from_recycle] returns [True], the index has lost the
    key and nothing else. *)
Theorem restore_drops_only_key w d key target_path w1 msg :
  store_ready w →
  load_recycle_index w = (w, Ok (PDict d)) →
  restore_from_recycle key target_path w = (w1, Ok (true, msg)) →
  load_recycle_index w1 = (w1, Ok (PDict (dict_del d key))) ∧
  dict_get (dict_del d key) key = None ∧
  ∀ k, k ≠ key → dict_get (dict_del d key) k = dict_get d k.
Proof.
  intros Hready. rewrite load_spec. intros [= Hd] Hres.
  assert (val_wf (PDict d) = true) as Hwf by (rewrite <- Hd; apply index_doc_wf).
  split_and!;
    [|by apply dict_get_del_eq, dict_wf_nodup
     |by intros k Hk; apply dict_get_del_ne].
  rewrite load_spec.
  by destruct (restore_ok_index _ _ _ _ _ _ Hready Hd Hres) as [_ ->].
Qed.

(** ** Emptying *)

Lemma empty_ok_index w w1 r :
  empty_recycle w = (w1, Ok r) → index_doc w1 = PDict [].
Proof.
  intros (d & w' & _ & _ & -> & _)%empty_inv.
  by destruct (index_doc_saved w' (PDict []) eq_refl) as [?|[-> ?]].
Qed.

(** With an index that is a mapping, [empty_recycle] returns [True]
    exactly when every value is a mapping; otherwise it raises
    [AttributeError]. *)
Theorem empty_recycle_result w d :
  load_recycle_index w = (w, Ok (PDict d)) →
  (empty_recycle w).2 =
  if forallb (λ kv, is_mapping kv.2) d then Ok true
  else Raise AttributeError.
Proof.
  rewrite load_spec. intros [= Hd]. rewrite (empty_spec _ _ Hd).
  pose proof (for_each_unlink_result d w) as Hr.
  destruct (for_each d unlink_saved w) as [w1 [[]|x]]; simpl in Hr.
  all: destruct (forallb _ d); simpl; congruence.
Qed.

(** [empty_recycle] keeps every directory and creates no file but the
    index document. *)
Theorem empty_recycle_only_removes w w1 r :
  empty_recycle w = (w1, r) →
  same_dirs w w1 ∧
  ∀ x b, x ≠ index_loc w →
         nodes w1 !! x = Some (File b) → nodes w !! x = Some (File b).
Proof.
  destruct (index_doc w) as [|b|z|s|l|d] eqn:Hd;
    try (unfold empty_recycle, bind at 1; rewrite load_spec, Hd;
         unfold bind, lift; simpl; intros [= <- _];
         split; [apply same_dirs_refl|done]).
  rewrite (empty_spec _ _ Hd).
  destruct (for_each_unlink_world d w) as [Hs Hf].
  destruct (for_each d unlink_saved w) as [w2 [[]|x]]; simpl in *;
    intros [= <- _]; [|by split; [|intros x0 b _; apply Hf]].
  split.
  - eapply same_dirs_trans; [done|apply same_dirs_saved].
  - intros x b Hx. rewrite saved_world_other; [apply Hf|].
    unfold index_loc, archive_loc. by rewrite (proj1 Hs).
Qed.

(** ** An index that is not a mapping *)

(** An index that is not the empty mapping was read from the index
    document, so the working directory exists. *)
Lemma index_doc_cwd w :
  index_doc w ≠ PDict [] → is_dir (nodes w) (cwd w) = true.
Proof.
  unfold index_doc. destruct (resolve w index_str) as [l|x] eqn:Hl; [|done].
  intros _. apply resolve_index_inv in Hl as [_ Hd].
  by apply (is_dir_app _ ["recycle_bin"; "CinnaOS"; "D:"]).
Qed.

(** With an index that is not a mapping the entry cannot be recorded:
    the [try] block is run, and the assignment raises in the handler. *)
Lemma move_non_mapping path now w v :
  index_doc w = v → is_mapping v = false →
  move_to_recycle path now w
  = ((archive_item path (recycle_key now path) w).1, Raise TypeError).
Proof.
  intros Hd Hv.
  assert (isabs path = true ∨ is_dir (nodes w) (cwd w) = true) as Hp.
  { right. apply index_doc_cwd. rewrite Hd. by destruct v. }
  unfold move_to_recycle, archive_item, bind at 1.
  rewrite load_spec, Hd. fold (slot_str (recycle_key now path)).
  assert (∀ k x, py_setitem v k x = Raise TypeError) as Hset
    by (intros; by destruct v).
  unfold bind at 1. unfold try_except at 1. unfold bind at 1, os_isfile.
  destruct (isfile w path).
  - unfold bind at 1.
    pose proof (copy_bytes_same_dirs path (slot_str (recycle_key now path)) w)
      as Hc.
    destruct (copy_bytes path (slot_str (recycle_key now path)) w)
      as [w1 [[]|e]]; simpl in Hc.
    + unfold bind at 1. pose proof (remove_same_dirs path w1) as Hr.
      unfold try_except at 1 2.
      destruct (remove path w1) as [w2 [[]|e]]; simpl in Hr;
        unfold ret at 1; unfold bind at 1;
        rewrite (os_abspath_same_dirs path w w2)
          by (try done; by eapply same_dirs_trans);
        rewrite Hset; unfold lift at 1; unfold bind at 1;
        rewrite (os_abspath_same_dirs path w w2)
          by (try done; by eapply same_dirs_trans);
        unfold lift; by rewrite Hset.
    + unfold bind at 1.
      rewrite (os_abspath_same_dirs path w w1) by done.
      unfold lift. by rewrite Hset.
  - unfold bind at 1. rewrite (os_abspath_ok path w) by done.
    rewrite Hset. unfold lift at 1. unfold bind at 1.
    rewrite (os_abspath_ok path w) by done.
    unfold lift. by rewrite Hset.
Qed.

(** With an index that is JSON but not a mapping, [move_to_recycle]
    raises [TypeError], [empty_recycle] raises [AttributeError] and
    changes nothing, and [restore_from_recycle] never restores. *)
Theorem non_mapping_index_fails w v path now key target_path :
  load_recycle_index w = (w, Ok v) →
  is_mapping v = false →
  (move_to_recycle path now w).2 = Raise TypeError ∧
  empty_recycle w = (w, Raise AttributeError) ∧
  (restore_from_recycle key target_path w
   = (w, Ok (false, Literal "Not found")) ∨
   restore_from_recycle key target_path w = (w, Raise TypeError)).
Proof.
  intros Hl Hv. split_and!.
  - pose proof Hl as Hd. rewrite load_spec in Hd. injection Hd as Hd.
    by rewrite (move_non_mapping path now w v Hd Hv).
  - unfold empty_recycle, bind at 1. rewrite Hl. unfold bind, lift.
    by destruct v.
  - destruct (restore_from_recycle key target_path w) as [w1 r] eqn:Hr.
    revert Hr. unfold restore_from_recycle, bind at 1. rewrite Hl.
    unfold bind, lift, ret.
    destruct v as [|b|z|s|l|d]; simpl; try done;
      try (intros [= <- <-]; by right).
    + destruct (substring_of key s); simpl; intros [= <- <-]; auto.
    + destruct (existsb _ l); simpl; intros [= <- <-]; auto.
Qed.

Lemma walk_tail_dir m cur cs l :
  cs ≠ [] → walk m cur cs = Ok l → is_dir m (tail l) = true.
Proof.
  intros Hne Hw. destruct (exists_last Hne) as (init & c & ->).
  rewrite walk_app in Hw.
  destruct (walk m cur init) as [cur'|] eqn:Hi; [|done].
  simpl in Hw. destruct (is_dir m cur') eqn:Hd; [|done].
  injection Hw as <-. unfold step. repeat case_decide.
  - by apply is_dir_tail.
  - by apply is_dir_tail, is_dir_tail.
  - done.
Qed.

Lemma resolve_tail_dir w p l :
  resolve w p = Ok l → is_dir (nodes w) (tail l) = true.
Proof.
  unfold resolve. case_decide; [done|].
  apply walk_tail_dir, split_nonempty.
Qed.

Lemma os_mkdir_ok p w w1 :
  os_mkdir p w = (w1, Ok tt) → path_is_dir w1 p = true.
Proof.
  unfold os_mkdir. destruct (resolve w p) as [l|e] eqn:Hr; [|done].
  destruct (node_at (nodes w) l) as [n|] eqn:Hn; [done|].
  intros [= <-]. destruct l as [|c up]; [done|]. simpl in Hn.
  assert (nodes w ⊆ <[c :: up := Dir]> (nodes w)) as Hsub
    by by apply insert_subseteq.
  unfold path_is_dir.
  rewrite (resolve_with_nodes w _ p (c :: up)); [|intros x; by apply is_dir_mono|done].
  cbn [nodes with_nodes]. apply is_dir_cons. split; [apply lookup_insert_eq|].
  apply (is_dir_mono _ _ _ Hsub). by apply (resolve_tail_dir w p (c :: up)).
Qed.

Lemma mkdir_exist_ok_ok p w w1 :
  mkdir_exist_ok p w = (w1, Ok tt) → path_is_dir w1 (path_str p) = true.
Proof.
  unfold mkdir_exist_ok, try_except.
  destruct (os_mkdir (path_str p) w) as [w2 [[]|e]] eqn:Hm.
  - intros [= <-]. by apply os_mkdir_ok in Hm.
  - destruct e as [[]| | | |]; try done;
      destruct (path_is_dir w2 (path_str p)) eqn:Hd; try done;
      by intros [= <-].
Qed.

Lemma mkdir_parents_ok r rparts w w1 :
  mkdir_parents r rparts w = (w1, Ok tt) →
  path_is_dir w1 (path_str (MkPath r (reverse rparts))) = true.
Proof.
  destruct rparts as [|c up]; simpl; unfold try_except.
  - destruct (os_mkdir _ w) as [w2 [[]|e]] eqn:Hm.
    + intros [= <-]. by apply os_mkdir_ok in Hm.
    + destruct e as [[]| | | |]; try done;
        destruct (path_is_dir w2 _) eqn:Hd; try done; by intros [= <-].
  - destruct (os_mkdir _ w) as [w2 [[]|e]] eqn:Hm.
    + intros [= <-]. by apply os_mkdir_ok in Hm.
    + destruct e as [[]| | | |]; try done;
        try (destruct (path_is_dir w2 _) eqn:Hd; try done; by intros [= <-]).
      unfold bind. destruct (mkdir_parents r up w2) as [w3 [[]|e]]; [|done].
      apply mkdir_exist_ok_ok.
Qed.

Lemma mkdir_p_ok p w w1 :
  mkdir_p p w = (w1, Ok tt) → path_is_dir w1 (path_str p) = true.
Proof.
  unfold mkdir_p. intros Hm%mkdir_parents_ok.
  rewrite reverse_involutive in Hm. by destruct p.
Qed.

Lemma path_is_dir_index_dir w :
  path_is_dir w (path_str RECYCLE_DIR) = is_dir (nodes w) (archive_loc w).
Proof.
  unfold path_is_dir, resolve, archive_loc.
  change (path_str RECYCLE_DIR) with "D:/CinnaOS/recycle_bin".
  rewrite decide_False by done. change (isabs _) with false. cbv iota.
  change (split _) with ["D:"; "CinnaOS"; "recycle_bin"].
  cbn [walk]. change (step ?c "D:") with ("D:" :: c).
  change (step ?c "CinnaOS") with ("CinnaOS" :: c).
  change (step ?c "recycle_bin") with ("recycle_bin" :: c).
  destruct (is_dir (nodes w) ("recycle_bin" :: "CinnaOS" :: "D:" :: cwd w))
    eqn:Hd.
  - pose proof (is_dir_tail _ _ Hd) as Hd1. simpl tail in Hd1.
    pose proof (is_dir_tail _ _ Hd1) as Hd2. simpl tail in Hd2.
    pose proof (is_dir_tail _ _ Hd2) as Hd3. simpl tail in Hd3.
    by rewrite Hd3, Hd2, Hd1.
  - repeat case_match; simplify_eq; done.
Qed.

Lemma module_init_eq w :
  module_init w =
  match mkdir_p RECYCLE_DIR w with
  | (w1, Ok _) => init_index w1
  | (w1, Raise e) => (w1, Raise e)
  end.
Proof. unfold module_init, bind. by destruct (mkdir_p _ w) as [w1 [[]|e]]. Qed.

Lemma init_index_cases w w1 r :
  is_dir (nodes w) (archive_loc w) = true →
  init_index w = (w1, r) →
  (w1 = w ∧ r = Ok tt ∧ is_Some (nodes w !! index_loc w)) ∨
  (w1 = with_nodes w (<[index_loc w := File (json_dumps (PDict []))]> (nodes w))
   ∧ r = Ok tt ∧ nodes w !! index_loc w = None).
Proof.
  intros Hd. unfold init_index, path_exists, write_text, bind, open_wb,
    write_at. fold index_str. rewrite resolve_index_ready by done.
  destruct (node_at (nodes w) (index_loc w)) as [n|] eqn:Hn;
    rewrite node_at_ne in Hn by done.
  - rewrite bool_decide_eq_true_2 by eauto.
    intros [= <- <-]. left. eauto.
  - rewrite bool_decide_eq_false_2 by (by intros []). simpl.
    rewrite with_nodes_twice, insert_insert_eq. intros [= <- <-]. by right.
Qed.


Lemma only_adds_dirs_refl w : only_adds_dirs w w.
Proof. split; [done|]. by left. Qed.

Lemma only_adds_dirs_trans w1 w2 w3 :
  only_adds_dirs w1 w2 → only_adds_dirs w2 w3 → only_adds_dirs w1 w3.
Proof.
  intros [Hc1 Hn1] [Hc2 Hn2]. split; [by rewrite Hc2|]. intros x.
  destruct (Hn1 x) as [E1|[E1 D1]], (Hn2 x) as [E2|[E2 D2]].
  - left. by rewrite E2.
  - right. by rewrite <- E1.
  - right. by rewrite E2.
  - right. done.
Qed.

Lemma only_adds_dirs_extends w w1 : only_adds_dirs w w1 → extends w w1.
Proof.
  intros [Hc Hn]. split; [|done]. apply map_subseteq_spec. intros x n Hx.
  destruct (Hn x) as [E|[E _]]; congruence.
Qed.

Lemma os_mkdir_adds p w : only_adds_dirs w (os_mkdir p w).1.
Proof.
  unfold os_mkdir.
  destruct (resolve w p) as [l|e]; [|apply only_adds_dirs_refl].
  destruct (node_at (nodes w) l) as [n|] eqn:Hn; [apply only_adds_dirs_refl|].
  split; [done|]. intros x. simpl. destruct l as [|c up]; [done|].
  simpl in Hn. destruct (decide (c :: up = x)) as [<-|Hne].
  - right. by rewrite lookup_insert_eq.
  - left. by rewrite lookup_insert_ne.
Qed.

Lemma mkdir_exist_ok_adds p w : only_adds_dirs w (mkdir_exist_ok p w).1.
Proof.
  unfold mkdir_exist_ok, try_except.
  pose proof (os_mkdir_adds (path_str p) w) as He.
  destruct (os_mkdir (path_str p) w) as [w1 [[]|e]]; [done|].
  simpl in He. by repeat case_match.
Qed.

Lemma mkdir_parents_adds r rparts w :
  only_adds_dirs w (mkdir_parents r rparts w).1.
Proof.
  revert w. induction rparts as [|c up IH]; intros w; simpl;
    unfold try_except.
  - pose proof (os_mkdir_adds (path_str (MkPath r (reverse []))) w) as H0.
    destruct (os_mkdir _ w) as [w1 [[]|e]]; [done|]. simpl in *.
    by repeat case_match.
  - pose proof (os_mkdir_adds (path_str (MkPath r (reverse (c :: up)))) w)
      as H1.
    destruct (os_mkdir _ w) as [w1 [[]|e]]; [done|]. simpl in H1.
    destruct e as [[]| | | |]; try done;
      try by destruct (path_is_dir w1 _).
    unfold bind. pose proof (IH w1) as H2.
    destruct (mkdir_parents r up w1) as [w2 [[]|e]]; simpl in H2.
    + pose proof (mkdir_exist_ok_adds (MkPath r (reverse (c :: up))) w2)
        as H3.
      destruct (mkdir_exist_ok _ w2) as [w3 r3]. simpl in *.
      eapply only_adds_dirs_trans; [done|].
      by eapply only_adds_dirs_trans.
    + simpl. by eapply only_adds_dirs_trans.
Qed.

(** Loading the module removes and overwrites nothing: it adds
    directories and, where none was, the index document with the text of
    the empty mapping. *)
Theorem module_init_only_adds w w1 r :
  module_init w = (w1, r) →
  cwd w1 = cwd w ∧
  ∀ x, nodes w1 !! x = nodes w !! x ∨
       (nodes w !! x = None ∧
        (nodes w1 !! x = Some Dir ∨
         x = index_loc w ∧
         nodes w1 !! x = Some (File (json_dumps (PDict []))))).
Proof.
  rewrite module_init_eq.
  pose proof (mkdir_parents_adds (rooted RECYCLE_DIR)
                (reverse (parts RECYCLE_DIR)) w) as [Hc Hn].
  fold (mkdir_p RECYCLE_DIR) in Hc, Hn.
  destruct (mkdir_p RECYCLE_DIR w) as [w0 [[]|e]] eqn:Hm; simpl in Hc, Hn.
  2: { intros [= <- _]. split; [done|]. intros x.
       destruct (Hn x) as [?|[? ?]]; eauto. }
  apply mkdir_p_ok in Hm. rewrite path_is_dir_index_dir in Hm.
  intros Hi. apply init_index_cases in Hi; [|done].
  assert (index_loc w0 = index_loc w) as HI
    by (unfold index_loc, archive_loc; by rewrite Hc).
  destruct Hi as [(-> & _)|(-> & _ & Hnone)].
  - split; [done|]. intros x. destruct (Hn x) as [?|[? ?]]; eauto.
  - split; [done|]. intros x. cbn [nodes with_nodes].
    destruct (decide (index_loc w0 = x)) as [<-|Hne].
    + rewrite lookup_insert_eq. right. rewrite HI. split; [|by right].
      destruct (Hn (index_loc w0)) as [E|[_ E]]; congruence.
    + rewrite lookup_insert_ne by done.
      destruct (Hn x) as [?|[? ?]]; eauto.
Qed.

(** When the module has loaded, the archive directory and the index
    document exist, an index that was missing loads as the empty
    mapping, and loading the module again changes nothing. *)
Theorem module_init_makes_store w w1 :
  module_init w = (w1, Ok tt) →
  path_is_dir w1 (path_str RECYCLE_DIR) = true ∧
  path_exists w1 (path_str RECYCLE_INDEX) = true ∧
  (nodes w !! index_loc w = None →
   load_recycle_index w1 = (w1, Ok (PDict []))) ∧
  module_init w1 = (w1, Ok tt).
Proof.
  rewrite module_init_eq.
  pose proof (mkdir_parents_adds (rooted RECYCLE_DIR)
                (reverse (parts RECYCLE_DIR)) w) as [Hc Hn].
  fold (mkdir_p RECYCLE_DIR) in Hc, Hn.
  destruct (mkdir_p RECYCLE_DIR w) as [w0 [[]|e]] eqn:Hm; [|done].
  simpl in Hc, Hn. apply mkdir_p_ok in Hm.
  rewrite path_is_dir_index_dir in Hm. intros Hi.
  assert (index_loc w0 = index_loc w) as HI
    by (unfold index_loc, archive_loc; by rewrite Hc).
  assert (is_dir (nodes w1) (archive_loc w1) = true
          ∧ is_Some (nodes w1 !! index_loc w1)
          ∧ (nodes w0 !! index_loc w0 = None →
             nodes w1 !! index_loc w1 = Some (File (json_dumps (PDict [])))))
    as (Hd1 & Hi1 & Hnew).
  { apply init_index_cases in Hi; [|done].
    destruct Hi as [(-> & _ & Hs)|(-> & _ & Hnone)].
    - split_and!; [done|done|]. intros Hnone. rewrite Hnone in Hs.
      by destruct Hs.
    - change (archive_loc (with_nodes w0 _)) with (archive_loc w0).
      change (index_loc (with_nodes w0 _)) with (index_loc w0).
      cbn [nodes with_nodes]. rewrite lookup_insert_eq.
      rewrite is_dir_insert_file by by rewrite Hnone. eauto. }
  assert (path_exists w1 (path_str RECYCLE_INDEX) = true) as Hex.
  { unfold path_exists. fold index_str. rewrite resolve_index_ready by done.
    rewrite node_at_ne by done. by apply bool_decide_eq_true_2. }
  split_and!.
  - by rewrite path_is_dir_index_dir.
  - done.
  - intros Hnone. rewrite load_spec. do 2 f_equal.
    rewrite index_doc_ready by done.
    destruct (Hn (index_loc w)) as [E|[_ E]]; rewrite <- HI in E.
    + rewrite Hnew by (by rewrite E, HI). by rewrite loads_dumps.
    + apply init_index_cases in Hi; [|done].
      destruct Hi as [(-> & _)|(_ & _ & Hnone')]; [by rewrite E|congruence].
  - rewrite module_init_eq.
    assert (mkdir_p RECYCLE_DIR w1 = (w1, Ok tt)) as ->.
    { apply (mkdir_p_existing _ _ (archive_loc w1)); [|done].
      revert Hd1. rewrite <- path_is_dir_index_dir. unfold path_is_dir.
      destruct (resolve w1 (path_str RECYCLE_DIR)) as [l|x] eqn:Hr; [|done].
      intros Hl. f_equal. apply resolve_lexical in Hr. by rewrite Hr. }
    unfold init_index. by rewrite Hex.
Qed.

(** In a ready store whose index is JSON but not a mapping, a regular
    file other than the index document, with no directory standing where
    its archived copy goes, is copied to the archive and removed before
    [TypeError] is raised: the index document is left as it was and does
    not record the file. *)
Theorem move_unrecorded_with_non_mapping_index w v path now b :
  store_ready w →
  load_recycle_index w = (w, Ok v) →
  is_mapping v = false →
  file_content w path = Some b →
  resolve w path ≠ resolve w (path_str RECYCLE_INDEX) →
  path_is_dir w (path_str (joinpath RECYCLE_DIR (recycle_key now path)))
  = false →
  ∃ w1,
    move_to_recycle path now w = (w1, Raise TypeError) ∧
    path_exists w1 path = false ∧
    file_content w1 (path_str (joinpath RECYCLE_DIR (recycle_key now path)))
    = Some b ∧
    load_recycle_index w1 = (w1, Ok v).
Proof.
  intros Hready. rewrite load_spec. intros [= Hd] Hv Hfc Hnidx Hslot.
  set (key := recycle_key now path) in *.
  fold (slot_str key) in Hslot |- *. fold index_str in Hnidx.
  pose proof (recycle_key_plain now path) as Hplain. fold key in Hplain.
  pose proof Hready as [Harch Hidx].
  unfold file_content in Hfc.
  destruct (resolve w path) as [l|x] eqn:Hres; [|done].
  destruct (node_at (nodes w) l) as [[t|]|] eqn:Hb; [|done..].
  injection Hfc as ->.
  destruct (resolve_file _ _ _ _ Hres Hb) as (HL & _).
  assert (l ≠ []) as Hlnil by (by intros ->).
  assert (l ≠ slot_loc w key) as HlS.
  { rewrite HL. intros [= Hk _].
    by apply (recycle_key_not_basename now path). }
  assert (l ≠ index_loc w) as HlI.
  { intros ->. apply Hnidx. by rewrite resolve_index_ready. }
  assert (slot_loc w key ≠ index_loc w) as HSI.
  { intros [= Hk]. by apply (recycle_key_not_index now path). }
  assert (nodes w !! slot_loc w key ≠ Some Dir) as HS.
  { intros HS. unfold path_is_dir in Hslot.
    rewrite resolve_slot in Hslot by done.
    assert (is_dir (nodes w) (slot_loc w key) = true); [|congruence].
    by apply is_dir_cons. }
  rewrite (move_non_mapping path now w v Hd Hv). fold key.
  pose proof (archive_item_same_dirs path key w) as Hs.
  rewrite (archive_item_file w path key l b Hplain
             (recycle_key_not_basename now path) Harch Hres Hb HS) in Hs |- *.
  simpl in Hs |- *. eexists. split; [done|]. split_and!.
  - unfold path_exists. rewrite (same_dirs_resolve _ _ _ _ Hs Hres).
    rewrite node_at_ne by done. cbn [nodes with_nodes].
    rewrite lookup_delete_eq. by rewrite bool_decide_eq_false_2 by by intros [].
  - unfold file_content.
    rewrite (same_dirs_resolve w _ _ (slot_loc w key));
      [|done|by apply resolve_slot].
    rewrite node_at_ne by done. cbn [nodes with_nodes].
    rewrite lookup_delete_ne by done. by rewrite lookup_insert_eq.
  - rewrite load_spec. do 2 f_equal. rewrite <- Hd.
    rewrite !index_doc_ready; [|done|by rewrite (same_dirs_is_dir w)].
    change (index_loc (with_nodes w _)) with (index_loc w).
    cbn [nodes with_nodes].
    by rewrite lookup_delete_ne, lookup_insert_ne by done.
Qed.

(** ** Restoring to a chosen place *)

Lemma lookup_None_ne (m : gmap loc node) l l' :
  m !! l = None → is_Some (m !! l') → l ≠ l'.
Proof. intros Hn Hs ->. rewrite Hn in Hs. by destruct Hs. Qed.

(** Restoring to a target path that does not exist yet, in a directory
    that does: the bytes are written at the target, the archived copy is
    gone, the index has lost the key, and no other node has changed (the
    original path among them). *)
Theorem restore_to_target w d key o kind t l b :
  store_ready w →
  load_recycle_index w = (w, Ok (PDict d)) →
  plain_name key = true → key ≠ "index.json" →
  dict_get d key
  = Some (entry o kind (PStr (path_str (joinpath RECYCLE_DIR key)))) →
  file_content w (path_str (joinpath RECYCLE_DIR key)) = Some b →
  t ≠ "" →
  path_is_dir w (path_str (parent (Path t))) = true →
  resolve w (path_str (Path t)) = Ok l →
  node_at (nodes w) l = None →
  ∃ w1,
    restore_from_recycle key (Some t) w
    = (w1, Ok (true, Literal "Restored")) ∧
    file_content w1 (path_str (Path t)) = Some b ∧
    path_exists w1 (path_str (joinpath RECYCLE_DIR key)) = false ∧
    load_recycle_index w1 = (w1, Ok (PDict (dict_del d key))) ∧
    ∀ x, x ≠ l → x ≠ slot_loc w key → x ≠ index_loc w →
         nodes w1 !! x = nodes w !! x.
Proof.
  intros Hready. rewrite load_spec.
  intros [= Hd] Hplain Hkey Hk Hfc Ht Hpar Hres Hl.
  fold (slot_str key) in Hk, Hfc |- *.
  pose proof Hready as [Harch Hidx].
  assert (val_wf (PDict d) = true) as Hwf by (rewrite <- Hd; apply index_doc_wf).
  destruct (index_file_of_entry _ _ _ _ Hready Hd Hk) as [ti Hti].
  unfold file_content in Hfc. rewrite resolve_slot in Hfc by done.
  destruct (node_at (nodes w) (slot_loc w key)) as [[b'|]|] eqn:Hb; [|done..].
  injection Hfc as ->. rewrite node_at_ne in Hb by done.
  change (nodes w !! slot_loc w key = Some (File b)) in Hb.
  assert (l ≠ []) as Hlnil by (by intros ->).
  assert (nodes w !! l = None) as Hl' by (by rewrite <- node_at_ne).
  assert (l ≠ slot_loc w key) as HlS.
  { apply (lookup_None_ne (nodes w)); [exact Hl'|by exists (File b)]. }
  assert (l ≠ index_loc w) as HlI.
  { apply (lookup_None_ne (nodes w)); [exact Hl'|by exists (File ti)]. }
  assert (slot_loc w key ≠ index_loc w) as HSI by (by intros [= E]).
  set (e := entry o kind (PStr (slot_str key))) in *.
  (* the copy *)
  set (m1 := <[l := File b]> (nodes w)).
  assert (restore_copy e (Some t) w = (with_nodes w m1, Ok tt)) as Hcopy.
  { unfold restore_copy, bind at 1, lift at 1. unfold e.
    rewrite entry_get_saved.
    assert (py_truthy (PStr (slot_str key)) = true) as ->.
    { unfold py_truthy.
      by rewrite bool_decide_eq_false_2 by by apply slot_str_nonempty. }
    unfold bind at 1, lift at 1. rewrite entry_getitem_saved.
    unfold bind at 1, lift at 1. simpl py_Path.
    rewrite bool_decide_eq_false_2 by done.
    unfold bind at 1, ret at 1. unfold bind at 1.
    rewrite Path_slot by done. fold (slot_str key).
    unfold path_is_dir in Hpar.
    destruct (resolve w (path_str (parent (Path t)))) as [lp|x] eqn:Hrp;
      [|done].
    rewrite (mkdir_p_existing _ _ lp Hrp Hpar).
    apply copy_bytes_ok with (s := slot_loc w key);
      [by apply resolve_slot|by rewrite node_at_ne|done
      |by rewrite Hl|done]. }
  assert (same_dirs w (with_nodes w m1)) as Hs1.
  { apply same_dirs_insert_file. by rewrite Hl'. }
  (* the removal of the archived copy *)
  set (m2 := delete (slot_loc w key) m1).
  assert (unlink_saved e (with_nodes w m1) = (with_nodes w m2, Ok tt)) as Hun.
  { unfold e, entry. rewrite unlink_saved_eq.
    change (dict_get _ "saved") with (Some (PStr (slot_str key))). cbv iota.
    rewrite bool_decide_eq_false_2 by by apply slot_str_nonempty.
    rewrite Path_slot by done. fold (slot_str key).
    rewrite (remove_ok _ _ (slot_loc w key) b); [done| |].
    - apply (same_dirs_resolve w); [done|]. by apply resolve_slot.
    - rewrite node_at_ne by done. cbn [nodes with_nodes]. unfold m1.
      by rewrite lookup_insert_ne. }
  assert (same_dirs w (with_nodes w m2)) as Hs2.
  { eapply same_dirs_trans; [exact Hs1|].
    apply (same_dirs_delete_file (with_nodes w m1)). simpl. unfold m1.
    rewrite lookup_insert_ne by done. by rewrite Hb. }
  pose proof (same_dirs_ready _ _ Hs2 Hready) as Hready2.
  set (w1 := saved_world (with_nodes w m2) (PDict (dict_del d key))).
  assert (same_dirs w w1) as Hs.
  { eapply same_dirs_trans; [exact Hs2|]. apply same_dirs_saved. }
  assert (nodes w1
          = <[index_loc w := File (json_dumps (PDict (dict_del d key)))]> m2)
    as Hn1.
  { unfold w1. by rewrite saved_world_ready by done. }
  exists w1. split_and!.
  - rewrite (restore_spec _ _ _ _ e Hd Hk). by rewrite Hcopy, Hun.
  - unfold file_content. rewrite (same_dirs_resolve _ _ _ _ Hs Hres).
    rewrite node_at_ne, Hn1, lookup_insert_ne by done.
    unfold m2, m1. rewrite lookup_delete_ne by done.
    by rewrite lookup_insert_eq.
  - unfold path_exists.
    rewrite (same_dirs_resolve w w1 _ (slot_loc w key));
      [|done|by apply resolve_slot].
    rewrite node_at_ne, Hn1, lookup_insert_ne by done.
    unfold m2. rewrite lookup_delete_eq.
    by rewrite bool_decide_eq_false_2 by by intros [].
  - rewrite load_spec. unfold w1.
    rewrite index_doc_saved_ready; [done|done|by apply dict_del_wf].
  - intros x Hx1 Hx2 Hx3. rewrite Hn1, lookup_insert_ne by done.
    unfold m2, m1. by rewrite lookup_delete_ne, lookup_insert_ne.
Qed.

End MoreStoreProofs.

(** * The Recycle Bin window *)

Lemma prefix_app s t : String.prefix s (s +:+ t) = true.
Proof.
  induction s as [|c s IH]; [by destruct t|]. rewrite sapp_cons. simpl.
  by destruct (ascii_dec c c).
Qed.

Lemma split_first_cons sep c s :
  split_first sep (String c s) =
  if String.prefix sep (String c s) then ""
  else String c (split_first sep s).
Proof. reflexivity. Qed.

Lemma prefix_cons a s b t :
  String.prefix (String a s) (String b t)
  = bool_decide (a = b) && String.prefix s t.
Proof. simpl. destruct (ascii_dec a b); by case_bool_decide. Qed.

(** A prefix that reaches into what follows [k] meets the first
    character of it. *)
Lemma prefix_before a p s k r :
  substring_of (String a "") p = false →
  String.prefix (p +:+ s) (k +:+ String a r) = true →
  String.prefix p k = true.
Proof.
  revert k. induction p as [|b p IH]; intros k Ha Hp; [by destruct k|].
  cbn [substring_of] in Ha. apply orb_false_elim in Ha as [Hb Ha].
  rewrite prefix_cons in Hb. destruct p; simpl in Hb.
  all: rewrite andb_true_r in Hb; apply bool_decide_eq_false in Hb.
  all: rewrite sapp_cons in Hp; destruct k as [|c k].
  all: rewrite ?sapp_nil_l, ?sapp_cons, prefix_cons in Hp.
  all: apply andb_prop in Hp as [Hc%bool_decide_eq_true Hp]; subst.
  all: try done.
  all: rewrite prefix_cons, bool_decide_eq_true_2 by done; simpl.
  - by destruct k.
  - by apply IH.
Qed.

Lemma split_first_sep_dash k t :
  substring_of (" " +:+ dash) k = false →
  split_first row_sep (k +:+ row_sep +:+ t) = k.
Proof.
  induction k as [|c k IH]; intros Hk.
  { rewrite sapp_nil_l. unfold split_first.
    destruct (row_sep +:+ t) eqn:E; by rewrite <- ?E, prefix_app. }
  cbn [substring_of] in Hk. apply orb_false_elim in Hk as [Hp Hk].
  rewrite sapp_cons, split_first_cons.
  assert (String.prefix row_sep (String c (k +:+ row_sep +:+ t)) = false)
    as ->; [|by rewrite IH].
  clear IH Hk. destruct (String.prefix row_sep _) eqn:E; [|done].
  exfalso. revert Hp E. unfold row_sep.
  change (" " +:+ ?s) with (String " " s). rewrite !prefix_cons.
  intros Hp [Hc%bool_decide_eq_true E]%andb_prop. subst c.
  rewrite bool_decide_eq_true_2 in Hp by done.
  by rewrite (prefix_before " " dash " " k (dash +:+ " " +:+ t)) in Hp.
Qed.

Section WindowProofs.
Context `{JsonCodec}.
Variable repr : pyval → string.

Lemma insert_rows_mappings items s :
  forallb (λ kv, is_mapping kv.2) items = true →
  RecycleBinApp.insert_rows repr items s
  = (RecycleBinApp.Self (RecycleBinApp.world_of s)
       (RecycleBinApp.listbox s ++ map (RecycleBinApp.row_text repr) items)
       (RecycleBinApp.dialogs s), Ok tt).
Proof.
  revert s. induction items as [|[k v] items IH]; intros s Hm.
  { simpl. rewrite app_nil_r. by destruct s. }
  simpl in Hm. apply andb_prop in Hm as [Hv Hm].
  destruct v as [| | | | |dv]; try done. simpl.
  rewrite IH by done. simpl. by rewrite <- app_assoc.
Qed.

Lemma refresh_mappings s d :
  index_doc (RecycleBinApp.world_of s) = PDict d →
  forallb (λ kv, is_mapping kv.2) d = true →
  RecycleBinApp.refresh repr s
  = (RecycleBinApp.Self (RecycleBinApp.world_of s)
       (map (RecycleBinApp.row_text repr) d) (RecycleBinApp.dialogs s),
     Ok tt).
Proof.
  intros Hd Hm. unfold RecycleBinApp.refresh. simpl.
  rewrite load_spec, Hd. simpl. by rewrite insert_rows_mappings.
Qed.

Lemma dict_del_mappings d k :
  forallb (λ kv, is_mapping kv.2) d = true →
  forallb (λ kv, is_mapping kv.2) (dict_del d k) = true.
Proof.
  induction d as [|[k' v] d IH]; [done|]. simpl.
  intros [Hv Hd]%andb_prop. case_decide; [done|]. simpl.
  by rewrite Hv, IH.
Qed.


Lemma split_first_length sep s t :
  (String.length (split_first sep (s +:+ sep +:+ t)) ≤ String.length s)%nat.
Proof.
  induction s as [|c s IH].
  - rewrite sapp_nil_l. unfold split_first.
    destruct (sep +:+ t) eqn:E; [by destruct (String.prefix sep "")|].
    by rewrite <- E, prefix_app.
  - rewrite sapp_cons, split_first_cons.
    destruct (String.prefix sep _); simpl; lia.
Qed.

(** A row gives back its key, unless the key holds a blank followed by
    the dash. *)
Theorem row_gives_back_key k v :
  substring_of (" " +:+ dash) k = false →
  split_first row_sep (RecycleBinApp.row_text repr (k, v)) = k.
Proof. apply split_first_sep_dash. Qed.

(** A key that holds the separator is not read back from its row. *)
Theorem row_loses_key_with_separator a b v :
  split_first row_sep
    (RecycleBinApp.row_text repr (a +:+ row_sep +:+ b, v))
  ≠ a +:+ row_sep +:+ b.
Proof.
  unfold RecycleBinApp.row_text. simpl fst. rewrite !sapp_assoc.
  intros E. apply (f_equal String.length) in E.
  pose proof (split_first_length row_sep a
                (b +:+ row_sep +:+ RecycleBinApp.py_str repr
                   match (a +:+ row_sep +:+ b, v).2 with
                   | PDict d => default PNone (dict_get d "orig")
                   | _ => PNone
                   end)) as Hl.
  rewrite E, !sapp_length in Hl. simpl in Hl. lia.
Qed.

(** In a ready store whose index is a mapping of mappings, selecting the
    row of an entry whose key holds no blank followed by the dash, and
    restoring it: when [restore_from_recycle] of that key succeeds, the
    window says so, and the list shows the entries that are left, in
    their order.  (For a key that holds the separator the row gives back
    another key, see [row_loses_key_with_separator].) *)
Theorem restore_selected_row s d i k v w1 msg :
  store_ready (RecycleBinApp.world_of s) →
  load_recycle_index (RecycleBinApp.world_of s)
  = (RecycleBinApp.world_of s, Ok (PDict d)) →
  forallb (λ kv, is_mapping kv.2) d = true →
  d !! i = Some (k, v) →
  substring_of (" " +:+ dash) k = false →
  restore_from_recycle k None (RecycleBinApp.world_of s)
  = (w1, Ok (true, msg)) →
  ∃ s0,
    RecycleBinApp.refresh repr s = (s0, Ok tt) ∧
    RecycleBinApp.listbox s0 !! i
    = Some (RecycleBinApp.row_text repr (k, v)) ∧
    RecycleBinApp.restore_selected repr [i] s0
    = (RecycleBinApp.Self w1
         (map (RecycleBinApp.row_text repr) (dict_del d k))
         (RecycleBinApp.dialogs s
          ++ [showinfo "Restore" (Literal "Restored.")]),
       Ok tt).
Proof.
  intros Hready. rewrite load_spec. intros [= Hd] Hm Hi Hk Hres.
  eexists. split; [by apply refresh_mappings|]. simpl.
  assert (map (RecycleBinApp.row_text repr) d !! i
          = Some (RecycleBinApp.row_text repr (k, v))) as Hrow
    by by rewrite list_lookup_fmap, Hi.
  split; [done|].
  assert (split_first row_sep (RecycleBinApp.row_text repr (k, v)) = k)
    as Hkey by apply (split_first_sep_dash k _ Hk).
  unfold RecycleBinApp.restore_selected, listbox_get.
  cbn [RecycleBinApp.listbox RecycleBinApp.world_of RecycleBinApp.dialogs].
  rewrite Hrow. cbn [default from_option]. cbv zeta. unfold id. rewrite Hkey, Hres.
  cbn [RecycleBinApp.with_world RecycleBinApp.show RecycleBinApp.listbox
       RecycleBinApp.world_of RecycleBinApp.dialogs].
  destruct (restore_ok_index _ _ _ _ _ _ Hready Hd Hres) as [_ Hd1].
  rewrite (refresh_mappings _ (dict_del d k)); [done|done|].
  by apply dict_del_mappings.
Qed.

(** Emptying the bin from the window: when [empty_recycle] returns the
    list is empty; when it raises, the list is as it was. *)
Theorem empty_bin_clears_list s :
  RecycleBinApp.empty_bin repr true s =
  match empty_recycle (RecycleBinApp.world_of s) with
  | (w, Ok _) =>
      (RecycleBinApp.Self w []
         (RecycleBinApp.dialogs s
          ++ [showinfo "Empty" (Literal "Recycle Bin emptied.")]), Ok tt)
  | (w, Raise e) =>
      (RecycleBinApp.Self w (RecycleBinApp.listbox s)
         (RecycleBinApp.dialogs s), Raise e)
  end.
Proof.
  unfold RecycleBinApp.empty_bin.
  destruct (empty_recycle (RecycleBinApp.world_of s)) as [w [b|e]] eqn:He;
    [|done].
  apply empty_ok_index in He.
  by rewrite (refresh_mappings _ []).
Qed.


End WindowProofs.

(** * The desktop *)

(** ** A new folder *)

Lemma new_folder_plain (now : Z) : plain_name ("NewFolder_" +:+ pretty now) = true.
Proof.
  unfold plain_name. rewrite no_slash_app, no_slash_pretty.
  pose proof (has_underscore_app "NewFolder" (pretty now)) as Hu.
  change ("NewFolder" +:+ String "_" (pretty now))
    with ("NewFolder_" +:+ pretty now) in Hu.
  repeat (rewrite bool_decide_eq_false_2; [|intros E; by rewrite E in Hu]).
  done.
Qed.

(** [_create_new_folder] in a working directory that exists: it makes
    the folder, or finds it there already; where a regular file has the
    name it reports the error and changes nothing. *)
Theorem create_new_folder_cases now w :
  is_dir (nodes w) (cwd w) = true →
  forallb plain_name (cwd w) = true →
  let l := ("NewFolder_" +:+ pretty now) :: cwd w in
  _create_new_folder now w =
  match nodes w !! l with
  | None =>
      (with_nodes w (<[l := Dir]> (nodes w)),
       Ok (showinfo "New Folder" (Literal ("Created " +:+ render l))))
  | Some Dir =>
      (w, Ok (showinfo "New Folder" (Literal ("Created " +:+ render l))))
  | Some (File _) => (w, Ok (showerror "Error" (StrOf (OSError EEXIST))))
  end.
Proof.
  intros Hd Hp l. pose proof (new_folder_plain now) as Hn.
  assert (forallb plain_name l = true) as Hl by (simpl; by rewrite Hn, Hp).
  unfold _create_new_folder, bind at 1, getcwd. rewrite Hd.
  assert (joinpath (Path (render (cwd w))) ("NewFolder_" +:+ pretty now)
          = MkPath true (reverse l)) as ->.
  { pose proof (Path_render false (cwd w) Hp) as HP.
    rewrite sapp_nil_l in HP. rewrite HP. unfold joinpath.
    rewrite plain_not_abs, Path_plain by done. simpl.
    unfold l. by rewrite reverse_cons. }
  assert (path_str (MkPath true (reverse l)) = render l) as -> by done.
  assert (resolve w (render l) = Ok l) as Hres by by apply resolve_render.
  assert (is_dir (nodes w) l
          = match nodes w !! l with Some Dir => true | _ => false end) as Hdl.
  { unfold l. simpl. rewrite Hd. by repeat case_match. }
  assert (l ≠ []) as Hnil by done.
  clearbody l.
  unfold try_except, bind, mkdir_exist_ok, try_except, os_mkdir, ret.
  change (path_str (MkPath true (reverse l))) with (render l).
  rewrite Hres. rewrite node_at_ne by done.
  destruct (nodes w !! l) as [[t|]|]; [| |done];
    simpl; unfold path_is_dir; by rewrite Hres, Hdl.
Qed.

(** ** The icons *)

Lemma place_icons_nth names (c r : Z) (i : nat) name :
  0 ≤ r < 6 → names !! i = Some name →
  place_icons names (20 + 110 * c) (20 + 100 * r) !! i
  = Some ((20 + 110 * (c + (r + Z.of_nat i) / 6),
           20 + 100 * ((r + Z.of_nat i) `mod` 6)), name).
Proof.
  revert c r i. induction names as [|n names IH]; intros c r i Hr Hi; [done|].
  destruct i as [|i]; simpl in Hi |- *.
  - injection Hi as ->. do 3 f_equal; Z.div_mod_to_equations; lia.
  - unfold WINDOW_H. case_bool_decide as Hy.
    + assert (r = 5) as -> by lia.
      replace (20 + 110 * c + 110) with (20 + 110 * (c + 1)) by lia.
      change (place_icons names (20 + 110 * (c + 1)) 20)
        with (place_icons names (20 + 110 * (c + 1)) (20 + 100 * 0)).
      rewrite (IH (c + 1) 0 i) by (lia || done). do 3 f_equal; Z.div_mod_to_equations; lia.
    + replace (20 + 100 * r + 100) with (20 + 100 * (r + 1)) by lia.
      rewrite (IH c (r + 1) i) by (lia || done). do 3 f_equal; Z.div_mod_to_equations; lia.
Qed.

(** The icons stand in columns of six, 110 apart, with 100 between the
    rows. *)
Theorem icons_stand_in_columns_of_six names (i : nat) :
  place_icons names 20 20 !! i
  = (λ name, ((20 + 110 * (Z.of_nat i / 6), 20 + 100 * (Z.of_nat i `mod` 6)),
              name)) <$> names !! i.
Proof.
  destruct (names !! i) as [name|] eqn:Hi; simpl.
  - change (place_icons names 20 20)
      with (place_icons names (20 + 110 * 0) (20 + 100 * 0)).
    rewrite (place_icons_nth names 0 0 i name) by (lia || done).
    do 3 f_equal; Z.div_mod_to_equations; lia.
  - apply lookup_ge_None. apply lookup_ge_None in Hi.
    assert (∀ x y, length (place_icons names x y) = length names) as ->;
      [|done].
    clear. induction names as [|n names IH]; intros x y; [done|].
    simpl. by case_bool_decide; rewrite IH.
Qed.

(** The frames of two icons never overlap. *)
Theorem icons_do_not_overlap names (i j : nat) x1 y1 n1 x2 y2 n2 :
  i ≠ j →
  place_icons names 20 20 !! i = Some ((x1, y1), n1) →
  place_icons names 20 20 !! j = Some ((x2, y2), n2) →
  x1 + icon_side ≤ x2 ∨ x2 + icon_side ≤ x1 ∨
  y1 + icon_side ≤ y2 ∨ y2 + icon_side ≤ y1.
Proof.
  intros Hij Hi Hj.
  assert (∀ (k : nat) x y n,
    place_icons names 20 20 !! k = Some ((x, y), n) →
    x = 20 + 110 * (Z.of_nat k / 6) ∧ y = 20 + 100 * (Z.of_nat k `mod` 6))
    as Hpos.
  { intros k x y n Hk.
    change (place_icons names 20 20)
      with (place_icons names (20 + 110 * 0) (20 + 100 * 0)) in Hk.
    destruct (names !! k) as [name|] eqn:Hn.
    - rewrite (place_icons_nth names 0 0 k name) in Hk by (lia || done).
      injection Hk as <- <- _. split; f_equal; f_equal; Z.div_mod_to_equations; lia.
    - exfalso. apply lookup_ge_None in Hn.
      assert (place_icons names (20 + 110 * 0) (20 + 100 * 0) !! k = None)
        as E; [|by rewrite E in Hk].
      apply lookup_ge_None.
      assert (∀ x y, length (place_icons names x y) = length names) as ->;
        [|done].
      clear. induction names as [|m names IH]; intros x y; [done|].
      simpl. by case_bool_decide; rewrite IH. }
  apply Hpos in Hi as [-> ->]. apply Hpos in Hj as [-> ->].
  unfold icon_side. Z.div_mod_to_equations. lia.
Qed.

(** ** The task bar *)

Section TaskbarProofs.
Context {window : Type}.
Implicit Types (s : CinnaDesktop.self window) (winref : window).

Lemma titled_none title (l : list (string * window)) :
  existsb (λ tr, bool_decide (tr.1 = title)) l = false ↔ title ∉ map fst l.
Proof.
  induction l as [|[t r] l IH]; simpl.
  - split; [intros _; apply not_elem_of_nil|done].
  - rewrite orb_false_iff, IH, not_elem_of_cons, bool_decide_eq_false.
    intuition congruence.
Qed.

Lemma find_none title (l : list (string * window)) :
  List.find (λ tr, bool_decide (tr.1 = title)) l = None ↔
  title ∉ map fst l.
Proof.
  induction l as [|[t r] l IH]; simpl.
  - split; [intros _; apply not_elem_of_nil|done].
  - rewrite not_elem_of_cons, <- IH.
    case_bool_decide; simpl in *; intuition congruence.
Qed.

Lemma find_app title (l l' : list (string * window)) :
  List.find (λ tr, bool_decide (tr.1 = title)) (l ++ l') =
  match List.find (λ tr, bool_decide (tr.1 = title)) l with
  | Some x => Some x
  | None => List.find (λ tr, bool_decide (tr.1 = title)) l'
  end.
Proof.
  induction l as [|[t r] l IH]; [done|]. simpl. by case_bool_decide.
Qed.

Lemma pop_title_keys title (l : list (string * window)) x :
  x ∈ map fst (CinnaDesktop.pop_title window title l) → x ∈ map fst l.
Proof.
  induction l as [|[t r] l IH]; [done|]. simpl. case_decide; simpl.
  - intros Hx. by right.
  - intros [->|Hx]%elem_of_cons; [left|right; auto].
Qed.

Lemma pop_title_nodup title (l : list (string * window)) :
  NoDup (map fst l) → NoDup (map fst (CinnaDesktop.pop_title window title l)).
Proof.
  induction l as [|[t r] l IH]; [done|]. simpl.
  intros [Ht Hl]%NoDup_cons. case_decide; [done|]. simpl.
  apply NoDup_cons. split; [|auto].
  intros Hin. by apply Ht, (pop_title_keys title).
Qed.

Lemma pop_title_last title winref (l : list (string * window)) :
  title ∉ map fst l →
  CinnaDesktop.pop_title window title (l ++ [(title, winref)]) = l.
Proof.
  induction l as [|[t r] l IH]; simpl.
  - intros _. by rewrite decide_True.
  - intros [Hne Hl]%not_elem_of_cons. rewrite decide_False by done.
    by rewrite IH.
Qed.

(** Adding and removing task buttons keeps the list and the frame in
    step, with one button for a title. *)
Theorem task_bar_stays_consistent title winref s :
  CinnaDesktop.consistent window s →
  CinnaDesktop.consistent window
    (CinnaDesktop.add_task_button window title winref s) ∧
  CinnaDesktop.consistent window
    (CinnaDesktop.remove_task_button window title s).
Proof.
  intros [Hf Hn]. split.
  - unfold CinnaDesktop.add_task_button.
    destruct (existsb _ _) eqn:He; [done|]. apply titled_none in He.
    split; simpl; [by rewrite Hf|].
    rewrite map_app. apply NoDup_app. split_and!; [done| |].
    + intros x Hx [->|[]%elem_of_nil]%elem_of_cons. done.
    + apply NoDup_singleton.
  - split; [done|]. simpl. by apply pop_title_nodup.
Qed.

(** [add_task_button] adds a button only for a title that has none: a
    title that has one keeps the window it was given first. *)
Theorem add_task_button_keeps_first_window title winref t s :
  CinnaDesktop.consistent window s →
  CinnaDesktop.button_of window t
    (CinnaDesktop.add_task_button window title winref s)
  = match CinnaDesktop.button_of window t s with
    | Some r => Some r
    | None => if decide (t = title) then Some winref else None
    end.
Proof.
  intros [Hf Hn]. unfold CinnaDesktop.add_task_button, CinnaDesktop.button_of.
  destruct (existsb _ _) eqn:He.
  - destruct (List.find _ (CinnaDesktop.taskframe window s)) as [x|] eqn:Hx;
      [done|].
    case_decide as E; [|done]. subst t. exfalso.
    apply find_none in Hx. rewrite Hf in Hx. apply titled_none in Hx.
    congruence.
  - simpl. rewrite find_app.
    destruct (List.find _ (CinnaDesktop.taskframe window s)) as [x|] eqn:Hx;
      [done|].
    simpl. repeat case_decide; case_bool_decide; simpl in *; congruence.
Qed.

(** Removing the button that was just added for a new title gives back
    the task bar as it was. *)
Theorem remove_task_button_after_add title winref s :
  CinnaDesktop.consistent window s →
  CinnaDesktop.button_of window title s = None →
  CinnaDesktop.remove_task_button window title
    (CinnaDesktop.add_task_button window title winref s) = s.
Proof.
  intros [Hf Hn] Hb. unfold CinnaDesktop.button_of in Hb.
  destruct (List.find _ _) as [x|] eqn:Hx; [done|].
  apply find_none in Hx. rewrite Hf in Hx.
  unfold CinnaDesktop.add_task_button.
  rewrite (proj2 (titled_none title _) Hx).
  unfold CinnaDesktop.remove_task_button. simpl.
  rewrite pop_title_last by done. destruct s as [tb tf]. simpl in *.
  by rewrite Hf.
Qed.

End TaskbarProofs.

(** ** The network status *)

Section EthernetProofs.
Variable lower : string → string.

Lemma fallback_none stats :
  fallback lower stats = None ↔
  Forall (λ ns, isup ns.2 = true → String.prefix "lo" (lower ns.1) = true)
    stats.
Proof.
  induction stats as [|[name st] stats IH]; simpl.
  - split; [by constructor|done].
  - rewrite Forall_cons. simpl.
    destruct (isup st), (String.prefix "lo" (lower name)); simpl;
      rewrite <- ?IH; intuition congruence.
Qed.

Lemma wired_none stats :
  fallback lower stats = None → wired lower stats = None.
Proof.
  induction stats as [|[name st] stats IH]; [done|]. simpl.
  destruct (isup st), (String.prefix "lo" (lower name)); simpl; auto; done.
Qed.

Lemma fallback_found stats name :
  fallback lower stats = Some name →
  ∃ st, (name, st) ∈ stats ∧ isup st = true
        ∧ String.prefix "lo" (lower name) = false.
Proof.
  induction stats as [|[n st] stats IH]; [done|]. simpl.
  destruct (isup st) eqn:Hup, (String.prefix "lo" (lower n)) eqn:Hlo; simpl.
  2: { intros [= <-]. exists st. split_and!; [left|done|done]. }
  all: intros (st' & Hin & ?)%IH; exists st'; split; [by right|done].
Qed.

Lemma wired_found stats name :
  wired lower stats = Some name →
  ∃ st, (name, st) ∈ stats ∧ isup st = true
        ∧ String.prefix "lo" (lower name) = false.
Proof.
  induction stats as [|[n st] stats IH]; [done|]. simpl.
  assert (wired lower stats = Some name →
          ∃ st', (name, st') ∈ (n, st) :: stats ∧ isup st' = true
                 ∧ String.prefix "lo" (lower name) = false) as Hrest.
  { intros (st' & Hin & ?)%IH. exists st'. split; [by right|done]. }
  destruct (isup st) eqn:Hup; simpl; [|done].
  destruct (String.prefix "lo" (lower n)) eqn:Hlo; simpl; [done|].
  assert (Some n = Some name →
          ∃ st', (name, st') ∈ (n, st) :: stats ∧ isup st' = true
                 ∧ String.prefix "lo" (lower name) = false) as Hhere.
  { intros [= <-]. exists st. split_and!; [left|done|done]. }
  by repeat case_match.
Qed.

(** The status reads [Ethernet: No] exactly when every interface that
    is up has a name that starts with [lo], whatever the names and the
    speeds of the others. *)
Theorem status_says_no_iff_only_lo stats :
  eth_label lower (Ok stats) = "Ethernet: No" ↔
  Forall (λ ns, isup ns.2 = true → String.prefix "lo" (lower ns.1) = true)
    stats.
Proof.
  rewrite <- fallback_none. unfold eth_label, is_ethernet_connected. split.
  - destruct (wired lower stats); [done|].
    by destruct (fallback lower stats).
  - intros Hf. by rewrite (wired_none _ Hf), Hf.
Qed.

(** The interface that [is_ethernet_connected] names is one of those
    given, is up, and has a name that does not start with [lo]. *)
Theorem ethernet_name_is_up stats b name :
  is_ethernet_connected lower stats = (b, name) →
  (b = true ↔ is_Some name) ∧
  ∀ n, name = Some n →
       ∃ l st, stats = Ok l ∧ (n, st) ∈ l ∧ isup st = true
               ∧ String.prefix "lo" (lower n) = false.
Proof.
  unfold is_ethernet_connected. destruct stats as [l|e].
  2: { intros [= <- <-]. split; [split; [done|by intros []]|done]. }
  destruct (wired lower l) as [n|] eqn:Hw.
  { intros [= <- <-]. split; [by split; eauto|].
    intros n' [= <-]. apply wired_found in Hw as (st & ?). eauto. }
  destruct (fallback lower l) as [n|] eqn:Hf.
  { intros [= <- <-]. split; [by split; eauto|].
    intros n' [= <-]. apply fallback_found in Hf as (st & ?). eauto. }
  intros [= <- <-]. split; [split; [done|by intros []]|done].
Qed.

End EthernetProofs.

(** * The File Explorer window *)

Lemma upto_last_slash_cons c p :
  upto_last_slash (String c p) =
  if bool_decide (c = slash) then String c (upto_last_slash p)
  else if bool_decide (upto_last_slash p = "") then ""
       else String c (upto_last_slash p).
Proof. reflexivity. Qed.

Lemma rstrip_slashes_cons c s :
  rstrip_slashes (String c s) =
  if bool_decide (c = slash) && bool_decide (rstrip_slashes s = "") then ""
  else String c (rstrip_slashes s).
Proof. reflexivity. Qed.

Lemma upto_last_slash_none t : no_slash t = true → upto_last_slash t = "".
Proof.
  induction t as [|c t IH]; [done|]. simpl.
  intros [Hc Ht]%andb_prop. apply negb_true_iff in Hc. rewrite Hc.
  by rewrite IH.
Qed.

Lemma upto_last_slash_app p t :
  no_slash t = true → upto_last_slash (p +:+ String slash t) = p +:+ "/".
Proof.
  intros Ht. induction p as [|c p IH].
  - rewrite !sapp_nil_l, upto_last_slash_cons.
    rewrite bool_decide_eq_true_2 by done. by rewrite upto_last_slash_none.
  - rewrite !sapp_cons, upto_last_slash_cons, IH.
    case_bool_decide; [done|].
    rewrite bool_decide_eq_false_2; [done|]. by destruct p.
Qed.

Lemma upto_last_slash_slashes p t :
  all_slashes p = true → no_slash t = true → upto_last_slash (p +:+ t) = p.
Proof.
  intros Hp Ht. induction p as [|c p IH].
  - rewrite sapp_nil_l. by apply upto_last_slash_none.
  - simpl in Hp. apply andb_prop in Hp as [Hc Hp].
    rewrite sapp_cons, upto_last_slash_cons, Hc. by rewrite IH.
Qed.

Lemma upto_last_slash_length p :
  (String.length (upto_last_slash p) ≤ String.length p)%nat.
Proof.
  induction p as [|c p IH]; [done|]. rewrite upto_last_slash_cons.
  repeat case_bool_decide; simpl; lia.
Qed.

Lemma upto_last_slash_ends p :
  upto_last_slash p ≠ "" → ends_with_slash (upto_last_slash p) = true.
Proof.
  induction p as [|c p IH]; [done|]. rewrite upto_last_slash_cons.
  case_bool_decide as Hc.
  - intros _. destruct (upto_last_slash p) as [|c' r] eqn:Hr.
    + simpl. by apply bool_decide_eq_true_2.
    + by apply IH.
  - case_bool_decide as Hr; [done|]. intros _.
    destruct (upto_last_slash p) as [|c' r]; [done|]. by apply IH.
Qed.

Lemma rstrip_slashes_shorter h :
  ends_with_slash h = true →
  (String.length (rstrip_slashes h) < String.length h)%nat.
Proof.
  induction h as [|c h IH]; [done|]. rewrite rstrip_slashes_cons.
  destruct h as [|c' h'].
  - simpl. intros ->. simpl. lia.
  - intros Hh. specialize (IH Hh).
    destruct (_ && _); simpl in *; lia.
Qed.

Lemma rstrip_slashes_app p :
  p ≠ "" → ends_with_slash p = false → rstrip_slashes (p +:+ "/") = p.
Proof.
  induction p as [|c p IH]; [done|]. intros _ He.
  rewrite sapp_cons, rstrip_slashes_cons. destruct p as [|c' p'].
  - simpl in He. rewrite sapp_nil_l. simpl. by rewrite He.
  - rewrite IH by done. rewrite (bool_decide_eq_false_2 (_ = "")) by done.
    by rewrite andb_false_r.
Qed.

Lemma all_slashes_app s t :
  all_slashes (s +:+ t) = all_slashes s && all_slashes t.
Proof.
  induction s as [|c s IH]; [done|]. rewrite sapp_cons. simpl.
  by rewrite IH, andb_assoc.
Qed.

Lemma all_slashes_ends p :
  p ≠ "" → all_slashes p = true → ends_with_slash p = true.
Proof.
  induction p as [|c p IH]; [done|]. intros _. simpl.
  intros [Hc Hp]%andb_prop. destruct p; [done|]. by apply IH.
Qed.

Lemma no_slash_not_abs t : no_slash t = true → isabs t = false.
Proof.
  destruct t as [|c t]; [done|]. simpl.
  intros [Hc _]%andb_prop. by apply negb_true_iff in Hc.
Qed.

(** Into a folder and up again. *)
Lemma dirname_join p sel :
  no_slash sel = true →
  (p ≠ "" ∧ ends_with_slash p = false) ∨ (p ≠ "" ∧ all_slashes p = true) →
  dirname (path_join p sel) = p.
Proof.
  intros Hs Hp. unfold path_join. rewrite no_slash_not_abs by done.
  destruct Hp as [[Hne He]|[Hne Ha]].
  - rewrite He, bool_decide_eq_false_2 by done. simpl.
    unfold dirname. change ("/" +:+ sel) with (String slash sel).
    rewrite upto_last_slash_app by done.
    assert (all_slashes (p +:+ "/") = false) as ->.
    { rewrite all_slashes_app.
      destruct (all_slashes p) eqn:Ha; [|done].
      by rewrite all_slashes_ends in He. }
    rewrite bool_decide_eq_false_2 by by destruct p.
    by apply rstrip_slashes_app.
  - rewrite (all_slashes_ends p) by done. rewrite orb_true_r.
    unfold dirname. rewrite upto_last_slash_slashes by done.
    by rewrite Ha, andb_false_r.
Qed.

Lemma go_up_fixed q : q ≠ "" → all_slashes q = true → go_up q = q.
Proof.
  intros Hne Ha. unfold go_up, dirname.
  pose proof (upto_last_slash_slashes q "" Ha eq_refl) as E.
  rewrite sapp_nil_r in E. rewrite E.
  rewrite Ha, andb_false_r. by rewrite bool_decide_eq_false_2.
Qed.

Lemma go_up_step p :
  (go_up p ≠ "" ∧ all_slashes (go_up p) = true) ∨
  (String.length (go_up p) < String.length p)%nat.
Proof.
  unfold go_up, dirname.
  destruct (bool_decide_reflect (upto_last_slash p = "")) as [Hh|Hh]; simpl.
  { left. by rewrite Hh. }
  destruct (all_slashes (upto_last_slash p)) eqn:Ha; simpl.
  { left. by rewrite bool_decide_eq_false_2. }
  case_bool_decide as Hr; [by left|]. right.
  pose proof (rstrip_slashes_shorter _ (upto_last_slash_ends _ Hh)).
  pose proof (upto_last_slash_length p). lia.
Qed.

Lemma go_up_iter_fixed n q :
  q ≠ "" → all_slashes q = true → Nat.iter n go_up q = q.
Proof.
  intros Hne Ha. induction n as [|n IH]; [done|]. simpl.
  rewrite IH. by apply go_up_fixed.
Qed.

Lemma go_up_reaches_root n p :
  (String.length p ≤ n)%nat →
  Nat.iter (S n) go_up p ≠ "" ∧ all_slashes (Nat.iter (S n) go_up p) = true.
Proof.
  revert p. induction n as [|n IH]; intros p Hn.
  - destruct p; [done|simpl in Hn; lia].
  - rewrite Nat.iter_succ_r.
    destruct (go_up_step p) as [[Hne Ha]|Hlt].
    + by rewrite go_up_iter_fixed.
    + apply IH. lia.
Qed.

Lemma refresh_path_var w s :
  FileExplorerApp.path_var (FileExplorerApp.refresh w s)
  = FileExplorerApp.path_var s.
Proof.
  unfold FileExplorerApp.refresh.
  by destruct (listdir _ w) as [w' [items|e]].
Qed.

Lemma open_up_path_var w s :
  FileExplorerApp.path_var (FileExplorerApp.open_item w ".." s)
  = go_up (FileExplorerApp.path_var s).
Proof.
  unfold FileExplorerApp.open_item. rewrite bool_decide_eq_true_2 by done.
  by rewrite refresh_path_var.
Qed.

(** Opening the row [..] often enough ends at a path made of slashes,
    and stays there. *)
Theorem going_up_ends_at_the_root w s :
  let s' := Nat.iter (S (String.length (FileExplorerApp.path_var s)))
              (FileExplorerApp.open_item w "..") s in
  FileExplorerApp.path_var s' ≠ "" ∧
  all_slashes (FileExplorerApp.path_var s') = true ∧
  FileExplorerApp.path_var (FileExplorerApp.open_item w ".." s')
  = FileExplorerApp.path_var s'.
Proof.
  intros s'.
  assert (∀ n, FileExplorerApp.path_var
                 (Nat.iter n (FileExplorerApp.open_item w "..") s)
               = Nat.iter n go_up (FileExplorerApp.path_var s)) as Hiter.
  { induction n as [|n IH]; [done|]. simpl.
    by rewrite open_up_path_var, IH. }
  unfold s'. rewrite open_up_path_var, Hiter.
  destruct (go_up_reaches_root (String.length (FileExplorerApp.path_var s))
              (FileExplorerApp.path_var s)) as [Hne Ha]; [done|].
  split_and!; [done|done|by apply go_up_fixed].
Qed.

(** Opening a folder and then the row [..] gives back the path, when it
    does not end with a slash or is the root. *)
Theorem into_a_folder_and_up_again w s sel :
  no_slash sel = true → sel ≠ ".." →
  path_is_dir w (path_join (FileExplorerApp.path_var s) sel) = true →
  FileExplorerApp.path_var s ≠ "" →
  ends_with_slash (FileExplorerApp.path_var s) = false
  ∨ all_slashes (FileExplorerApp.path_var s) = true →
  let s1 := FileExplorerApp.open_item w sel s in
  FileExplorerApp.path_var s1 = path_join (FileExplorerApp.path_var s) sel ∧
  FileExplorerApp.path_var (FileExplorerApp.open_item w ".." s1)
  = FileExplorerApp.path_var s.
Proof.
  intros Hs Hsel Hd Hne Hp s1.
  assert (FileExplorerApp.path_var s1
          = path_join (FileExplorerApp.path_var s) sel) as E.
  { unfold s1, FileExplorerApp.open_item.
    rewrite bool_decide_eq_false_2 by done. by rewrite Hd, refresh_path_var. }
  split; [done|]. rewrite open_up_path_var, E. unfold go_up.
  rewrite dirname_join; [by rewrite bool_decide_eq_false_2|done|].
  destruct Hp; [by left|by right].
Qed.

(** * Sizes in words *)

Lemma float_of_int_exact n : Z.abs n < 2 ^ 53 → float_of_int n = Some n.
Proof.
  intros Hn. unfold float_of_int.
  assert ((Z.log2 (Z.abs n) - 52 <=? 0) = true) as ->.
  { apply Z.leb_le. destruct (decide (Z.abs n = 0)) as [->|Hz]; [done|].
    assert (Z.log2 (Z.abs n) < 53); [|lia].
    apply Z.log2_lt_pow2; lia. }
  assert (2 ^ 53 < 2 ^ 1024) as Hbig by by vm_compute.
  rewrite (proj2 (Z.leb_gt _ _)) by lia.
  by destruct n.
Qed.

Lemma round_half_even_whole a : round_half_even a 1 = a.
Proof.
  unfold round_half_even. rewrite Z.mod_1_r, Z.div_1_r. done.
Qed.

Lemma round_half_even_up a b q :
  0 < b → Z.odd q = true → (2 * q + 1) * b ≤ 2 * a → a < (q + 1) * b →
  round_half_even a b = q + 1.
Proof.
  intros Hb Hq Hlo Hhi. unfold round_half_even.
  assert (a / b = q) as Hdiv
    by (symmetry; apply Z.div_unique with (a - q * b); lia).
  assert (a `mod` b = a - q * b) as Hmod.
  { symmetry. apply Z.mod_unique with q; lia. }
  rewrite Hdiv, Hmod.
  rewrite (proj2 (Z.ltb_ge _ _)) by lia.
  destruct (b <? 2 * (a - q * b)); [done|].
  by rewrite <- Z.negb_odd, Hq.
Qed.

(** Below 1024 the size is printed as it is, with [.0B]. *)
Theorem format_bytes_below_a_kilobyte n :
  - 2 ^ 53 < n < 1024 →
  format_bytes n = Some (pretty n +:+ ".0B").
Proof.
  intros Hn. unfold format_bytes.
  rewrite (proj2 (Z.ltb_lt _ _)) by lia.
  rewrite float_of_int_exact by lia. simpl. f_equal.
  unfold fixed1. rewrite round_half_even_whole.
  replace (10 * Z.abs n / 10) with (Z.abs n)
    by (apply Z.div_unique with 0; lia).
  replace ((10 * Z.abs n) `mod` 10) with 0
    by (apply Z.mod_unique with (Z.abs n); lia).
  destruct n as [|p|p]; [reflexivity|..];
    cbn [Z.ltb Z.compare Z.abs]; rewrite ?sapp_nil_l, !sapp_assoc;
    reflexivity.
Qed.

(** Just below the next unit the size is printed as [1024.0] of the
    unit before. *)
Theorem format_bytes_just_below_a_unit (k : Z) unit n :
  (k, unit) ∈ [(1, "KB"); (2, "MB"); (3, "GB"); (4, "TB")] →
  20479 * 1024 ^ k ≤ 20 * n → n < 1024 ^ (k + 1) →
  format_bytes n = Some ("1024.0" +:+ unit).
Proof.
  intros Hk Hlo Hhi.
  assert (∀ d, 0 < d → 20479 * d ≤ 20 * n → n < 1024 * d →
               fixed1 n d = "1024.0") as Hfix.
  { intros d Hd H1 H2. unfold fixed1.
    rewrite (round_half_even_up _ d 10239) by (done || lia).
    by rewrite (proj2 (Z.ltb_ge _ _)) by lia. }
  unfold format_bytes.
  repeat (apply elem_of_cons in Hk as [[= -> ->]|Hk]);
    [..|by apply elem_of_nil in Hk].
  all: cbn -[Z.mul Z.ltb] in Hlo, Hhi.
  all: rewrite (proj2 (Z.ltb_ge n 1024)) by lia.
  all: rewrite float_of_int_exact by (change (2 ^ 53) with 9007199254740992; lia).
  all: cbn [mbind option_bind format_loop].
  - rewrite (proj2 (Z.ltb_lt _ _)) by lia. by rewrite Hfix by lia.
  - rewrite (proj2 (Z.ltb_ge _ _)) by lia.
    rewrite (proj2 (Z.ltb_lt _ _)) by lia. by rewrite Hfix by lia.
  - rewrite !(proj2 (Z.ltb_ge _ _)) by lia.
    rewrite (proj2 (Z.ltb_lt _ _)) by lia. by rewrite Hfix by lia.
  - rewrite !(proj2 (Z.ltb_ge _ _)) by lia.
    rewrite (proj2 (Z.ltb_lt _ _)) by lia. by rewrite Hfix by lia.
Qed.

(** Beyond 53 bits an [int] is rounded when it becomes a float, and an
    [int] beyond the floats raises. *)
Example format_bytes_of_large_ints :
  float_of_int (2 ^ 53 + 1) = Some (2 ^ 53) ∧
  float_of_int (2 ^ 53 + 3) = Some (2 ^ 53 + 4) ∧
  format_bytes (2 ^ 60) = Some "1024.0PB" ∧
  format_bytes (2 ^ 1024 - 2 ^ 970 - 1) ≠ None ∧
  format_bytes (2 ^ 1024 - 2 ^ 970) = None.
Proof. by vm_compute. Qed.

(** * The further properties in the concrete stores *)

Example moved_store_is_moved :
  (move_to_recycle "/tmp/a.txt" 1700 fresh_store).1 = moved_store ∧
  (module_init bare_world).1 = fresh_store.
Proof. by vm_compute. Qed.

Example listed_store_is_moved :
  (move_all [("/tmp", 1699); ("/tmp/a.txt", 1700); ("/tmp", 1701)]
     fresh_store).1 = listed_store.
Proof. by vm_compute. Qed.

Lemma save_then_load_witness :
  (run save_recycle_index (PDict listed_index) then load_recycle_index)
    fresh_store
  = ((save_recycle_index (PDict listed_index) fresh_store).1,
     Ok (PDict listed_index)).
Proof.
  apply (save_then_load fresh_store listed_index).
  - apply (bool_decide_unpack _). by vm_compute.
  - apply (bool_decide_unpack _). by vm_compute.
  - repeat constructor.
    + by exists "/tmp", "unknown", PNone; split; [|left].
    + exists "/tmp/a.txt", "file", (PStr (slot_str "1700_a.txt")).
      split; [done|]. right. by exists "1700_a.txt".
    + by exists "/tmp", "unknown", PNone; split; [|left].
Defined.

Lemma move_file_archived_witness :
  ∃ w1,
    move_to_recycle "/tmp/a.txt" 1700 fresh_store
    = (w1, Ok (recycle_key 1700 "/tmp/a.txt")) ∧
    file_content w1
      (path_str (joinpath RECYCLE_DIR (recycle_key 1700 "/tmp/a.txt")))
    = Some "hi" ∧
    path_exists w1 "/tmp/a.txt" = false ∧
    load_recycle_index w1
    = (w1, Ok (PDict (dict_set [] (recycle_key 1700 "/tmp/a.txt")
                        (entry (abspath fresh_store "/tmp/a.txt") "file"
                           (PStr (path_str
                                    (joinpath RECYCLE_DIR
                                       (recycle_key 1700 "/tmp/a.txt")))))))) ∧
    ∃ e,
      dict_get (dict_set [] (recycle_key 1700 "/tmp/a.txt")
                  (entry (abspath fresh_store "/tmp/a.txt") "file"
                     (PStr (path_str
                              (joinpath RECYCLE_DIR
                                 (recycle_key 1700 "/tmp/a.txt"))))))
        (recycle_key 1700 "/tmp/a.txt") = Some e ∧
      py_getitem e "orig" = Ok (PStr (abspath fresh_store "/tmp/a.txt")) ∧
      py_getitem e "type" = Ok (PStr "file") ∧
      py_getitem e "saved"
      = Ok (PStr (path_str
                    (joinpath RECYCLE_DIR (recycle_key 1700 "/tmp/a.txt")))).
Proof.
  apply (move_file_archived fresh_store [] "/tmp/a.txt" 1700 "hi");
    by vm_compute.
Defined.

Lemma move_keeps_other_entries_witness :
  ∃ w1 d1,
    move_to_recycle "/tmp/a.txt" 1700 lost_store
    = (w1, Ok (recycle_key 1700 "/tmp/a.txt")) ∧
    store_ready w1 ∧
    load_recycle_index w1 = (w1, Ok (PDict d1)) ∧
    is_Some (dict_get d1 (recycle_key 1700 "/tmp/a.txt")) ∧
    dict_get d1 "5_b.txt" = dict_get [("5_b.txt", lost_entry)] "5_b.txt".
Proof.
  apply (move_keeps_other_entries lost_store [("5_b.txt", lost_entry)]);
    by vm_compute.
Defined.

Lemma restore_drops_only_key_witness :
  let w1 := (restore_from_recycle "1700_a.txt" None moved_store).1 in
  let d := [("1700_a.txt", moved_entry)] in
  load_recycle_index w1 = (w1, Ok (PDict (dict_del d "1700_a.txt"))) ∧
  dict_get (dict_del d "1700_a.txt") "1700_a.txt" = None ∧
  ∀ k, k ≠ "1700_a.txt" → dict_get (dict_del d "1700_a.txt") k = dict_get d k.
Proof.
  apply (restore_drops_only_key moved_store [("1700_a.txt", moved_entry)]
           "1700_a.txt" None _ (Literal "Restored")); by vm_compute.
Defined.

Lemma restore_to_target_witness :
  ∃ w1,
    restore_from_recycle "1700_a.txt" (Some "/tmp/c.txt") moved_store
    = (w1, Ok (true, Literal "Restored")) ∧
    file_content w1 (path_str (Path "/tmp/c.txt")) = Some "hi" ∧
    path_exists w1 (path_str (joinpath RECYCLE_DIR "1700_a.txt")) = false ∧
    load_recycle_index w1
    = (w1, Ok (PDict (dict_del [("1700_a.txt", moved_entry)] "1700_a.txt"))) ∧
    ∀ x, x ≠ ["c.txt"; "tmp"] → x ≠ slot_loc moved_store "1700_a.txt" →
         x ≠ index_loc moved_store →
         nodes w1 !! x = nodes moved_store !! x.
Proof.
  apply (restore_to_target moved_store [("1700_a.txt", moved_entry)]
           "1700_a.txt" "/tmp/a.txt" "file" "/tmp/c.txt" ["c.txt"; "tmp"]
           "hi"); by vm_compute.
Defined.

Lemma empty_recycle_result_witness :
  (empty_recycle lost_store).2 =
  if forallb (λ kv, is_mapping kv.2) [("5_b.txt", lost_entry)] then Ok true
  else Raise AttributeError.
Proof. apply (empty_recycle_result lost_store); by vm_compute. Defined.

Lemma empty_recycle_only_removes_witness :
  let w1 := (empty_recycle moved_store).1 in
  same_dirs moved_store w1 ∧
  ∀ x b, x ≠ index_loc moved_store →
         nodes w1 !! x = Some (File b) → nodes moved_store !! x = Some (File b).
Proof.
  apply (empty_recycle_only_removes moved_store _ (Ok true)). by vm_compute.
Defined.

Lemma non_mapping_index_fails_witness :
  (move_to_recycle "/tmp/a.txt" 1700 (store_with "[]")).2 = Raise TypeError ∧
  empty_recycle (store_with "[]") = (store_with "[]", Raise AttributeError) ∧
  (restore_from_recycle "1700_a.txt" None (store_with "[]")
   = (store_with "[]", Ok (false, Literal "Not found")) ∨
   restore_from_recycle "1700_a.txt" None (store_with "[]")
   = (store_with "[]", Raise TypeError)).
Proof.
  apply (non_mapping_index_fails (store_with "[]") (PList []));
    by vm_compute.
Defined.

Lemma move_unrecorded_witness :
  ∃ w1,
    move_to_recycle "/tmp/a.txt" 1700 (store_with "[]")
    = (w1, Raise TypeError) ∧
    path_exists w1 "/tmp/a.txt" = false ∧
    file_content w1
      (path_str (joinpath RECYCLE_DIR (recycle_key 1700 "/tmp/a.txt")))
    = Some "hi" ∧
    load_recycle_index w1 = (w1, Ok (PList [])).
Proof.
  apply (move_unrecorded_with_non_mapping_index (store_with "[]") (PList [])
           "/tmp/a.txt" 1700 "hi"); by vm_compute.
Defined.

Lemma module_init_only_adds_witness :
  cwd fresh_store = cwd bare_world ∧
  ∀ x, nodes fresh_store !! x = nodes bare_world !! x ∨
       (nodes bare_world !! x = None ∧
        (nodes fresh_store !! x = Some Dir ∨
         x = index_loc bare_world ∧
         nodes fresh_store !! x = Some (File (json_dumps (PDict []))))).
Proof.
  apply (module_init_only_adds bare_world fresh_store (Ok tt)).
  by vm_compute.
Defined.

Lemma module_init_makes_store_witness :
  path_is_dir fresh_store (path_str RECYCLE_DIR) = true ∧
  path_exists fresh_store (path_str RECYCLE_INDEX) = true ∧
  (nodes bare_world !! index_loc bare_world = None →
   load_recycle_index fresh_store = (fresh_store, Ok (PDict []))) ∧
  module_init fresh_store = (fresh_store, Ok tt).
Proof.
  apply (module_init_makes_store bare_world fresh_store). by vm_compute.
Defined.

Lemma row_gives_back_key_witness :
  split_first row_sep
    (RecycleBinApp.row_text dumps ("1700_a.txt", moved_entry))
  = "1700_a.txt".
Proof. apply (row_gives_back_key dumps). by vm_compute. Defined.

Lemma restore_selected_row_witness :
  ∃ s0,
    RecycleBinApp.refresh dumps (RecycleBinApp.Self listed_store [] [])
    = (s0, Ok tt) ∧
    RecycleBinApp.listbox s0 !! 1%nat
    = Some (RecycleBinApp.row_text dumps ("1700_a.txt", moved_entry)) ∧
    RecycleBinApp.restore_selected dumps [1%nat] s0
    = (RecycleBinApp.Self
         (restore_from_recycle "1700_a.txt" None listed_store).1
         (map (RecycleBinApp.row_text dumps)
            (dict_del listed_index "1700_a.txt"))
         ([] ++ [showinfo "Restore" (Literal "Restored.")]),
       Ok tt).
Proof.
  apply (restore_selected_row dumps (RecycleBinApp.Self listed_store [] [])
           listed_index 1 "1700_a.txt" moved_entry
           _ (Literal "Restored")); by vm_compute.
Defined.

(** The rows that are left there, in the order of the index. *)
Example restore_selected_row_rows :
  map (RecycleBinApp.row_text dumps) (dict_del listed_index "1700_a.txt")
  = ["1699_tmp" +:+ row_sep +:+ "/tmp"; "1701_tmp" +:+ row_sep +:+ "/tmp"] ∧
  RecycleBinApp.listbox
    (RecycleBinApp.refresh dumps (RecycleBinApp.Self listed_store [] [])).1
  = ["1699_tmp" +:+ row_sep +:+ "/tmp";
     "1700_a.txt" +:+ row_sep +:+ "/tmp/a.txt";
     "1701_tmp" +:+ row_sep +:+ "/tmp"].
Proof. by vm_compute. Qed.


Lemma create_new_folder_cases_witness :
  let l := ("NewFolder_" +:+ pretty 1700) :: cwd fresh_store in
  _create_new_folder 1700 fresh_store =
  match nodes fresh_store !! l with
  | None =>
      (with_nodes fresh_store (<[l := Dir]> (nodes fresh_store)),
       Ok (showinfo "New Folder" (Literal ("Created " +:+ render l))))
  | Some Dir =>
      (fresh_store,
       Ok (showinfo "New Folder" (Literal ("Created " +:+ render l))))
  | Some (File _) =>
      (fresh_store, Ok (showerror "Error" (StrOf (OSError EEXIST))))
  end.
Proof. apply (create_new_folder_cases 1700 fresh_store); by vm_compute. Defined.

Lemma icons_do_not_overlap_witness :
  20 + icon_side ≤ 130 ∨ 130 + icon_side ≤ 20 ∨
  20 + icon_side ≤ 120 ∨ 120 + icon_side ≤ 20.
Proof.
  apply (icons_do_not_overlap icon_names 0 7 20 20 "My Computer" 130 120
           "Recycle Bin"); by vm_compute.
Defined.

Lemma task_bar_stays_consistent_witness :
  CinnaDesktop.consistent nat
    (CinnaDesktop.add_task_button nat "Notepad" 1%nat
       (CinnaDesktop.Self nat [] [])) ∧
  CinnaDesktop.consistent nat
    (CinnaDesktop.remove_task_button nat "Notepad"
       (CinnaDesktop.Self nat [] [])).
Proof.
  apply task_bar_stays_consistent. split; [done|apply NoDup_nil_2].
Defined.

Lemma add_task_button_keeps_first_window_witness :
  let s := CinnaDesktop.Self nat [("Notepad", 1%nat)] [("Notepad", 1%nat)] in
  CinnaDesktop.button_of nat "Notepad"
    (CinnaDesktop.add_task_button nat "Notepad" 2%nat s)
  = match CinnaDesktop.button_of nat "Notepad" s with
    | Some r => Some r
    | None => if decide ("Notepad" = "Notepad") then Some 2%nat else None
    end.
Proof.
  apply add_task_button_keeps_first_window.
  split; [done|]. apply NoDup_singleton.
Defined.

Lemma remove_task_button_after_add_witness :
  let s := CinnaDesktop.Self nat [("Paint", 1%nat)] [("Paint", 1%nat)] in
  CinnaDesktop.remove_task_button nat "Notepad"
    (CinnaDesktop.add_task_button nat "Notepad" 2%nat s) = s.
Proof.
  apply remove_task_button_after_add; [|done].
  split; [done|]. apply NoDup_singleton.
Defined.

Lemma ethernet_name_is_up_witness :
  let stats := [("lo", Snicstats true 0); ("Wi-Fi", Snicstats true 0)] in
  (true = true ↔ is_Some (Some "Wi-Fi")) ∧
  ∀ n, Some "Wi-Fi" = Some n →
       ∃ l st, Ok stats = Ok l ∧ (n, st) ∈ l ∧ isup st = true
               ∧ String.prefix "lo" (lower_ascii n) = false.
Proof. apply (ethernet_name_is_up lower_ascii). by vm_compute. Defined.

Lemma into_a_folder_and_up_again_witness :
  let s := FileExplorerApp.Self "/" [] [] [] in
  let s1 := FileExplorerApp.open_item fresh_store "tmp" s in
  FileExplorerApp.path_var s1 = path_join (FileExplorerApp.path_var s) "tmp" ∧
  FileExplorerApp.path_var (FileExplorerApp.open_item fresh_store ".." s1)
  = FileExplorerApp.path_var s.
Proof.
  apply (into_a_folder_and_up_again fresh_store
           (FileExplorerApp.Self "/" [] [] []) "tmp");
    try by vm_compute.
  by right.
Defined.

Lemma format_bytes_below_a_kilobyte_witness :
  format_bytes 512 = Some (pretty 512 +:+ ".0B").
Proof. apply format_bytes_below_a_kilobyte. by vm_compute. Defined.

Lemma format_bytes_just_below_a_unit_witness :
  format_bytes 1048575 = Some ("1024.0" +:+ "KB").
Proof.
  apply (format_bytes_just_below_a_unit 1); [|by vm_compute..].
  apply elem_of_cons. by left.
Defined.

